(** * gomcp: a JSON-RPC ("MCP") server and its clients, embedded in Rocq

    The development follows the Go packages [mcpserver] (method table,
    tool / resource / prompt registries, HTTP and WebSocket dispatch) and
    [mcpclient] (HTTP, WebSocket and SSE clients, the unified client).

    Go maps are [gmap]s; Go's [map] iteration order is unspecified, and the
    order in which [map_to_list] enumerates a [gmap] stands for one of the
    possible orders.  Pointers to registered descriptors are modelled by the
    descriptors themselves. *)

From Stdlib Require Import ZArith NArith Ascii String List Lia.
From stdpp Require Import base option list gmap strings fin_maps pretty.

Local Open Scope string_scope.
Local Open Scope list_scope.
Local Open Scope Z_scope.

Set Warnings "-register-all".

(* ===================================================================== *)
(** ** JSON values and [encoding/json] decoding into the parameter structs *)
(* ===================================================================== *)

Module Json.

(** A parsed JSON document.  Numbers keep their literal text. *)
Inductive json : Type :=
| JNull
| JBool (b : bool)
| JNumber (lit : string)
| JString (s : string)
| JArray (items : list json)
| JObject (fields : list (string * json)).

(** [json.RawMessage]: the bytes of one JSON value of an envelope that was
    decoded successfully, or [nil] when the member was absent. *)
Definition RawMessage : Type := option json.

(** ASCII upper-casing of one byte, as [encoding/json] folds member names. *)
Definition fold_ascii (c : ascii) : ascii :=
  let n := nat_of_ascii c in
  if (97 <=? n)%nat && (n <=? 122)%nat then ascii_of_nat (n - 32) else c.

Fixpoint fold_name (s : string) : string :=
  match s with
  | EmptyString => EmptyString
  | String c r => String (fold_ascii c) (fold_name r)
  end.

(** A member [key] selects the struct field tagged [tag] when the names are
    equal, or equal after case folding (of the ASCII letters; Go folds
    the non-ASCII forms of K and S as well). *)
Definition key_matches (tag key : string) : bool :=
  String.eqb tag key || String.eqb (fold_name tag) (fold_name key).

(** Errors of [json.Unmarshal] are kept as their messages. *)
Definition err_eof : string := "unexpected end of JSON input".
Definition err_type (what field : string) : string :=
  "json: cannot unmarshal " +:+ what +:+ " into Go " +:+ field.

Definition kind_name (j : json) : string :=
  match j with
  | JNull => "null"
  | JBool _ => "bool"
  | JNumber _ => "number"
  | JString _ => "string"
  | JArray _ => "array"
  | JObject _ => "object"
  end.

(** The first error met is the one reported; decoding goes on after it. *)
Definition save_error (old new : option string) : option string :=
  match old with
  | Some e => Some e
  | None => new
  end.

(** [substr] occurs in [s], decided as [strings.Contains(s, substr)]
    does. *)
Fixpoint Contains (s substr : string) : bool :=
  String.prefix substr s ||
  match s with
  | EmptyString => false
  | String _ r => Contains r substr
  end.

End Json.

Import Json.

(* ===================================================================== *)
(** ** Package [mcpserver] *)
(* ===================================================================== *)

Module McpServer.

(** *** JSON-RPC structures *)

(** Go's [error] values are kept as their messages; [None] is [nil]. *)
Definition error : Type := option string.

Record RPCRequest := {
  req_JsonRPC : string;
  req_ID : Z;                      (* uint64 *)
  req_Method : string;
  req_Params : RawMessage
}.

Record RPCError := { Code : Z; Message : string }.

Record ToolSummary := { ts_Name : string; ts_Description : string }.

Record Resource := { res_Name : string; res_Type : string; res_Data : json }.

Record Prompt := { prompt_Name : string; prompt_Template : string }.

(** The dynamic values the server stores in an [interface{}] result. *)
Inductive any : Type :=
| AString (s : string)
| AStrings (l : list string)                      (* []string *)
| AToolSummaries (l : list ToolSummary)           (* []ToolSummary *)
| AStringMaps (l : list (list (string * string))) (* []map[string]string *)
| AMap (m : list (string * any))                  (* map[string]interface{} *)
| AResource (r : Resource)                        (* *Resource *)
| APrompt (p : Prompt)                            (* *Prompt *)
| ARaw (raw : RawMessage)                         (* json.RawMessage *)
| AJson (j : json).                               (* any other value *)

(** [interface{}]: [None] is the nil interface. *)
Definition iface : Type := option any.

Record RPCResponse := {
  resp_JsonRPC : string;
  resp_ID : Z;
  Result : iface;                  (* omitted from the wire when nil *)
  Error : option RPCError          (* omitted from the wire when nil *)
}.

Definition set_Result (r : RPCResponse) (v : iface) : RPCResponse :=
  {| resp_JsonRPC := resp_JsonRPC r; resp_ID := resp_ID r;
     Result := v; Error := Error r |}.

Definition set_Error (r : RPCResponse) (e : RPCError) : RPCResponse :=
  {| resp_JsonRPC := resp_JsonRPC r; resp_ID := resp_ID r;
     Result := Result r; Error := Some e |}.

(** *** Tools *)

(** A handler is taken as a function of its arguments: what it does
    besides returning is not followed. *)
Record Tool := {
  tool_Name : string;
  tool_Description : string;
  Handler : RawMessage -> iface * error
}.

(** *** The state of the package: its four global maps *)

Record Server := {
  Methods : gmap string bool;
  toolRegistry : gmap string Tool;
  resourceRegistry : gmap string Resource;
  promptRegistry : gmap string Prompt
}.

(** The ten names of the method table. *)
Definition method_names : list string :=
  [ "tools.run"; "tools.list"; "resources.get"; "resources.list";
    "prompts.get"; "prompts.list"; "server.info"; "system.describe";
    "system.listMethods"; "system.version" ].

(** [var Methods = map[string]bool{...}]: every method starts enabled. *)
Definition initial_Methods : gmap string bool :=
  list_to_map ((fun m => (m, true)) <$> method_names).

Definition initial : Server :=
  {| Methods := initial_Methods; toolRegistry := ∅;
     resourceRegistry := ∅; promptRegistry := ∅ |}.

(** *** The method table *)

Definition IsMethodEnabled (M : gmap string bool) (method : string) : bool :=
  match M !! method with
  | Some enabled => enabled
  | None => false
  end.

Definition SetMethodEnabled (method : string) (enabled : bool)
    (M : gmap string bool) : gmap string bool :=
  match M !! method with
  | Some _ => <[method := enabled]> M
  | None => M
  end.

Definition ListEnabledMethods (M : gmap string bool) : list string :=
  fst <$> filter (fun kv => snd kv = true) (map_to_list M).

(** *** Registries *)

Definition RegisterTool (tool : Tool) (reg : gmap string Tool) : gmap string Tool :=
  <[tool_Name tool := tool]> reg.

Definition ListTools (reg : gmap string Tool) : list ToolSummary :=
  (fun kv => {| ts_Name := tool_Name (snd kv);
                ts_Description := tool_Description (snd kv) |})
    <$> map_to_list reg.

Definition CallToolByName (reg : gmap string Tool) (name : string)
    (args : RawMessage) : iface * error :=
  match reg !! name with
  | Some tool => Handler tool args
  | None => (None, Some ("tool not found: " +:+ name))
  end.

Definition RegisterResource (r : Resource) (reg : gmap string Resource)
    : gmap string Resource :=
  <[res_Name r := r]> reg.

Definition GetResource (reg : gmap string Resource) (name : string)
    : option Resource * error :=
  match reg !! name with
  | Some r => (Some r, None)
  | None => (None, Some ("resource not found: " +:+ name))
  end.

Definition ListResources (reg : gmap string Resource)
    : list (list (string * string)) :=
  (fun kv => [("name", res_Name (snd kv)); ("type", res_Type (snd kv))])
    <$> map_to_list reg.

Definition RegisterPrompt (p : Prompt) (reg : gmap string Prompt)
    : gmap string Prompt :=
  <[prompt_Name p := p]> reg.

Definition GetPrompt (reg : gmap string Prompt) (name : string)
    : option Prompt * error :=
  match reg !! name with
  | Some p => (Some p, None)
  | None => (None, Some ("prompt not found: " +:+ name))
  end.

Definition ListPrompts (reg : gmap string Prompt) : list string :=
  fst <$> map_to_list reg.

Definition listTools (reg : gmap string Tool) : any :=
  AMap [("tools", AToolSummaries (ListTools reg))].

(** *** Decoding the parameter payloads

    [json.Unmarshal(req.Params, &params)] for the two anonymous structs of
    the handlers.  [params] starts zero-valued; the decoder stores member by
    member, keeps the first type error and goes on, so [params] may be
    partly filled when an error is returned. *)

Record ToolRunParams := { Name : string; Arguments : RawMessage }.

Definition zero_ToolRunParams : ToolRunParams :=
  {| Name := ""; Arguments := None |}.

(** Storing a JSON value into a Go [string] field. *)
Definition store_string (field : string) (v : json) (cur : string)
    : string * error :=
  match v with
  | JString s => (s, None)
  | JNull => (cur, None)
  | _ => (cur, Some (err_type (kind_name v) ("struct field " +:+ field +:+ " of type string")))
  end.

Fixpoint unmarshal_tool_run_fields (fields : list (string * json))
    (p : ToolRunParams) (e : error) : ToolRunParams * error :=
  match fields with
  | [] => (p, e)
  | (k, v) :: rest =>
      if key_matches "name" k then
        let '(n, e') := store_string "name" v (Name p) in
        unmarshal_tool_run_fields rest
          {| Name := n; Arguments := Arguments p |} (save_error e e')
      else if key_matches "arguments" k then
        unmarshal_tool_run_fields rest
          {| Name := Name p; Arguments := Some v |} e
      else unmarshal_tool_run_fields rest p e
  end.

(** [struct { Name string `json:"name"`; Arguments json.RawMessage `json:"arguments"` }] *)
Definition unmarshal_tool_run (raw : RawMessage) : ToolRunParams * error :=
  match raw with
  | None => (zero_ToolRunParams, Some err_eof)
  | Some JNull => (zero_ToolRunParams, None)
  | Some (JObject fields) =>
      unmarshal_tool_run_fields fields zero_ToolRunParams None
  | Some v =>
      (zero_ToolRunParams, Some (err_type (kind_name v) "value of type struct"))
  end.

Fixpoint unmarshal_name_fields (fields : list (string * json))
    (name : string) (e : error) : string * error :=
  match fields with
  | [] => (name, e)
  | (k, v) :: rest =>
      if key_matches "name" k then
        let '(n, e') := store_string "name" v name in
        unmarshal_name_fields rest n (save_error e e')
      else unmarshal_name_fields rest name e
  end.

(** [struct { Name string `json:"name"` }] *)
Definition unmarshal_name (raw : RawMessage) : string * error :=
  match raw with
  | None => ("", Some err_eof)
  | Some JNull => ("", None)
  | Some (JObject fields) => unmarshal_name_fields fields "" None
  | Some v => ("", Some (err_type (kind_name v) "value of type struct"))
  end.

(** *** Dispatch: the [switch req.Method] of the two handlers *)

Definition new_response (req : RPCRequest) : RPCResponse :=
  {| resp_JsonRPC := "2.0"; resp_ID := req_ID req;
     Result := None; Error := None |}.

Definition invalid_params : RPCError :=
  {| Code := -32602; Message := "Invalid params" |}.

Definition method_not_found : RPCError :=
  {| Code := -32601; Message := "Method not found" |}.

(** [if result, err := CallToolByName(...); err != nil {...} else {...}] *)
Definition run_tool (s : Server) (resp : RPCResponse) (p : ToolRunParams)
    : RPCResponse :=
  match CallToolByName (toolRegistry s) (Name p) (Arguments p) with
  | (_, Some e) => set_Error resp {| Code := -32601; Message := e |}
  | (result, None) => set_Result resp result
  end.

Definition get_resource (s : Server) (resp : RPCResponse) (name : string)
    : RPCResponse :=
  match GetResource (resourceRegistry s) name with
  | (_, Some e) => set_Error resp {| Code := -32601; Message := e |}
  | (Some r, None) => set_Result resp (Some (AResource r))
  | (None, None) => set_Result resp None
  end.

Definition get_prompt (s : Server) (resp : RPCResponse) (name : string)
    : RPCResponse :=
  match GetPrompt (promptRegistry s) name with
  | (_, Some e) => set_Error resp {| Code := -32601; Message := e |}
  | (Some p, None) => set_Result resp (Some (APrompt p))
  | (None, None) => set_Result resp None
  end.

(** The cases the two handlers share word for word: every method but
    ["tools.run"]. *)
Definition dispatch_common (s : Server) (req : RPCRequest)
    (resp : RPCResponse) : RPCResponse :=
  let m := req_Method req in
  if (m =? "tools.list")%string then
    set_Result resp (Some (listTools (toolRegistry s)))
  else if (m =? "resources.get")%string then
    match unmarshal_name (req_Params req) with
    | (_, Some _) => set_Error resp invalid_params
    | (name, None) => get_resource s resp name
    end
  else if (m =? "resources.list")%string then
    set_Result resp
      (Some (AMap [("resources", AStringMaps (ListResources (resourceRegistry s)))]))
  else if (m =? "prompts.get")%string then
    match unmarshal_name (req_Params req) with
    | (_, Some _) => set_Error resp invalid_params
    | (name, None) => get_prompt s resp name
    end
  else if (m =? "prompts.list")%string then
    set_Result resp
      (Some (AMap [("prompts", AStrings (ListPrompts (promptRegistry s)))]))
  else if (m =? "server.info")%string then
    set_Result resp
      (Some (AMap [("name", AString "MCP Server");
                   ("version", AString "1.0.0");
                   ("tools", AToolSummaries (ListTools (toolRegistry s)))]))
  else if (m =? "system.describe")%string then
    set_Result resp
      (Some (AMap [("description", AString "This is a JSON-RPC server for MCP.");
                   ("version", AString "1.0.0");
                   ("methods", AStrings (ListEnabledMethods (Methods s)))]))
  else if (m =? "system.listMethods")%string then
    set_Result resp (Some (AStrings (ListEnabledMethods (Methods s))))
  else if (m =? "system.version")%string then
    set_Result resp (Some (AString "2.0"))
  else
    set_Error resp method_not_found.

(** The switch of [httpHandler]. *)
Definition httpDispatch (s : Server) (req : RPCRequest) : RPCResponse :=
  let resp := new_response req in
  if (req_Method req =? "tools.run")%string then
    match unmarshal_tool_run (req_Params req) with
    | (_, Some _) => set_Error resp invalid_params
    | (params, None) => run_tool s resp params
    end
  else dispatch_common s req resp.

(** The switch of [wsHandler]: in the ["tools.run"] case the error of
    [json.Unmarshal] is dropped. *)
Definition wsDispatch (s : Server) (req : RPCRequest) : RPCResponse :=
  let resp := new_response req in
  if (req_Method req =? "tools.run")%string then
    let '(params, _) := unmarshal_tool_run (req_Params req) in
    run_tool s resp params
  else dispatch_common s req resp.

(** *** The two handlers *)

Inductive http_reply : Type :=
| HttpError (status : Z) (msg : string)    (* http.Error(w, err.Error(), 400) *)
| HttpJSON (resp : RPCResponse).           (* json.NewEncoder(w).Encode(resp) *)

(** [body] is the outcome of decoding the request body into an
    [RPCRequest]: the decoder's error, or the envelope. *)
Definition httpHandler (s : Server) (body : string + RPCRequest) : http_reply :=
  match body with
  | inl err => HttpError 400 err
  | inr req => HttpJSON (httpDispatch s req)
  end.

(** One turn of the WebSocket loop as the connection scripts it: what
    [conn.ReadJSON] yields, and whether the following [conn.WriteJSON]
    succeeds. *)
Record ws_turn := {
  read_result : string + RPCRequest;
  write_ok : bool
}.

Inductive ws_exit : Type :=
| ReadFailed      (* break; close(done) *)
| WriteFailed     (* return *)
| Waiting.        (* blocked in ReadJSON: the script is used up *)

(** The loop of [wsHandler]: the responses handed to [WriteJSON], in
    order, and how the loop was left. *)
Fixpoint wsHandler (s : Server) (conn : list ws_turn)
    : list RPCResponse * ws_exit :=
  match conn with
  | [] => ([], Waiting)
  | t :: rest =>
      match read_result t with
      | inl _ => ([], ReadFailed)
      | inr req =>
          let resp := wsDispatch s req in
          if write_ok t then
            let '(out, ex) := wsHandler s rest in (resp :: out, ex)
          else ([resp], WriteFailed)
      end
  end.

(** *** The operations of the package on its state

    Everything a program can do to a [Server] through the package:
    the four mutators and the two request handlers (which only read). *)

Inductive op : Type :=
| OpSetMethodEnabled (method : string) (enabled : bool)
| OpRegisterTool (tool : Tool)
| OpRegisterResource (r : Resource)
| OpRegisterPrompt (p : Prompt)
| OpHttp (body : string + RPCRequest)
| OpWs (conn : list ws_turn).

Definition step (s : Server) (o : op) : Server :=
  match o with
  | OpSetMethodEnabled m b =>
      {| Methods := SetMethodEnabled m b (Methods s);
         toolRegistry := toolRegistry s;
         resourceRegistry := resourceRegistry s;
         promptRegistry := promptRegistry s |}
  | OpRegisterTool t =>
      {| Methods := Methods s;
         toolRegistry := RegisterTool t (toolRegistry s);
         resourceRegistry := resourceRegistry s;
         promptRegistry := promptRegistry s |}
  | OpRegisterResource r =>
      {| Methods := Methods s;
         toolRegistry := toolRegistry s;
         resourceRegistry := RegisterResource r (resourceRegistry s);
         promptRegistry := promptRegistry s |}
  | OpRegisterPrompt p =>
      {| Methods := Methods s;
         toolRegistry := toolRegistry s;
         resourceRegistry := resourceRegistry s;
         promptRegistry := RegisterPrompt p (promptRegistry s) |}
  | OpHttp _ => s
  | OpWs _ => s
  end.

Definition run (ops : list op) : Server := fold_left step ops initial.

(** What the operation hands back to its caller over the wire. *)
Definition replies (s : Server) (o : op) : list RPCResponse :=
  match o with
  | OpHttp body =>
      match httpHandler s body with
      | HttpJSON resp => [resp]
      | HttpError _ _ => []
      end
  | OpWs conn => fst (wsHandler s conn)
  | _ => []
  end.

(** *** The two optional members of a response envelope *)

Definition populated_both (resp : RPCResponse) : Prop :=
  is_Some (Result resp) /\ is_Some (Error resp).

Definition populated_neither (resp : RPCResponse) : Prop :=
  Result resp = None /\ Error resp = None.

Definition exactly_one (resp : RPCResponse) : Prop :=
  (is_Some (Result resp) /\ Error resp = None) \/
  (Result resp = None /\ is_Some (Error resp)).

(** A ["tools.run"] that reaches a registered tool whose handler hands
    back a nil result with a nil error. *)
Definition silent_tool_run (s : Server) (p : ToolRunParams) : Prop :=
  exists tool, toolRegistry s !! Name p = Some tool /\
               Handler tool (Arguments p) = (None, None).

(** *** Sample tools and requests *)

(** A tool that returns its input unchanged. *)
Definition echo_tool : Tool :=
  {| tool_Name := "echo"; tool_Description := "Return the arguments";
     Handler := fun args => (Some (ARaw args), None) |}.

(** A tool with nothing to report: nil result, nil error. *)
Definition quiet_tool : Tool :=
  {| tool_Name := "quiet"; tool_Description := "Do the work, return nothing";
     Handler := fun _ => (None, None) |}.

(** A tool registered under the empty name. *)
Definition unnamed_tool : Tool :=
  {| tool_Name := ""; tool_Description := "Registered without a name";
     Handler := fun args => (Some (ARaw args), None) |}.

Definition request (id : Z) (method : string) (params : RawMessage)
    : RPCRequest :=
  {| req_JsonRPC := "2.0"; req_ID := id; req_Method := method;
     req_Params := params |}.

End McpServer.

(* ===================================================================== *)
(** ** Package [mcpclient] *)
(* ===================================================================== *)

Module McpClient.

Definition error : Type := option string.

(** *** JSON-RPC structures *)

(** [Params interface{}]: the caller's value, as the JSON tree
    [json.Marshal] makes of it ([nil] is [JNull]; a Go map is an object
    with its keys in sorted order). *)
Record rpcRequest := {
  JsonRPC : string;
  ID : Z;                          (* uint64 *)
  Method : string;
  Params : json
}.

Record rpcError := { Code : Z; Message : string }.

Record rpcResponse := {
  resp_JsonRPC : string;
  resp_ID : Z;
  Result : RawMessage;
  Error : option rpcError
}.

Record ServerInfoResp := {
  info_Name : string;
  info_Version : string;
  info_Tools : list string
}.

Record ServerListResp := { list_Tools : list (string * string) }.

Definition zero_ServerInfoResp : ServerInfoResp :=
  {| info_Name := ""; info_Version := ""; info_Tools := [] |}.

Definition zero_ServerListResp : ServerListResp := {| list_Tools := [] |}.

(** *** The network

    Every use of the network is an event answered by the environment;
    a client operation is a tree of such events. *)

Definition conn : Type := nat.           (* a dialled *websocket.Conn *)

(** What an event stream delivers: its bytes, then the read error that
    ends it ([io.EOF] when the server closes the stream). *)
Record sse_body := { body_data : string; body_err : string }.

Definition CloseMessage : Z := 8.
Definition CloseNormalClosure : Z := 1000.

Inductive netE : Type -> Type :=
(* http.DefaultClient.Do of the POST, then decoding the body: the error
   of Do, or the error of the decoder, or the response envelope *)
| HttpPost (url : string) (body : rpcRequest)
    : netE (string + (string + rpcResponse))
(* http.DefaultClient.Do of the GET of ListenSSE *)
| HttpGet (url : string) : netE (string + sse_body)
| WsDial (url : string) : netE (string + conn)
| WsWriteJSON (c : conn) (req : rpcRequest) : netE error
| WsReadJSON (c : conn) : netE (string + rpcResponse)
(* conn.WriteMessage(messageType, FormatCloseMessage(code, text)) *)
| WsWriteMessage (c : conn) (messageType : Z) (code : Z) (text : string)
    : netE error
| WsClose (c : conn) : netE error.

Inductive prog (R : Type) : Type :=
| Ret (r : R)
| Panic (msg : string)                  (* a run-time panic *)
| Vis {X : Type} (e : netE X) (k : X -> prog R).

Arguments Ret {R} r.
Arguments Panic {R} msg.
Arguments Vis {R X} e k.

Fixpoint bind {R T : Type} (p : prog R) (f : R -> prog T) : prog T :=
  match p with
  | Ret r => f r
  | Panic m => Panic m
  | Vis e k => Vis e (fun x => bind (k x) f)
  end.

Definition nil_deref : string :=
  "runtime error: invalid memory address or nil pointer dereference".

(** One event with the answer it got. *)
Inductive event : Type :=
| Ev {X : Type} (e : netE X) (answer : X).

(** The environment: the answer to the [n]-th event of a run. *)
Definition network : Type := nat -> forall X : Type, netE X -> X.

(** Running a tree against a network from event number [n] on: the
    events in order, and the value returned ([None] after a panic). *)
Fixpoint exec {R : Type} (net : network) (n : nat) (p : prog R)
    : list event * option R :=
  match p with
  | Ret r => ([], Some r)
  | Panic _ => ([], None)
  | Vis e k =>
      let a := net n _ e in
      let '(evs, r) := exec net (S n) (k a) in
      (Ev e a :: evs, r)
  end.

(** An operation that touches the network at no point. *)
Definition no_io {R : Type} (p : prog R) : Prop :=
  match p with
  | Vis _ _ => False
  | _ => True
  end.

(** The request ids a run put on the wire, in order. *)
Definition sent_id (ev : event) : list Z :=
  match ev with
  | Ev (HttpPost _ req) _ => [ID req]
  | Ev (WsWriteJSON _ req) _ => [ID req]
  | _ => []
  end.

Definition sent_ids (evs : list event) : list Z := concat (map sent_id evs).

(** *** The caller's [result interface{}]

    [json.Unmarshal(rpcResp.Result, result)] for a non-nil [result]:
    the value the pointer then holds, and the decoder's error. *)
Definition out_ptr (A : Type) : Type := RawMessage -> A * error.

(** [atomic.AddUint64(addr, delta)]: one indivisible read-modify-write;
    the new value, wrapping at 2^64. *)
Definition AddUint64 (v delta : Z) : Z := (v + delta) mod 2 ^ 64.

(** [fmt.Errorf("MCP Error %d: %s", code, message)] *)
Definition mcp_error (e : rpcError) : string :=
  "MCP Error " +:+ pretty (Code e) +:+ ": " +:+ Message e.

(** The tail both [Call]s share: from the decoded envelope to the
    value left in [result] and the error returned. *)
Definition finish {A : Type} (rpcResp : rpcResponse)
    (result : option (out_ptr A)) : option A * error :=
  match Error rpcResp with
  | Some e => (None, Some (mcp_error e))
  | None =>
      match result with
      | Some unmarshal =>
          let '(v, err) := unmarshal (Result rpcResp) in (Some v, err)
      | None => (None, None)
      end
  end.

(** [map[string]interface{}{"name": toolName, "arguments": args}] *)
Definition tool_call (toolName : string) (args : json) : json :=
  JObject [("arguments", args); ("name", JString toolName)].

(** *** Building a request

    A [context.Context] as the calls use it: the nil interface, or a
    context.  (A context that is cancelled reaches the code as an error
    of [Do], which the environment answers.) *)
Definition Context : Type := option unit.

(** [context.Background()] *)
Definition Background : Context := Some tt.

(** A request that was built. *)
Record Request := { rq_Method : string; rq_URL : string }.

Section Requests.

(** [url.Parse] of net/url: the error with which it rejects a URL,
    [None] when it accepts it. *)
Variable url_Parse : string -> error.

(** [http.NewRequestWithContext(ctx, method, url, body)] for the two
    methods the clients pass, "POST" and "GET", which are valid: a nil
    request and an error when the context is nil or the URL does not
    parse. *)
Definition NewRequestWithContext (ctx : Context) (method url : string)
    : option Request * error :=
  match ctx with
  | None => (None, Some "net/http: nil Context")
  | Some _ =>
      match url_Parse url with
      | Some err => (None, Some err)
      | None => (Some {| rq_Method := method; rq_URL := url |}, None)
      end
  end.

(** [http.NewRequest(method, url, body)] *)
Definition NewRequest (method url : string) : option Request * error :=
  NewRequestWithContext Background method url.

(** *** HTTPClient *)

Record HTTPClient := { URL : string; counter : Z }.

Definition NewHTTPClient (url : string) : HTTPClient :=
  {| URL := url; counter := 0 |}.

(** The error of [NewRequestWithContext] is dropped; on a nil request
    [req.Header.Set] panics, after the counter was incremented and
    before anything is sent. *)
Definition HTTPClient_Call {A : Type} (c : HTTPClient) (ctx : Context)
    (method : string) (args : json) (result : option (out_ptr A))
    : prog (HTTPClient * (option A * error)) :=
  let reqID := AddUint64 (counter c) 1 in
  let c := {| URL := URL c; counter := reqID |} in
  let reqBody :=
    {| JsonRPC := "2.0"; ID := reqID; Method := method; Params := args |} in
  match fst (NewRequestWithContext ctx "POST" (URL c)) with
  | None => Panic nil_deref
  | Some _ =>
      Vis (HttpPost (URL c) reqBody) (fun r =>
        match r with
        | inl err => Ret (c, (None, Some err))
        | inr (inl err) => Ret (c, (None, Some err))
        | inr (inr rpcResp) => Ret (c, finish rpcResp result)
        end)
  end.

Definition HTTPClient_CallTool {A : Type} (c : HTTPClient) (ctx : Context)
    (toolName : string) (args : json) (result : option (out_ptr A))
    : prog (HTTPClient * (option A * error)) :=
  HTTPClient_Call c ctx "tools.run" (tool_call toolName args) result.

Definition HTTPClient_ListenSSE (c : HTTPClient) : prog error :=
  Ret (Some "HTTP client does not support SSE").

Definition HTTPClient_Close (c : HTTPClient) : prog unit := Ret tt.

(** *** WSClient *)

Record WSClient := {
  ws_URL : string;
  ws_conn : option conn;           (* nil in a WSClient not made by NewWSClient *)
  ws_counter : Z
}.

Definition NewWSClient (url : string) : prog (option WSClient * error) :=
  Vis (WsDial url) (fun r =>
    match r with
    | inl err => Ret (None, Some err)
    | inr cn =>
        Ret (Some {| ws_URL := url; ws_conn := Some cn; ws_counter := 0 |}, None)
    end).

Definition WSClient_Call {A : Type} (c : WSClient) (method : string)
    (args : json) (result : option (out_ptr A))
    : prog (WSClient * (option A * error)) :=
  let reqID := AddUint64 (ws_counter c) 1 in
  let c := {| ws_URL := ws_URL c; ws_conn := ws_conn c; ws_counter := reqID |} in
  let req :=
    {| JsonRPC := "2.0"; ID := reqID; Method := method; Params := args |} in
  match ws_conn c with
  | None => Panic nil_deref
  | Some cn =>
      Vis (WsWriteJSON cn req) (fun w =>
        match w with
        | Some err => Ret (c, (None, Some err))
        | None =>
            Vis (WsReadJSON cn) (fun r =>
              match r with
              | inl err => Ret (c, (None, Some err))
              | inr rpcResp => Ret (c, finish rpcResp result)
              end)
        end)
  end.

Definition WSClient_CallTool {A : Type} (c : WSClient)
    (toolName : string) (args : json) (result : option (out_ptr A))
    : prog (WSClient * (option A * error)) :=
  WSClient_Call c "tools.run" (tool_call toolName args) result.

Definition WSClient_ListenSSE (c : WSClient) : prog error :=
  Ret (Some "WebSocket client does not support SSE").

Definition WSClient_Close (c : WSClient) : prog unit :=
  match ws_conn c with
  | Some cn =>
      Vis (WsWriteMessage cn CloseMessage CloseNormalClosure "bye") (fun _ =>
        Vis (WsClose cn) (fun _ => Ret tt))
  | None => Ret tt
  end.

(** *** SSEClient *)

Record SSEClient := { sse_URL : string }.

Definition NewSSEClient (url : string) : SSEClient := {| sse_URL := url |}.

Definition SSEClient_Call {A : Type} (c : SSEClient) (method : string)
    (args : json) (result : option (out_ptr A)) : prog (option A * error) :=
  Ret (None, Some "SSE client does not support RPC calls").

Definition SSEClient_CallTool {A : Type} (c : SSEClient) (toolName : string)
    (args : json) (result : option (out_ptr A)) : prog (option A * error) :=
  SSEClient_Call c toolName args result.

Definition newline : ascii := ascii_of_nat 10.

(** [reader.ReadBytes('\n')]: the bytes up to and including the first
    newline, and the reader behind them; [None] is the read error at the
    end of the stream (the bytes returned with it are not looked at). *)
Fixpoint ReadBytes (reader : string) : option (string * string) :=
  match reader with
  | EmptyString => None
  | String c rest =>
      if Ascii.eqb c newline then Some (String c EmptyString, rest)
      else match ReadBytes rest with
           | Some (line, reader') => Some (String c line, reader')
           | None => None
           end
  end.

(** The white space of [bytes.TrimSpace], which is that of
    [unicode.IsSpace].  Among the ASCII bytes: tab, newline, vertical
    tab, form feed, carriage return, space. *)
Definition is_space (c : ascii) : bool :=
  let n := nat_of_ascii c in
  ((9 <=? n)%nat && (n <=? 13)%nat) || (n =? 32)%nat.

(** Above U+007F, in UTF-8: U+0085 and U+00A0, of two bytes ... *)
Definition is_space2 (a b : ascii) : bool :=
  (nat_of_ascii a =? 194)%nat &&
  ((nat_of_ascii b =? 133)%nat || (nat_of_ascii b =? 160)%nat).

(** ... and U+1680, U+2000 to U+200A, U+2028, U+2029, U+202F, U+205F
    and U+3000, of three bytes. *)
Definition is_space3 (a b c : ascii) : bool :=
  let x := nat_of_ascii a in
  let y := nat_of_ascii b in
  let z := nat_of_ascii c in
  ((x =? 225)%nat && ((y =? 154)%nat && (z =? 128)%nat))
  || ((x =? 226)%nat &&
      (((y =? 128)%nat &&
        (((128 <=? z)%nat && (z <=? 138)%nat)
         || (z =? 168)%nat || (z =? 169)%nat || (z =? 175)%nat))
       || ((y =? 129)%nat && (z =? 159)%nat)))
  || ((x =? 227)%nat && ((y =? 128)%nat && (z =? 128)%nat)).

(** The white space at the start goes, rune by rune. *)
Fixpoint trim_left (s : string) : string :=
  match s with
  | EmptyString => EmptyString
  | String a r =>
      if is_space a then trim_left r
      else
        match r with
        | String b r2 =>
            if is_space2 a b then trim_left r2
            else
              match r2 with
              | String c r3 => if is_space3 a b c then trim_left r3 else s
              | EmptyString => s
              end
        | EmptyString => s
        end
  end.

(** The white space at the end goes, rune by rune: what is left of the
    string behind its first byte is trimmed, and the first byte goes
    too when, alone or with the one or two bytes left behind it, it is
    white space. *)
Fixpoint trim_right (s : string) : string :=
  match s with
  | EmptyString => EmptyString
  | String a r =>
      match trim_right r with
      | EmptyString => if is_space a then EmptyString else String a EmptyString
      | String b EmptyString =>
          if is_space2 a b then EmptyString else String a (String b EmptyString)
      | String b (String c EmptyString) =>
          if is_space3 a b c then EmptyString
          else String a (String b (String c EmptyString))
      | r' => String a r'
      end
  end.

(** A string of ASCII bytes. *)
Fixpoint ascii_only (s : string) : bool :=
  match s with
  | EmptyString => true
  | String c r => (nat_of_ascii c <? 128)%nat && ascii_only r
  end.

(** A string whose last byte is an ASCII byte that is not white
    space. *)
Fixpoint ends_plain (s : string) : bool :=
  match s with
  | EmptyString => false
  | String c EmptyString => negb (is_space c) && (nat_of_ascii c <? 128)%nat
  | String _ r => ends_plain r
  end.

Definition TrimSpace (s : string) : string := trim_right (trim_left s).

(** [bytes.HasPrefix(line, prefix)] *)
Definition HasPrefix (line pre : string) : bool := String.prefix pre line.

(** [line[n:]] for [n <= len(line)] *)
Fixpoint slice_from (n : nat) (line : string) : string :=
  match n, line with
  | O, _ => line
  | S n', String _ r => slice_from n' r
  | S _, EmptyString => EmptyString
  end.

(** One call [handler(eventName, data)]. *)
Definition handler_call : Type := (string * string)%type.

(** The body of the [for] loop of [ListenSSE] for one line that was
    read: the event name after it, and the calls of the handler. *)
Definition on_line (eventName : string) (line : string)
    : string * list handler_call :=
  let line := TrimSpace line in
  if (String.length line =? 0)%nat then (eventName, [])
  else if HasPrefix line "event: " then (slice_from 7 line, [])
  else if HasPrefix line "data: " then
    (eventName, [(eventName, slice_from 6 line)])
  else (eventName, []).

(** The [for] loop of [ListenSSE] up to the read error that ends it: the
    calls of the handler, in order.  Every turn takes at least one byte
    off the reader, so [fuel] above the length of the stream is never
    used up; [None] is fuel used up. *)
Fixpoint listen_loop (fuel : nat) (reader : string) (eventName : string)
    : option (list handler_call) :=
  match fuel with
  | O => None
  | S fuel' =>
      match ReadBytes reader with
      | None => Some []
      | Some (line, reader') =>
          let '(eventName', calls) := on_line eventName line in
          match listen_loop fuel' reader' eventName' with
          | Some more => Some (calls ++ more)
          | None => None
          end
      end
  end.

Definition handler_calls (data : string) : list handler_call :=
  default [] (listen_loop (S (String.length data)) data "").

(** [ListenSSE] on a stream that ends, with a handler that is not nil
    and returns: what the handler was called with, and the error
    returned.  The error of [NewRequest] is dropped; [Do] of a nil
    request panics before anything is sent. *)
Definition SSEClient_ListenSSE (c : SSEClient)
    : prog (list handler_call * error) :=
  match fst (NewRequest "GET" (sse_URL c)) with
  | None => Panic nil_deref
  | Some _ =>
      Vis (HttpGet (sse_URL c)) (fun r =>
        match r with
        | inl err => Ret ([], Some err)
        | inr body =>
            Ret (handler_calls (body_data body), Some (body_err body))
        end)
  end.

Definition SSEClient_Close (c : SSEClient) : prog unit := Ret tt.

(** *** UnifiedClient *)

Record UnifiedClient := {
  mode : string;                   (* "http", "ws", "sse" *)
  http : option HTTPClient;
  ws : option WSClient;
  sse : option SSEClient
}.

Definition NewUnifiedClientHTTP (url : string) : UnifiedClient :=
  {| mode := "http"; http := Some (NewHTTPClient url); ws := None; sse := None |}.

Definition NewUnifiedClientWS (url : string)
    : prog (option UnifiedClient * error) :=
  bind (NewWSClient url) (fun r =>
    match r with
    | (_, Some err) => Ret (None, Some err)
    | (w, None) =>
        Ret (Some {| mode := "ws"; http := None; ws := w; sse := None |}, None)
    end).

Definition NewUnifiedClientSSE (url : string) : UnifiedClient :=
  {| mode := "sse"; http := None; ws := None; sse := Some (NewSSEClient url) |}.

Definition set_http (c : UnifiedClient) (h : HTTPClient) : UnifiedClient :=
  {| mode := mode c; http := Some h; ws := ws c; sse := sse c |}.

Definition set_ws (c : UnifiedClient) (w : WSClient) : UnifiedClient :=
  {| mode := mode c; http := http c; ws := Some w; sse := sse c |}.

Definition via_http {R : Type} (c : UnifiedClient)
    (f : HTTPClient -> prog (HTTPClient * R)) : prog (UnifiedClient * R) :=
  match http c with
  | None => Panic nil_deref
  | Some h => bind (f h) (fun hr => Ret (set_http c (fst hr), snd hr))
  end.

Definition via_ws {R : Type} (c : UnifiedClient)
    (f : WSClient -> prog (WSClient * R)) : prog (UnifiedClient * R) :=
  match ws c with
  | None => Panic nil_deref
  | Some w => bind (f w) (fun wr => Ret (set_ws c (fst wr), snd wr))
  end.

Definition CallTool {A : Type} (c : UnifiedClient) (ctx : Context)
    (toolName : string) (args : json) (result : option (out_ptr A))
    : prog (UnifiedClient * (option A * error)) :=
  if (mode c =? "http")%string then
    via_http c (fun h => HTTPClient_CallTool h ctx toolName args result)
  else if (mode c =? "ws")%string then
    via_ws c (fun w => WSClient_CallTool w toolName args result)
  else if (mode c =? "sse")%string then
    Ret (c, (None, Some "SSE client does not support RPC calls"))
  else Ret (c, (None, Some "unknown client mode")).

Definition Call {A : Type} (c : UnifiedClient) (ctx : Context)
    (method : string) (args : json) (result : option (out_ptr A))
    : prog (UnifiedClient * (option A * error)) :=
  if (mode c =? "http")%string then
    via_http c (fun h => HTTPClient_Call h ctx method args result)
  else if (mode c =? "ws")%string then
    via_ws c (fun w => WSClient_Call w method args result)
  else if (mode c =? "sse")%string then
    Ret (c, (None, Some "SSE client does not support RPC calls"))
  else Ret (c, (None, Some "unknown client mode")).

Section Introspection.

(** [json.Unmarshal] into the two response structs, from their zero
    values. *)
Variable unmarshal_ServerInfoResp : out_ptr ServerInfoResp.
Variable unmarshal_ServerListResp : out_ptr ServerListResp.

(** [return &out, err]: [out] is zero-valued unless the decoder ran. *)
Definition returned {A : Type} (zero : A) (r : option A * error)
    : option A * error :=
  (Some (default zero (fst r)), snd r).

Definition ServerInfo (c : UnifiedClient) (ctx : Context)
    : prog (UnifiedClient * (option ServerInfoResp * error)) :=
  if (mode c =? "http")%string then
    via_http c (fun h =>
      bind (HTTPClient_Call h ctx "server.info" (JObject [])
              (Some unmarshal_ServerInfoResp))
        (fun hr => Ret (fst hr, returned zero_ServerInfoResp (snd hr))))
  else if (mode c =? "ws")%string then
    via_ws c (fun w =>
      bind (WSClient_Call w "server.info" (JObject []) (Some unmarshal_ServerInfoResp))
        (fun wr => Ret (fst wr, returned zero_ServerInfoResp (snd wr))))
  else if (mode c =? "sse")%string then
    Ret (c, (None, Some "SSE client does not support RPC calls"))
  else Ret (c, (None, Some "unknown client mode")).

Definition ServerToolsList (c : UnifiedClient) (ctx : Context)
    : prog (UnifiedClient * (option ServerListResp * error)) :=
  if (mode c =? "http")%string then
    via_http c (fun h =>
      bind (HTTPClient_Call h ctx "tools.list" (JObject [])
              (Some unmarshal_ServerListResp))
        (fun hr => Ret (fst hr, returned zero_ServerListResp (snd hr))))
  else if (mode c =? "ws")%string then
    via_ws c (fun w =>
      bind (WSClient_Call w "tools.list" (JObject []) (Some unmarshal_ServerListResp))
        (fun wr => Ret (fst wr, returned zero_ServerListResp (snd wr))))
  else if (mode c =? "sse")%string then
    Ret (c, (None, Some "SSE client does not support RPC calls"))
  else Ret (c, (None, Some "unknown client mode")).

End Introspection.

Definition WatchEvents (c : UnifiedClient)
    : prog (list handler_call * error) :=
  if (mode c =? "http")%string then
    Ret ([], Some "HTTP client does not support SSE")
  else if (mode c =? "ws")%string then
    Ret ([], Some "WebSocket client does not support SSE")
  else if (mode c =? "sse")%string then
    match sse c with
    | None => Panic nil_deref
    | Some s => SSEClient_ListenSSE s
    end
  else Ret ([], Some "unknown client mode").

Definition Close (c : UnifiedClient) : prog unit :=
  if (mode c =? "http")%string then
    match http c with
    | None => Ret tt               (* Close of HTTPClient reads no field *)
    | Some h => HTTPClient_Close h
    end
  else if (mode c =? "ws")%string then
    match ws c with
    | None => Panic nil_deref
    | Some w => WSClient_Close w
    end
  else if (mode c =? "sse")%string then
    match sse c with
    | None => Ret tt               (* Close of SSEClient reads no field *)
    | Some s => SSEClient_Close s
    end
  else Ret tt.

(** *** Callers of one client

    A [Call] touches the counter once, by its [AddUint64], whatever the
    network does afterwards.  For the counter a run of concurrent callers
    is therefore the sequence of these indivisible steps in the order
    they take effect; [schedule] names the caller of each step. *)
Fixpoint issue_ids (counter : Z) (schedule : list nat) : list (nat * Z) :=
  match schedule with
  | [] => []
  | caller :: rest =>
      let reqID := AddUint64 counter 1 in
      (caller, reqID) :: issue_ids reqID rest
  end.

(** Successive calls on one HTTP client, under one context. *)
Fixpoint http_calls (c : HTTPClient) (ctx : Context)
    (calls : list (string * json)) : prog HTTPClient :=
  match calls with
  | [] => Ret c
  | (method, args) :: rest =>
      bind (HTTPClient_Call (A := unit) c ctx method args None)
        (fun cr => http_calls (fst cr) ctx rest)
  end.

(** Successive calls on one WebSocket client. *)
Fixpoint ws_calls (c : WSClient) (calls : list (string * json))
    : prog WSClient :=
  match calls with
  | [] => Ret c
  | (method, args) :: rest =>
      bind (WSClient_Call (A := unit) c method args None)
        (fun cr => ws_calls (fst cr) rest)
  end.

End Requests.

(** A parser for the examples: like [url.Parse] it rejects a URL that
    holds an ASCII control character; it accepts every other URL. *)
Fixpoint has_ctl (s : string) : bool :=
  match s with
  | EmptyString => false
  | String c r =>
      let n := nat_of_ascii c in
      (n <? 32)%nat || (n =? 127)%nat || has_ctl r
  end.

Definition parse_no_ctl (url : string) : error :=
  if has_ctl url then Some "net/url: invalid control character in URL"
  else None.

(** *** Streams as lines *)

Fixpoint has_newline (s : string) : bool :=
  match s with
  | EmptyString => false
  | String c r => Ascii.eqb c newline || has_newline r
  end.

(** The stream made of the given lines, each ended by a newline. *)
Fixpoint join_lines (lines : list string) : string :=
  match lines with
  | [] => ""
  | l :: rest => l +:+ String newline (join_lines rest)
  end.

(** The loop body applied to the lines one after the other, the event
    name carried from each to the next. *)
Fixpoint on_lines (eventName : string) (lines : list string)
    : list handler_call :=
  match lines with
  | [] => []
  | l :: rest =>
      let '(eventName', calls) := on_line eventName l in
      calls ++ on_lines eventName' rest
  end.

(** A double quote, and the two payloads of the example: the JSON
    objects with the one member a, of value 1 and of value 2. *)
Definition dquote : string := String (ascii_of_nat 34) "".
Definition payload_a1 : string := "{" +:+ dquote +:+ "a" +:+ dquote +:+ ":1}".
Definition payload_a2 : string := "{" +:+ dquote +:+ "a" +:+ dquote +:+ ":2}".

(** A network on which every GET is answered by the given stream. *)
Definition serving (body : sse_body) : network :=
  fun _ X e =>
    match e in netE T return T with
    | HttpPost _ _ => inl "connection refused"
    | HttpGet _ => inr body
    | WsDial _ => inl "connection refused"
    | WsWriteJSON _ _ => Some "connection closed"
    | WsReadJSON _ => inl "connection closed"
    | WsWriteMessage _ _ _ _ => Some "connection closed"
    | WsClose _ => None
    end.

End McpClient.

(* ===================================================================== *)
(** ** The registries under concurrent goroutines *)
(* ===================================================================== *)

Module Locking.

(** What a registry function does to the lock and to the map of its
    registry.  A Go map access is not indivisible: it begins and it ends,
    and other goroutines may run in between. *)
Inductive action : Type :=
| Lock | Unlock            (* sync.RWMutex, writer side *)
| RLock | RUnlock          (* sync.RWMutex, reader side *)
| WriteBegin | WriteEnd    (* registry[name] = value *)
| ReadBegin | ReadEnd.     (* registry[name], or range registry *)

#[global] Instance action_eq_dec : EqDecision action.
Proof. solve_decision. Defined.

(** resource.go *)
Definition RegisterResource : list action := [Lock; WriteBegin; WriteEnd; Unlock].
Definition GetResource : list action := [RLock; ReadBegin; ReadEnd; RUnlock].
Definition ListResources : list action := [RLock; ReadBegin; ReadEnd; RUnlock].

(** prompt.go *)
Definition RegisterPrompt : list action := [Lock; WriteBegin; WriteEnd; Unlock].
Definition GetPrompt : list action := [RLock; ReadBegin; ReadEnd; RUnlock].
Definition ListPrompts : list action := [RLock; ReadBegin; ReadEnd; RUnlock].

(** The tool registry: no lock is declared and none is taken. *)
Definition RegisterTool : list action := [WriteBegin; WriteEnd].
Definition ListTools : list action := [ReadBegin; ReadEnd].
Definition CallToolByName : list action := [ReadBegin; ReadEnd].

Definition resource_functions : list (list action) :=
  [RegisterResource; GetResource; ListResources].
Definition prompt_functions : list (list action) :=
  [RegisterPrompt; GetPrompt; ListPrompts].
Definition tool_functions : list (list action) :=
  [RegisterTool; ListTools; CallToolByName].

(** One registry with the goroutines at work on it: the lock, the map
    accesses under way, and what each goroutine has left to do. *)
Record state := {
  writer : bool;                   (* the lock is held for writing *)
  readers : nat;                   (* how many hold it for reading *)
  writing : nat;                   (* map writes under way *)
  reading : nat;                   (* map reads under way *)
  threads : list (list action)
}.

Definition start (fs : list (list action)) : state :=
  {| writer := false; readers := 0; writing := 0; reading := 0; threads := fs |}.

(** Goroutine [i] takes its next action; [None] when it has none left or
    is blocked on the lock. *)
Definition step (st : state) (i : nat) : option state :=
  match threads st !! i with
  | Some (a :: rest) =>
      let ts := <[i := rest]> (threads st) in
      match a with
      | Lock =>
          if writer st || (0 <? readers st)%nat then None
          else Some {| writer := true; readers := readers st;
                       writing := writing st; reading := reading st; threads := ts |}
      | Unlock =>
          Some {| writer := false; readers := readers st;
                  writing := writing st; reading := reading st; threads := ts |}
      | RLock =>
          if writer st then None
          else Some {| writer := writer st; readers := S (readers st);
                       writing := writing st; reading := reading st; threads := ts |}
      | RUnlock =>
          Some {| writer := writer st; readers := pred (readers st);
                  writing := writing st; reading := reading st; threads := ts |}
      | WriteBegin =>
          Some {| writer := writer st; readers := readers st;
                  writing := S (writing st); reading := reading st; threads := ts |}
      | WriteEnd =>
          Some {| writer := writer st; readers := readers st;
                  writing := pred (writing st); reading := reading st; threads := ts |}
      | ReadBegin =>
          Some {| writer := writer st; readers := readers st;
                  writing := writing st; reading := S (reading st); threads := ts |}
      | ReadEnd =>
          Some {| writer := writer st; readers := readers st;
                  writing := writing st; reading := pred (reading st); threads := ts |}
      end
  | _ => None
  end.

(** A schedule names the goroutine of each successive step. *)
Fixpoint exec (st : state) (schedule : list nat) : option state :=
  match schedule with
  | [] => Some st
  | i :: rest =>
      match step st i with
      | Some st' => exec st' rest
      | None => None
      end
  end.

(** A read of the map is under way while a write of it is: the reader
    may see an entry that is only partly written. *)
Definition torn_read (st : state) : bool :=
  (0 <? reading st)%nat && (0 <? writing st)%nat.

(** Where a goroutine stands, read off what it has left to do. *)
Definition first_of (a b : action) (t : list action) : option action :=
  head (filter (fun x => x = a \/ x = b) t).

Definition holds_lock (t : list action) : nat :=
  match first_of Lock Unlock t with Some Unlock => 1 | _ => 0 end.
Definition holds_rlock (t : list action) : nat :=
  match first_of RLock RUnlock t with Some RUnlock => 1 | _ => 0 end.
Definition in_write (t : list action) : nat :=
  match first_of WriteBegin WriteEnd t with Some WriteEnd => 1 | _ => 0 end.
Definition in_read (t : list action) : nat :=
  match first_of ReadBegin ReadEnd t with Some ReadEnd => 1 | _ => 0 end.

Fixpoint total (f : list action -> nat) (ts : list (list action)) : nat :=
  match ts with
  | [] => 0
  | t :: rest => f t + total f rest
  end.

(** What a goroutine inside a function of the resource or the prompt
    registry can have left to do. *)
Definition guarded_suffixes : list (list action) :=
  [ [Lock; WriteBegin; WriteEnd; Unlock];
    [WriteBegin; WriteEnd; Unlock];
    [WriteEnd; Unlock];
    [Unlock];
    [RLock; ReadBegin; ReadEnd; RUnlock];
    [ReadBegin; ReadEnd; RUnlock];
    [ReadEnd; RUnlock];
    [RUnlock];
    [] ].

(** The lock and the counters of accesses under way agree with where
    the goroutines stand. *)
Record consistent (st : state) : Prop := {
  c_threads : Forall (fun t => t ∈ guarded_suffixes) (threads st);
  c_writer : total holds_lock (threads st) = if writer st then 1%nat else 0%nat;
  c_readers : total holds_rlock (threads st) = readers st;
  c_writing : total in_write (threads st) = writing st;
  c_reading : total in_read (threads st) = reading st;
  c_excl : writer st = true -> readers st = 0%nat
}.

End Locking.

(* ===================================================================== *)
(** ** Runs of the server, and the demonstration tools *)
(* ===================================================================== *)

Module ServerRuns.

Import McpServer.

(** A turn of a WebSocket connection on which a request is read and its
    response is written. *)
Definition turn_ok (t : ws_turn) : bool :=
  match read_result t with
  | inr _ => write_ok t
  | inl _ => false
  end.

(** The requests a connection script delivers, in order. *)
Definition requests (conn : list ws_turn) : list RPCRequest :=
  omap (fun t => match read_result t with
                 | inr req => Some req
                 | inl _ => None
                 end) conn.

(** The descriptors a sequence of operations registers, in order. *)
Definition registered_tools (ops : list op) : list Tool :=
  omap (fun o => match o with OpRegisterTool t => Some t | _ => None end) ops.

Definition registered_resources (ops : list op) : list Resource :=
  omap (fun o => match o with OpRegisterResource r => Some r | _ => None end) ops.

Definition registered_prompts (ops : list op) : list Prompt :=
  omap (fun o => match o with OpRegisterPrompt p => Some p | _ => None end) ops.

(** The value of member [key] in one entry of [ListResources]. *)
Definition entry_get (key : string) (entry : list (string * string))
    : option string :=
  snd <$> head (filter (fun kv => fst kv = key) entry).

(** *** The geocode and route tools of [testTools]

    ([poi_search], the third tool, computes its coordinates in floating
    point and is left out.) *)

Record GeocodeToolInput := { Address : string; City : string }.

Record RouteToolInput := {
  Origin : string;
  Destination : string;
  Mode : string
}.

Fixpoint unmarshal_geocode_fields (fields : list (string * json))
    (input : GeocodeToolInput) (e : error) : GeocodeToolInput * error :=
  match fields with
  | [] => (input, e)
  | (k, v) :: rest =>
      if key_matches "address" k then
        let '(a, e') := store_string "address" v (Address input) in
        unmarshal_geocode_fields rest
          {| Address := a; City := City input |} (save_error e e')
      else if key_matches "city" k then
        let '(c, e') := store_string "city" v (City input) in
        unmarshal_geocode_fields rest
          {| Address := Address input; City := c |} (save_error e e')
      else unmarshal_geocode_fields rest input e
  end.

Definition zero_GeocodeToolInput : GeocodeToolInput :=
  {| Address := ""; City := "" |}.

(** [json.Unmarshal(args, &input)] for [var input GeocodeToolInput] *)
Definition unmarshal_geocode (raw : RawMessage) : GeocodeToolInput * error :=
  match raw with
  | None => (zero_GeocodeToolInput, Some err_eof)
  | Some JNull => (zero_GeocodeToolInput, None)
  | Some (JObject fields) =>
      unmarshal_geocode_fields fields zero_GeocodeToolInput None
  | Some v =>
      (zero_GeocodeToolInput,
       Some (err_type (kind_name v) "value of type mcpserver.GeocodeToolInput"))
  end.

Fixpoint unmarshal_route_fields (fields : list (string * json))
    (input : RouteToolInput) (e : error) : RouteToolInput * error :=
  match fields with
  | [] => (input, e)
  | (k, v) :: rest =>
      if key_matches "origin" k then
        let '(x, e') := store_string "origin" v (Origin input) in
        unmarshal_route_fields rest
          {| Origin := x; Destination := Destination input; Mode := Mode input |}
          (save_error e e')
      else if key_matches "destination" k then
        let '(x, e') := store_string "destination" v (Destination input) in
        unmarshal_route_fields rest
          {| Origin := Origin input; Destination := x; Mode := Mode input |}
          (save_error e e')
      else if key_matches "mode" k then
        let '(x, e') := store_string "mode" v (Mode input) in
        unmarshal_route_fields rest
          {| Origin := Origin input; Destination := Destination input; Mode := x |}
          (save_error e e')
      else unmarshal_route_fields rest input e
  end.

Definition zero_RouteToolInput : RouteToolInput :=
  {| Origin := ""; Destination := ""; Mode := "" |}.

(** [json.Unmarshal(args, &input)] for [var input RouteToolInput] *)
Definition unmarshal_route (raw : RawMessage) : RouteToolInput * error :=
  match raw with
  | None => (zero_RouteToolInput, Some err_eof)
  | Some JNull => (zero_RouteToolInput, None)
  | Some (JObject fields) =>
      unmarshal_route_fields fields zero_RouteToolInput None
  | Some v =>
      (zero_RouteToolInput,
       Some (err_type (kind_name v) "value of type mcpserver.RouteToolInput"))
  end.

(** The two coordinates are constants of the source; they are kept as
    their literals. *)
Definition handleGeocode (input : GeocodeToolInput) : any :=
  AMap [("address", AString (Address input));
        ("lat", AJson (JNumber "39.9042"));
        ("lng", AJson (JNumber "116.4074"));
        ("city", AString (City input))].

Definition handleRoute (input : RouteToolInput) : any :=
  AMap [("origin", AString (Origin input));
        ("destination", AString (Destination input));
        ("mode", AString (Mode input));
        ("distance", AString "10km");
        ("duration", AString "20min")].

Definition geocode_tool : Tool :=
  {| tool_Name := "geocode";
     tool_Description := "Convert address to coordinates";
     Handler := fun args =>
       match unmarshal_geocode args with
       | (_, Some err) => (None, Some err)
       | (input, None) => (Some (handleGeocode input), None)
       end |}.

Definition route_tool : Tool :=
  {| tool_Name := "route";
     tool_Description := "Route planning between two addresses";
     Handler := fun args =>
       match unmarshal_route args with
       | (_, Some err) => (None, Some err)
       | (input, None) => (Some (handleRoute input), None)
       end |}.

End ServerRuns.

(* ===================================================================== *)
(** ** The event stream of the server *)
(* ===================================================================== *)

Module Push.

(** The [*SSEClient] of one open connection. *)
Definition client : Type := nat.

(** The package's [sseClients], what has been written to each
    connection so far, and the counter of the ticker of [Start]. *)
Record state := {
  sseClients : gset client;
  written : client -> string;
  count : Z                        (* int, of 64 bits *)
}.

Definition start : state :=
  {| sseClients := ∅; written := fun _ => ""; count := 0 |}.

(** [fmt.Sprintf("event: %s\ndata: %s\n\n", event, payload)] *)
Definition sse_message (event payload : string) : string :=
  "event: " +:+ event +:+
  String McpClient.newline
    ("data: " +:+ payload +:+
     String McpClient.newline (String McpClient.newline "")).

(** [broadcastSSE]: [payload] is what [json.Marshal(data)] returned.
    The message is written to every registered client; the outcome of a
    write is not looked at. *)
Definition broadcastSSE (event payload : string) (st : state) : state :=
  let msg := sse_message event payload in
  {| sseClients := sseClients st;
     written := fun c => if decide (c ∈ sseClients st)
                         then written st c +:+ msg else written st c;
     count := count st |}.

(** [sseHandler], up to its wait for the peer: the client is entered. *)
Definition sse_accept (c : client) (st : state) : state :=
  {| sseClients := {[c]} ∪ sseClients st;
     written := written st; count := count st |}.

(** [sseHandler], once the peer has gone: the deferred [delete]. *)
Definition sse_leave (c : client) (st : state) : state :=
  {| sseClients := sseClients st ∖ {[c]};
     written := written st; count := count st |}.

(** [count++] on an [int]. *)
Definition next_count (n : Z) : Z :=
  if n =? 2 ^ 63 - 1 then - 2 ^ 63 else n + 1.

(** [json.Marshal] of the map with the one member [message], of value
    [fmt.Sprintf("Event #%d", n)]. *)
Definition tick_payload (n : Z) : string :=
  "{" +:+ McpClient.dquote +:+ "message" +:+ McpClient.dquote +:+ ":" +:+
  McpClient.dquote +:+ "Event #" +:+ pretty n +:+ McpClient.dquote +:+ "}".

(** One round of the ticker loop of [Start]. *)
Definition tick (st : state) : state :=
  let n := next_count (count st) in
  broadcastSSE "update" (tick_payload n)
    {| sseClients := sseClients st; written := written st; count := n |}.

Inductive op : Type :=
| Accept (c : client)
| Leave (c : client)
| Broadcast (event payload : string)
| Tick.

Definition step (st : state) (o : op) : state :=
  match o with
  | Accept c => sse_accept c st
  | Leave c => sse_leave c st
  | Broadcast e p => broadcastSSE e p st
  | Tick => tick st
  end.

Definition run_from (st : state) (ops : list op) : state :=
  fold_left step ops st.

(** The events that a sequence of operations broadcasts, the counter
    being [n] at its start. *)
Fixpoint broadcasts (n : Z) (ops : list op) : list (string * string) :=
  match ops with
  | [] => []
  | Broadcast e p :: rest => (e, p) :: broadcasts n rest
  | Tick :: rest =>
      ("update", tick_payload (next_count n)) :: broadcasts (next_count n) rest
  | _ :: rest => broadcasts n rest
  end.

(** The bytes of a sequence of events. *)
Fixpoint stream_of (events : list (string * string)) : string :=
  match events with
  | [] => ""
  | (e, p) :: rest => sse_message e p +:+ stream_of rest
  end.

(** A text that a line of the stream carries unchanged: it has no
    newline, is not empty and does not end in white space. *)
Definition tidy (s : string) : Prop :=
  McpClient.has_newline s = false /\ McpClient.trim_right s = s /\ s <> "".

End Push.

(* ===================================================================== *)
(** ** A client talking to the server *)
(* ===================================================================== *)

Module Wire.

Import McpClient.

(** How a run against the server ends. *)
Inductive outcome (R : Type) : Type :=
| Returned (r : R)
| Panicked
| Stopped.       (* at an event the server's handlers give no answer to *)

Arguments Returned {R} r.
Arguments Panicked {R}.
Arguments Stopped {R}.

(** [result] pointing to a [json.RawMessage]: decoding stores the raw
    result and cannot fail. *)
Definition raw_out : out_ptr RawMessage := fun raw => (raw, None).


Fixpoint ws_session (c : WSClient) (calls : list (string * json))
    : prog (WSClient * list (option RawMessage * error)) :=
  match calls with
  | [] => Ret (c, [])
  | (method, args) :: rest =>
      bind (WSClient_Call c method args (Some raw_out)) (fun cr =>
        bind (ws_session (fst cr) rest) (fun cr' =>
          Ret (fst cr', snd cr :: snd cr')))
  end.

(** The envelope a [Call] builds when the counter stands at [counter]. *)
Definition request_of (counter : Z) (method : string) (args : json)
    : rpcRequest :=
  {| JsonRPC := "2.0"; ID := AddUint64 counter 1;
     Method := method; Params := args |}.

Section Served.

(** [json.Marshal] of a result value. *)
Variable marshal : McpServer.any -> json.

Variable s : McpServer.Server.

(** The request envelope as the server decodes it: [params] is always
    a member of what the client sends, so the raw parameters are never
    nil. *)
Definition to_server (req : rpcRequest) : McpServer.RPCRequest :=
  {| McpServer.req_JsonRPC := JsonRPC req;
     McpServer.req_ID := ID req;
     McpServer.req_Method := Method req;
     McpServer.req_Params := Some (Params req) |}.

(** The response envelope as the client decodes it: [result] and [error]
    are left out by the server when nil, and are then nil in the client. *)
Definition to_client (resp : McpServer.RPCResponse) : rpcResponse :=
  {| resp_JsonRPC := McpServer.resp_JsonRPC resp;
     resp_ID := McpServer.resp_ID resp;
     Result := marshal <$> McpServer.Result resp;
     Error := (fun e => {| Code := McpServer.Code e;
                           Message := McpServer.Message e |})
                <$> McpServer.Error resp |}.

(** The server as the other end of a client: a POST is answered by
    [httpHandler]; a request written on the WebSocket is answered by the
    loop of [wsHandler], whose response waits in [queue] until the client
    reads.  A read with nothing queued, and the events that are not part
    of a call, get no answer here. *)
Definition served {X : Type} (queue : list rpcResponse) (e : netE X)
    : option (X * list rpcResponse) :=
  match e in netE T return option (T * list rpcResponse) with
  | HttpPost _ body =>
      Some (inr (inr (to_client (McpServer.httpDispatch s (to_server body)))),
            queue)
  | WsWriteJSON _ req =>
      Some (None,
            queue ++ [to_client (McpServer.wsDispatch s (to_server req))])
  | WsReadJSON _ =>
      match queue with
      | resp :: rest => Some (inr resp, rest)
      | [] => None
      end
  | _ => None
  end.

Fixpoint exec_served {R : Type} (queue : list rpcResponse) (p : prog R)
    : list event * outcome R * list rpcResponse :=
  match p with
  | Ret r => ([], Returned r, queue)
  | Panic _ => ([], Panicked, queue)
  | Vis e k =>
      match served queue e with
      | None => ([], Stopped, queue)
      | Some (a, queue') =>
          let '(evs, r, q) := exec_served queue' (k a) in (Ev e a :: evs, r, q)
      end
  end.

(** What the calls should return: for each, the server's answer to that
    call's own request, with the ids counted on from [counter]. *)
Fixpoint answers (dispatch : McpServer.Server -> McpServer.RPCRequest ->
                             McpServer.RPCResponse)
    (counter : Z) (calls : list (string * json))
    : list (option RawMessage * error) :=
  match calls with
  | [] => []
  | (method, args) :: rest =>
      let reqID := AddUint64 counter 1 in
      finish (to_client (dispatch s
                (to_server {| JsonRPC := "2.0"; ID := reqID;
                              Method := method; Params := args |})))
             (Some raw_out)
        :: answers dispatch reqID rest
  end.

End Served.

(** [json.Marshal] on the values of [any], as JSON trees: a struct
    gives its members in the order of its fields, under their tags or
    field names; a map gives its members sorted by key. *)
Fixpoint insert_member (kv : string * json) (l : list (string * json))
    : list (string * json) :=
  match l with
  | [] => [kv]
  | x :: rest =>
      if String.leb (fst kv) (fst x) then kv :: l
      else x :: insert_member kv rest
  end.

Definition sort_members (l : list (string * json)) : list (string * json) :=
  foldr insert_member [] l.

Fixpoint marshal_any (v : McpServer.any) : json :=
  match v with
  | McpServer.AString x => JString x
  | McpServer.AStrings l => JArray (JString <$> l)
  | McpServer.AToolSummaries l =>
      JArray ((fun t => JObject [("name", JString (McpServer.ts_Name t));
                                 ("description",
                                  JString (McpServer.ts_Description t))]) <$> l)
  | McpServer.AStringMaps l =>
      JArray ((fun m => JObject (sort_members
                 ((fun kv => (fst kv, JString (snd kv))) <$> m))) <$> l)
  | McpServer.AMap m =>
      JObject (sort_members
        ((fix members (m : list (string * McpServer.any)) :=
            match m with
            | [] => []
            | (k, x) :: rest => (k, marshal_any x) :: members rest
            end) m))
  | McpServer.AResource r =>
      JObject [("Name", JString (McpServer.res_Name r));
               ("Type", JString (McpServer.res_Type r));
               ("Data", McpServer.res_Data r)]
  | McpServer.APrompt q =>
      JObject [("Name", JString (McpServer.prompt_Name q));
               ("Template", JString (McpServer.prompt_Template q))]
  | McpServer.ARaw raw => default JNull raw
  | McpServer.AJson j => j
  end.

(** The ids of the responses a run read from the WebSocket. *)
Definition read_id (ev : event) : list Z :=
  match ev with
  | Ev (WsReadJSON _) (inr resp) => [resp_ID resp]
  | _ => []
  end.

Definition read_ids (evs : list event) : list Z := concat (map read_id evs).

End Wire.

(* ===================================================================== *)
(** ** Facts on strings *)
(* ===================================================================== *)

Module StringFacts.

Lemma append_String (c : ascii) (a b : string) :
  String c a +:+ b = String c (a +:+ b).
Proof. reflexivity. Qed.

Lemma append_empty_r (b : string) : b +:+ "" = b.
Proof.
  induction b as [|x b IH]; [done|]. by rewrite append_String, IH.
Qed.

Lemma prefix_append (p s : string) : String.prefix p (p +:+ s) = true.
Proof.
  induction p as [|c p IH].
  - by destruct s.
  - rewrite append_String. simpl.
    destruct (Ascii.ascii_dec c c); [exact IH | congruence].
Qed.

Lemma Contains_prefix (s t : string) :
  String.prefix t s = true -> Contains s t = true.
Proof. intros H. destruct s; simpl in *; rewrite H; done. Qed.

Lemma Contains_append (a b c : string) : Contains (a +:+ b +:+ c) b = true.
Proof.
  induction a as [|x a IH].
  - change (Contains (b +:+ c) b = true). apply Contains_prefix, prefix_append.
  - rewrite append_String. simpl. rewrite IH. apply orb_true_r.
Qed.

Lemma Contains_suffix (a b : string) : Contains (a +:+ b) b = true.
Proof.
  rewrite <- (append_empty_r b) at 1. apply Contains_append.
Qed.

Lemma length_append (a b : string) :
  String.length (a +:+ b) = (String.length a + String.length b)%nat.
Proof.
  induction a as [|x a IH]; [done|]. rewrite append_String. simpl. by rewrite IH.
Qed.

Lemma append_assoc (a b c : string) : (a +:+ b) +:+ c = a +:+ b +:+ c.
Proof.
  induction a as [|x a IH]; [done|]. by rewrite !append_String, IH.
Qed.

End StringFacts.

(* ===================================================================== *)
(** ** Properties of package [mcpserver] *)
(* ===================================================================== *)

Module ServerProperties.

Import McpServer StringFacts.

(** *** The method table *)

Lemma SetMethodEnabled_dom (M : gmap string bool) method enabled :
  dom (SetMethodEnabled method enabled M) = dom M.
Proof.
  unfold SetMethodEnabled. destruct (M !! method) eqn:E; [|done].
  rewrite dom_insert_L. apply elem_of_dom_2 in E.
  apply subseteq_union_1_L. by apply singleton_subseteq_l.
Qed.

Lemma SetMethodEnabled_unfold (M : gmap string bool) method enabled :
  SetMethodEnabled method enabled M =
    if bool_decide (method ∈ dom M) then <[method := enabled]> M else M.
Proof.
  unfold SetMethodEnabled. case_bool_decide as H.
  - apply elem_of_dom in H as [b ->]. done.
  - apply not_elem_of_dom in H. destruct (M !! method); [done | reflexivity].
Qed.

Lemma initial_Methods_dom : dom initial_Methods = list_to_set method_names.
Proof.
  unfold initial_Methods. rewrite dom_list_to_map_L. reflexivity.
Qed.

Lemma run_snoc ops o : run (ops ++ [o]) = step (run ops) o.
Proof. unfold run. by rewrite fold_left_app. Qed.

Lemma step_Methods_dom s o : dom (Methods (step s o)) = dom (Methods s).
Proof. destruct o; simpl; try done. apply SetMethodEnabled_dom. Qed.

Lemma run_Methods_dom ops : dom (Methods (run ops)) = list_to_set method_names.
Proof.
  induction ops as [|o ops IH] using rev_ind.
  - apply initial_Methods_dom.
  - by rewrite run_snoc, step_Methods_dom.
Qed.

(** C10. The key set of the method table never changes.
    [SetMethodEnabled] stores the flag when the name is a key of the table
    and returns the table as it was otherwise; it keeps the key set; after
    any sequence of operations of the package, followed by any further
    operation, the keys are the ten initial method names; on such a table
    [SetMethodEnabled] of another name changes nothing, and of one of the
    ten names sets that name's flag and leaves every other entry alone. *)
Theorem method_table_keys_constant :
  (forall (M : gmap string bool) method enabled,
      SetMethodEnabled method enabled M =
        if bool_decide (method ∈ dom M) then <[method := enabled]> M else M) /\
  (forall (M : gmap string bool) method enabled,
      dom (SetMethodEnabled method enabled M) = dom M) /\
  (forall ops o,
      dom (Methods (step (run ops) o)) = list_to_set method_names) /\
  (forall ops method enabled, method ∉ method_names ->
      Methods (step (run ops) (OpSetMethodEnabled method enabled))
        = Methods (run ops)) /\
  (forall ops method enabled, method ∈ method_names ->
      Methods (step (run ops) (OpSetMethodEnabled method enabled)) !! method
        = Some enabled /\
      forall other, other <> method ->
        Methods (step (run ops) (OpSetMethodEnabled method enabled)) !! other
          = Methods (run ops) !! other).
Proof.
  split; [exact SetMethodEnabled_unfold|].
  split; [exact SetMethodEnabled_dom|].
  split; [intros; by rewrite step_Methods_dom, run_Methods_dom|].
  split.
  - intros ops method enabled Hn. simpl.
    rewrite SetMethodEnabled_unfold, run_Methods_dom.
    rewrite bool_decide_eq_false_2; [done|]. by rewrite elem_of_list_to_set.
  - intros ops method enabled Hin. simpl.
    rewrite SetMethodEnabled_unfold, run_Methods_dom.
    rewrite bool_decide_eq_true_2 by (by rewrite elem_of_list_to_set).
    split; [apply lookup_insert_eq|].
    intros other Hne. by apply lookup_insert_ne.
Qed.

(** *** Registries *)

(** A name that no registration of the run used has no entry. *)
Lemma run_resource_absent ops name :
  (forall r, OpRegisterResource r ∈ ops -> res_Name r <> name) ->
  resourceRegistry (run ops) !! name = None.
Proof.
  induction ops as [|o ops IH] using rev_ind; intros H; [done|].
  rewrite run_snoc.
  assert (IH' : resourceRegistry (run ops) !! name = None).
  { apply IH. intros r Hr. apply H. set_solver. }
  destruct o; simpl; try exact IH'.
  unfold RegisterResource. rewrite lookup_insert_ne; [exact IH'|].
  apply H. set_solver.
Qed.

Lemma run_prompt_absent ops name :
  (forall p, OpRegisterPrompt p ∈ ops -> prompt_Name p <> name) ->
  promptRegistry (run ops) !! name = None.
Proof.
  induction ops as [|o ops IH] using rev_ind; intros H; [done|].
  rewrite run_snoc.
  assert (IH' : promptRegistry (run ops) !! name = None).
  { apply IH. intros r Hr. apply H. set_solver. }
  destruct o; simpl; try exact IH'.
  unfold RegisterPrompt. rewrite lookup_insert_ne; [exact IH'|].
  apply H. set_solver.
Qed.

Lemma run_tool_absent ops name :
  (forall t, OpRegisterTool t ∈ ops -> tool_Name t <> name) ->
  toolRegistry (run ops) !! name = None.
Proof.
  induction ops as [|o ops IH] using rev_ind; intros H; [done|].
  rewrite run_snoc.
  assert (IH' : toolRegistry (run ops) !! name = None).
  { apply IH. intros r Hr. apply H. set_solver. }
  destruct o; simpl; try exact IH'.
  unfold RegisterTool. rewrite lookup_insert_ne; [exact IH'|].
  apply H. set_solver.
Qed.

(** C8. Registration followed by lookup round-trips in each registry.
    Resources and prompts: after [Register d], [Get (name of d)] returns
    [d] with no error, whatever was registered under that name before
    (the last registration wins); lookups of other names are unchanged;
    [Get] of a name that no registration used fails with the not-found
    error.  Tools (the registry has no [Get]; its lookup is the one of
    [CallToolByName]): after [RegisterTool t] the entry of [t]'s name is
    [t] and [CallToolByName] runs [t]'s handler; a name that no
    registration used yields the not-found error. *)
Theorem registry_register_get_roundtrip :
  (* resources *)
  (forall reg r,
      GetResource (RegisterResource r reg) (res_Name r) = (Some r, None)) /\
  (forall reg r name, name <> res_Name r ->
      GetResource (RegisterResource r reg) name = GetResource reg name) /\
  (forall ops name,
      (forall r, OpRegisterResource r ∈ ops -> res_Name r <> name) ->
      GetResource (resourceRegistry (run ops)) name
        = (None, Some ("resource not found: " +:+ name))) /\
  (* prompts *)
  (forall reg p,
      GetPrompt (RegisterPrompt p reg) (prompt_Name p) = (Some p, None)) /\
  (forall reg p name, name <> prompt_Name p ->
      GetPrompt (RegisterPrompt p reg) name = GetPrompt reg name) /\
  (forall ops name,
      (forall p, OpRegisterPrompt p ∈ ops -> prompt_Name p <> name) ->
      GetPrompt (promptRegistry (run ops)) name
        = (None, Some ("prompt not found: " +:+ name))) /\
  (* tools *)
  (forall reg t,
      RegisterTool t reg !! tool_Name t = Some t /\
      forall args,
        CallToolByName (RegisterTool t reg) (tool_Name t) args = Handler t args) /\
  (forall reg t name args, name <> tool_Name t ->
      CallToolByName (RegisterTool t reg) name args = CallToolByName reg name args) /\
  (forall ops name args,
      (forall t, OpRegisterTool t ∈ ops -> tool_Name t <> name) ->
      CallToolByName (toolRegistry (run ops)) name args
        = (None, Some ("tool not found: " +:+ name))).
Proof.
  repeat split.
  - intros reg r. unfold GetResource, RegisterResource.
    by rewrite lookup_insert_eq.
  - intros reg r name Hne. unfold GetResource, RegisterResource.
    by rewrite lookup_insert_ne.
  - intros ops name H. unfold GetResource.
    by rewrite (run_resource_absent ops name H).
  - intros reg q. unfold GetPrompt, RegisterPrompt.
    by rewrite lookup_insert_eq.
  - intros reg q name Hne. unfold GetPrompt, RegisterPrompt.
    by rewrite lookup_insert_ne.
  - intros ops name H. unfold GetPrompt.
    by rewrite (run_prompt_absent ops name H).
  - unfold RegisterTool. apply lookup_insert_eq.
  - intros args. unfold CallToolByName, RegisterTool.
    by rewrite lookup_insert_eq.
  - intros reg t name args Hne. unfold CallToolByName, RegisterTool.
    by rewrite lookup_insert_ne.
  - intros ops name args H. unfold CallToolByName.
    by rewrite (run_tool_absent ops name H).
Qed.

(** C9. Running a tool that is not registered yields an error whose
    message holds the tool's name: [CallToolByName] returns
    ["tool not found: " ++ name], and a ["tools.run"] request whose
    parameters name that tool is answered, on the HTTP and on the
    WebSocket handler, by a structured error with that message and no
    result. *)
Theorem unregistered_tool_error_names_tool :
  forall (s : Server) (name : string),
    toolRegistry s !! name = None ->
    (forall args,
        exists msg,
          CallToolByName (toolRegistry s) name args = (None, Some msg) /\
          Contains msg name = true) /\
    (forall req args,
        req_Method req = "tools.run" ->
        unmarshal_tool_run (req_Params req)
          = ({| Name := name; Arguments := args |}, None) ->
        exists msg,
          Contains msg name = true /\
          httpDispatch s req = set_Error (new_response req)
                                 {| Code := -32601; Message := msg |} /\
          wsDispatch s req = set_Error (new_response req)
                               {| Code := -32601; Message := msg |}).
Proof.
  intros s name Hnone. split.
  - intros args. exists ("tool not found: " +:+ name). split.
    + unfold CallToolByName. by rewrite Hnone.
    + apply Contains_suffix.
  - intros req args Hm Hdec. exists ("tool not found: " +:+ name).
    split; [apply Contains_suffix|].
    unfold httpDispatch, wsDispatch. rewrite Hm, Hdec. simpl.
    unfold run_tool, CallToolByName. simpl. rewrite Hnone. done.
Qed.

(** *** Dispatch *)

Lemma response_trichotomy resp :
  exactly_one resp \/ populated_neither resp \/ populated_both resp.
Proof.
  unfold exactly_one, populated_neither, populated_both.
  destruct (Result resp), (Error resp); eauto 6.
Qed.

Lemma exactly_one_not_both resp : exactly_one resp -> ~ populated_both resp.
Proof.
  unfold exactly_one, populated_both.
  intros [[_ E]|[E _]] [[? R] [? R']]; congruence.
Qed.

Lemma exactly_one_not_neither resp : exactly_one resp -> ~ populated_neither resp.
Proof.
  unfold exactly_one, populated_neither.
  intros [[[? R] _]|[_ [? R]]] [? ?]; congruence.
Qed.

Lemma neither_not_both resp : populated_neither resp -> ~ populated_both resp.
Proof.
  unfold populated_neither, populated_both.
  intros [R _] [[? R'] _]. congruence.
Qed.

Lemma set_Error_exactly_one req e :
  exactly_one (set_Error (new_response req) e).
Proof. right. simpl. eauto. Qed.

Lemma set_Result_exactly_one req v :
  exactly_one (set_Result (new_response req) (Some v)).
Proof. left. simpl. eauto. Qed.

#[local] Hint Resolve set_Error_exactly_one set_Result_exactly_one : core.

Lemma get_resource_exactly_one s req name :
  exactly_one (get_resource s (new_response req) name).
Proof.
  unfold get_resource, GetResource.
  destruct (resourceRegistry s !! name); auto.
Qed.

Lemma get_prompt_exactly_one s req name :
  exactly_one (get_prompt s (new_response req) name).
Proof.
  unfold get_prompt, GetPrompt.
  destruct (promptRegistry s !! name); auto.
Qed.

Lemma dispatch_common_exactly_one s req :
  exactly_one (dispatch_common s req (new_response req)).
Proof.
  unfold dispatch_common.
  repeat match goal with
         | |- context [if ?b then _ else _] => destruct b
         end; auto.
  - destruct (unmarshal_name (req_Params req)) as [name [e|]]; auto.
    apply get_resource_exactly_one.
  - destruct (unmarshal_name (req_Params req)) as [name [e|]]; auto.
    apply get_prompt_exactly_one.
Qed.

(** The outcome of running a tool: exactly one member, or none when the
    tool was silent. *)
Lemma run_tool_outcome s req p :
  (exactly_one (run_tool s (new_response req) p) /\ ~ silent_tool_run s p) \/
  (populated_neither (run_tool s (new_response req) p) /\ silent_tool_run s p).
Proof.
  unfold run_tool, CallToolByName, silent_tool_run.
  destruct (toolRegistry s !! Name p) as [tool|] eqn:Et.
  - destruct (Handler tool (Arguments p)) as [[v|] [e|]] eqn:Eh.
    + left. split; [auto|]. intros (t & [= <-] & H). congruence.
    + left. split; [auto|]. intros (t & [= <-] & H). congruence.
    + left. split; [auto|]. intros (t & [= <-] & H). congruence.
    + right. split; [done|]. eauto.
  - left. split; [auto|]. intros (t & ? & _). congruence.
Qed.

Lemma httpDispatch_neither s req :
  populated_neither (httpDispatch s req) <->
  req_Method req = "tools.run" /\
  snd (unmarshal_tool_run (req_Params req)) = None /\
  silent_tool_run s (fst (unmarshal_tool_run (req_Params req))).
Proof.
  unfold httpDispatch.
  destruct (String.eqb_spec (req_Method req) "tools.run") as [Hm|Hm].
  - destruct (unmarshal_tool_run (req_Params req)) as [p [e|]]; simpl.
    + split.
      * intros H. by apply exactly_one_not_neither in H.
      * intros (_ & ? & _). done.
    + destruct (run_tool_outcome s req p) as [[H1 H2]|[H1 H2]].
      * split; [intros H; by apply exactly_one_not_neither in H | tauto].
      * tauto.
  - split.
    + intros H. exfalso.
      by apply (exactly_one_not_neither _ (dispatch_common_exactly_one s req)).
    + tauto.
Qed.

Lemma wsDispatch_neither s req :
  populated_neither (wsDispatch s req) <->
  req_Method req = "tools.run" /\
  silent_tool_run s (fst (unmarshal_tool_run (req_Params req))).
Proof.
  unfold wsDispatch.
  destruct (String.eqb_spec (req_Method req) "tools.run") as [Hm|Hm].
  - destruct (unmarshal_tool_run (req_Params req)) as [p e]; simpl.
    destruct (run_tool_outcome s req p) as [[H1 H2]|[H1 H2]].
    + split; [intros H; by apply exactly_one_not_neither in H | tauto].
    + tauto.
  - split.
    + intros H. exfalso.
      by apply (exactly_one_not_neither _ (dispatch_common_exactly_one s req)).
    + tauto.
Qed.

Lemma httpDispatch_not_both s req : ~ populated_both (httpDispatch s req).
Proof.
  unfold httpDispatch.
  destruct (String.eqb (req_Method req) "tools.run").
  - destruct (unmarshal_tool_run (req_Params req)) as [p [e|]].
    + apply exactly_one_not_both; auto.
    + destruct (run_tool_outcome s req p) as [[H1 _]|[H1 _]];
        [by apply exactly_one_not_both | by apply neither_not_both].
  - apply exactly_one_not_both, dispatch_common_exactly_one.
Qed.

Lemma wsDispatch_not_both s req : ~ populated_both (wsDispatch s req).
Proof.
  unfold wsDispatch.
  destruct (String.eqb (req_Method req) "tools.run").
  - destruct (unmarshal_tool_run (req_Params req)) as [p e].
    destruct (run_tool_outcome s req p) as [[H1 _]|[H1 _]];
      [by apply exactly_one_not_both | by apply neither_not_both].
  - apply exactly_one_not_both, dispatch_common_exactly_one.
Qed.

(** Every response the WebSocket loop writes answers one request. *)
Lemma wsHandler_replies s conn resp :
  resp ∈ fst (wsHandler s conn) -> exists req, resp = wsDispatch s req.
Proof.
  induction conn as [|t conn IH]; simpl; [set_solver|].
  destruct (read_result t) as [e|req]; simpl; [set_solver|].
  destruct (write_ok t).
  - destruct (wsHandler s conn) as [out ex]; simpl in *.
    intros [->|H]%elem_of_cons; eauto.
  - intros ->%list_elem_of_singleton. eauto.
Qed.

Lemma replies_dispatch s o resp :
  resp ∈ replies s o ->
  exists req, resp = httpDispatch s req \/ resp = wsDispatch s req.
Proof.
  destruct o as [| | | |body|conn]; simpl; try set_solver.
  - destruct body as [e|req]; simpl; [set_solver|].
    intros ->%list_elem_of_singleton. eauto.
  - intros [req ->]%wsHandler_replies. eauto.
Qed.

(** C3, as the code has it.  No response envelope carries both a result
    and an error.  An envelope carries neither exactly when it answers a
    ["tools.run"] request that reached a registered tool whose handler
    returned a nil result with a nil error (on the HTTP handler the
    parameters must also have decoded); every other envelope carries
    exactly one of the two.  So when no registered tool ever returns
    nil with a nil error, every envelope written by either handler
    carries exactly one. *)
Theorem response_result_error_exclusive :
  forall (s : Server) (req : RPCRequest),
    (~ populated_both (httpDispatch s req) /\
     ~ populated_both (wsDispatch s req)) /\
    (populated_neither (httpDispatch s req) <->
       req_Method req = "tools.run" /\
       snd (unmarshal_tool_run (req_Params req)) = None /\
       silent_tool_run s (fst (unmarshal_tool_run (req_Params req)))) /\
    (populated_neither (wsDispatch s req) <->
       req_Method req = "tools.run" /\
       silent_tool_run s (fst (unmarshal_tool_run (req_Params req)))) /\
    (exactly_one (httpDispatch s req) \/ populated_neither (httpDispatch s req)) /\
    (exactly_one (wsDispatch s req) \/ populated_neither (wsDispatch s req)) /\
    (forall o resp,
        resp ∈ replies s o ->
        ~ populated_both resp /\
        ((forall name tool args,
             toolRegistry s !! name = Some tool ->
             Handler tool args <> (None, None)) ->
         exactly_one resp)).
Proof.
  intros s req.
  split; [split; [apply httpDispatch_not_both | apply wsDispatch_not_both]|].
  split; [apply httpDispatch_neither|].
  split; [apply wsDispatch_neither|].
  split.
  { destruct (response_trichotomy (httpDispatch s req)) as [H|[H|H]]; auto.
    by apply httpDispatch_not_both in H. }
  split.
  { destruct (response_trichotomy (wsDispatch s req)) as [H|[H|H]]; auto.
    by apply wsDispatch_not_both in H. }
  intros o resp [rq [->| ->]]%replies_dispatch.
  - split; [apply httpDispatch_not_both|]. intros Hloud.
    destruct (response_trichotomy (httpDispatch s rq)) as [H|[H|H]]; auto.
    + apply httpDispatch_neither in H as (_ & _ & tool & Ht & Hh).
      exfalso. exact (Hloud _ _ _ Ht Hh).
    + by apply httpDispatch_not_both in H.
  - split; [apply wsDispatch_not_both|]. intros Hloud.
    destruct (response_trichotomy (wsDispatch s rq)) as [H|[H|H]]; auto.
    + apply wsDispatch_neither in H as (_ & tool & Ht & Hh).
      exfalso. exact (Hloud _ _ _ Ht Hh).
    + by apply wsDispatch_not_both in H.
Qed.

(** C3 as stated fails: with the tool [quiet_tool] registered, the
    envelope that answers ["tools.run"] of it over HTTP has neither a
    result nor an error, and so has the one written on a WebSocket. *)
Lemma silent_tool_response_has_neither :
  let s := run [OpRegisterTool quiet_tool] in
  let req := request 1 "tools.run" (Some (JObject [("name", JString "quiet")])) in
  httpHandler s (inr req)
    = HttpJSON {| resp_JsonRPC := "2.0"; resp_ID := 1;
                  Result := None; Error := None |} /\
  ~ exactly_one (httpDispatch s req) /\
  fst (wsHandler s [{| read_result := inr req; write_ok := true |}])
    = [{| resp_JsonRPC := "2.0"; resp_ID := 1; Result := None; Error := None |}] /\
  ~ exactly_one (wsDispatch s req).
Proof.
  assert (E1 : httpDispatch (run [OpRegisterTool quiet_tool])
                 (request 1 "tools.run" (Some (JObject [("name", JString "quiet")])))
               = {| resp_JsonRPC := "2.0"; resp_ID := 1;
                    Result := None; Error := None |}) by (vm_compute; reflexivity).
  assert (E2 : wsDispatch (run [OpRegisterTool quiet_tool])
                 (request 1 "tools.run" (Some (JObject [("name", JString "quiet")])))
               = {| resp_JsonRPC := "2.0"; resp_ID := 1;
                    Result := None; Error := None |}) by (vm_compute; reflexivity).
  cbv zeta. simpl httpHandler. simpl wsHandler. rewrite E1, E2.
  repeat split; try reflexivity;
    intros [[[? H] _]|[_ [? H]]]; simpl in H; congruence.
Qed.

(** C1 on the code.  After [SetMethodEnabled("system.version", false)]
    the table says the method is disabled and [system.listMethods] no
    longer lists it, yet both handlers still answer it with its result,
    while a name that is not in the table gets the method-not-found
    error: the two are told apart.  No case of either switch reads the
    flag: with any table in place of the server's, every request whose
    method is not one of the two listing methods gets the same answer. *)
Theorem disabled_method_is_still_served :
  let s := run [OpSetMethodEnabled "system.version" false] in
  (IsMethodEnabled (Methods s) "system.version" = false /\
   Methods s !! "system.version" = Some false /\
   Methods s !! "foo.bar" = None /\
   "system.version" ∉ ListEnabledMethods (Methods s)) /\
  (httpDispatch s (request 7 "system.version" None)
     = {| resp_JsonRPC := "2.0"; resp_ID := 7;
          Result := Some (AString "2.0"); Error := None |} /\
   httpDispatch s (request 7 "foo.bar" None)
     = {| resp_JsonRPC := "2.0"; resp_ID := 7;
          Result := None; Error := Some method_not_found |}) /\
  (wsDispatch s (request 7 "system.version" None)
     = {| resp_JsonRPC := "2.0"; resp_ID := 7;
          Result := Some (AString "2.0"); Error := None |} /\
   wsDispatch s (request 7 "foo.bar" None)
     = {| resp_JsonRPC := "2.0"; resp_ID := 7;
          Result := None; Error := Some method_not_found |}) /\
  (forall (srv : Server) (M : gmap string bool) (req : RPCRequest),
      req_Method req <> "system.describe" ->
      req_Method req <> "system.listMethods" ->
      let srv' := {| Methods := M; toolRegistry := toolRegistry srv;
                     resourceRegistry := resourceRegistry srv;
                     promptRegistry := promptRegistry srv |} in
      httpDispatch srv' req = httpDispatch srv req /\
      wsDispatch srv' req = wsDispatch srv req).
Proof.
  cbv zeta. split; [|split; [|split]].
  - repeat split; try (vm_compute; reflexivity).
    intros H. vm_compute in H.
    repeat (apply elem_of_cons in H as [H|H]; [discriminate H|]).
    by apply elem_of_nil in H.
  - split; vm_compute; reflexivity.
  - split; vm_compute; reflexivity.
  - intros srv M req H1 H2.
    assert (Hc : forall resp,
      dispatch_common {| Methods := M; toolRegistry := toolRegistry srv;
                         resourceRegistry := resourceRegistry srv;
                         promptRegistry := promptRegistry srv |} req resp
      = dispatch_common srv req resp).
    { intros resp. unfold dispatch_common. simpl.
      destruct (String.eqb_spec (req_Method req) "system.describe"); [done|].
      destruct (String.eqb_spec (req_Method req) "system.listMethods"); [done|].
      reflexivity. }
    unfold httpDispatch, wsDispatch. rewrite Hc. done.
Qed.

Lemma run_tool_error_code s resp p e :
  Error resp = None ->
  Error (run_tool s resp p) = Some e -> Code e = -32601.
Proof.
  unfold run_tool. intros Hnone.
  destruct (CallToolByName (toolRegistry s) (Name p) (Arguments p)) as [v [m|]];
    simpl; [intros [= <-]; done | congruence].
Qed.

(** C2 on the code.  On the HTTP handler a ["tools.run"] request whose
    parameters fail to decode is answered with the invalid-params error
    (-32602), and so are ["resources.get"] and ["prompts.get"] on both
    handlers.  On the WebSocket handler ["tools.run"] goes on to
    [CallToolByName] with whatever the failed decoding left in the
    parameters, and never answers -32602: for the parameters [[]] it
    looks up the tool named [""] with nil arguments, reports
    "tool not found: " with code -32601, and runs the handler of a tool
    registered under that name. *)
Theorem ws_tools_run_drops_decode_failure :
  (forall s req,
      req_Method req = "tools.run" ->
      is_Some (snd (unmarshal_tool_run (req_Params req))) ->
      httpDispatch s req = set_Error (new_response req) invalid_params) /\
  (forall s req,
      req_Method req = "resources.get" \/ req_Method req = "prompts.get" ->
      is_Some (snd (unmarshal_name (req_Params req))) ->
      httpDispatch s req = set_Error (new_response req) invalid_params /\
      wsDispatch s req = set_Error (new_response req) invalid_params) /\
  (forall s req,
      req_Method req = "tools.run" ->
      wsDispatch s req
        = run_tool s (new_response req) (fst (unmarshal_tool_run (req_Params req))) /\
      forall e, Error (wsDispatch s req) = Some e -> Code e = -32601) /\
  (let req := request 1 "tools.run" (Some (JArray [])) in
   (fst (unmarshal_tool_run (req_Params req)) = zero_ToolRunParams /\
    is_Some (snd (unmarshal_tool_run (req_Params req)))) /\
   httpDispatch initial req
     = {| resp_JsonRPC := "2.0"; resp_ID := 1; Result := None;
          Error := Some {| Code := -32602; Message := "Invalid params" |} |} /\
   wsDispatch initial req
     = {| resp_JsonRPC := "2.0"; resp_ID := 1; Result := None;
          Error := Some {| Code := -32601; Message := "tool not found: " |} |} /\
   wsDispatch (run [OpRegisterTool unnamed_tool]) req
     = {| resp_JsonRPC := "2.0"; resp_ID := 1;
          Result := Some (ARaw None); Error := None |}).
Proof.
  split; [|split; [|split]].
  - intros s req Hm [e He]. unfold httpDispatch. rewrite Hm. simpl.
    destruct (unmarshal_tool_run (req_Params req)) as [p o].
    simpl in He. by subst o.
  - intros s req Hm [e He].
    unfold httpDispatch, wsDispatch, dispatch_common.
    destruct (unmarshal_name (req_Params req)) as [n o]. simpl in He. subst o.
    destruct Hm as [-> | ->]; done.
  - intros s req Hm. unfold wsDispatch. rewrite Hm. simpl.
    destruct (unmarshal_tool_run (req_Params req)) as [p o]. simpl.
    split; [done|]. intros e. by apply run_tool_error_code.
  - cbv zeta. split; [split; [reflexivity | eexists; reflexivity]|].
    repeat split; vm_compute; reflexivity.
Qed.

(** The tool [echo_tool], registered and run over HTTP and over a
    WebSocket with the arguments [{x: 1}]: the result is the arguments,
    and there is no error. *)
Example echo_round_trip :
  let s := run [OpRegisterTool echo_tool] in
  let args := JObject [("x", JNumber "1")] in
  let req := request 1 "tools.run"
               (Some (JObject [("name", JString "echo"); ("arguments", args)])) in
  httpHandler s (inr req)
    = HttpJSON {| resp_JsonRPC := "2.0"; resp_ID := 1;
                  Result := Some (ARaw (Some args)); Error := None |} /\
  wsHandler s [{| read_result := inr req; write_ok := true |}]
    = ([{| resp_JsonRPC := "2.0"; resp_ID := 1;
           Result := Some (ARaw (Some args)); Error := None |}], Waiting).
Proof. split; vm_compute; reflexivity. Qed.

(** C9 at work: ["nope"] on a server without tools. *)
Lemma unregistered_tool_error_witness :
  toolRegistry initial !! "nope" = None /\
  exists msg,
    CallToolByName (toolRegistry initial) "nope" None = (None, Some msg) /\
    Contains msg "nope" = true.
Proof.
  split; [reflexivity|].
  apply (proj1 (unregistered_tool_error_names_tool initial "nope" eq_refl) None).
Defined.

End ServerProperties.

(* ===================================================================== *)
(** ** Properties of package [mcpclient] *)
(* ===================================================================== *)

Module ClientProperties.

Import McpClient StringFacts.

(** *** Request ids *)

Lemma AddUint64_iter (c k : Z) :
  (AddUint64 c 1 + k) mod 2 ^ 64 = (c + 1 + k) mod 2 ^ 64.
Proof. unfold AddUint64. apply Z.add_mod_idemp_l. lia. Qed.

(** The [i]-th step of a schedule hands its caller the counter's start
    plus [i + 1], wrapped at 2^64. *)
Lemma issue_ids_lookup (schedule : list nat) :
  forall (c : Z) (i caller : nat),
    schedule !! i = Some caller ->
    issue_ids c schedule !! i = Some (caller, (c + Z.of_nat i + 1) mod 2 ^ 64).
Proof.
  induction schedule as [|x schedule IH]; intros c i caller Hi; [done|].
  destruct i as [|i].
  - injection Hi as ->. cbn [issue_ids lookup list_lookup].
    unfold AddUint64. do 3 f_equal. lia.
  - change (issue_ids (AddUint64 c 1) schedule !! i
            = Some (caller, (c + Z.of_nat (S i) + 1) mod 2 ^ 64)).
    change (schedule !! i = Some caller) in Hi.
    rewrite (IH _ _ _ Hi). do 2 f_equal.
    rewrite <- Z.add_assoc, AddUint64_iter. f_equal. lia.
Qed.

Lemma issue_ids_length (schedule : list nat) (c : Z) :
  length (issue_ids c schedule) = length schedule.
Proof.
  revert c. induction schedule as [|x schedule IH]; intros c; simpl; [done|].
  by rewrite IH.
Qed.

Lemma ids_lookup (schedule : list nat) (c : Z) (i : nat) :
  (i < length schedule)%nat ->
  (snd <$> issue_ids c schedule) !! i = Some ((c + Z.of_nat i + 1) mod 2 ^ 64).
Proof.
  intros Hi. destruct (lookup_lt_is_Some_2 schedule i Hi) as [caller Hc].
  rewrite list_lookup_fmap, (issue_ids_lookup _ _ _ _ Hc). done.
Qed.

Lemma ids_lookup_inv (schedule : list nat) (c : Z) (i : nat) (a : Z) :
  (snd <$> issue_ids c schedule) !! i = Some a ->
  (i < length schedule)%nat /\ a = (c + Z.of_nat i + 1) mod 2 ^ 64.
Proof.
  intros H. assert (Hi : (i < length schedule)%nat).
  { apply lookup_lt_Some in H.
    by rewrite length_fmap, issue_ids_length in H. }
  split; [done|]. rewrite (ids_lookup _ _ _ Hi) in H. congruence.
Qed.

(** The ids depend on the schedule through its length only. *)
Lemma ids_schedule_irrelevant (s1 s2 : list nat) (c : Z) :
  length s1 = length s2 ->
  snd <$> issue_ids c s1 = snd <$> issue_ids c s2.
Proof.
  revert s2 c. induction s1 as [|x s1 IH]; intros [|y s2] c H;
    simpl in *; try done.
  f_equal. apply IH. lia.
Qed.

(** Running a sequence: the events of the first part, then those of the
    second. *)
Lemma exec_bind {R T : Type} (net : network) (p : prog R) (f : R -> prog T) :
  forall n,
    exec net n (bind p f) =
      match exec net n p with
      | (evs, Some x) =>
          let '(evs', r) := exec net (n + length evs) (f x) in (evs ++ evs', r)
      | (evs, None) => (evs, None)
      end.
Proof.
  induction p as [r|m|X e k IH]; intros n; simpl.
  - rewrite Nat.add_0_r. by destruct (exec net n (f r)).
  - done.
  - rewrite IH. destruct (exec net (S n) (k (net n X e))) as [evs [x|]]; [|done].
    replace (n + length (Ev e (net n X e) :: evs))%nat
      with (S n + length evs)%nat by (simpl; lia).
    by destruct (exec net (S n + length evs) (f x)).
Qed.

Lemma sent_ids_app evs evs' : sent_ids (evs ++ evs') = sent_ids evs ++ sent_ids evs'.
Proof. unfold sent_ids. by rewrite map_app, concat_app. Qed.

(** When the request is built and when it is not. *)
Lemma request_built url_Parse (ctx : Context) (method url : string) :
  ctx <> None -> url_Parse url = None ->
  fst (NewRequestWithContext url_Parse ctx method url)
    = Some {| rq_Method := method; rq_URL := url |}.
Proof.
  intros Hctx Hurl. unfold NewRequestWithContext.
  destruct ctx as [[]|]; [|done]. by rewrite Hurl.
Qed.

Lemma request_not_built url_Parse (ctx : Context) (method url : string) :
  fst (NewRequestWithContext url_Parse ctx method url) = None <->
  ctx = None \/ url_Parse url <> None.
Proof.
  unfold NewRequestWithContext. destruct ctx as [[]|]; [|naive_solver].
  destruct (url_Parse url); naive_solver.
Qed.

Lemma request_built_inv url_Parse (ctx : Context) (method url : string) req :
  fst (NewRequestWithContext url_Parse ctx method url) = Some req ->
  ctx <> None /\ url_Parse url = None.
Proof.
  unfold NewRequestWithContext. destruct ctx as [[]|]; [|done].
  by destruct (url_Parse url).
Qed.

Lemma HTTPClient_Call_exec {A : Type} url_Parse net n c ctx method args
    (result : option (out_ptr A)) :
  ctx <> None -> url_Parse (URL c) = None ->
  exists evs res,
    exec net n (HTTPClient_Call url_Parse c ctx method args result)
      = (evs, Some ({| URL := URL c; counter := AddUint64 (counter c) 1 |}, res)) /\
    sent_ids evs = [AddUint64 (counter c) 1].
Proof.
  intros Hctx Hurl. unfold HTTPClient_Call. cbn [URL].
  rewrite (request_built _ _ _ _ Hctx Hurl). simpl.
  destruct (net n _ _) as [err|[err|rpcResp]]; simpl; eauto.
Qed.

(** A call whose request cannot be built panics: it is no event. *)
Lemma HTTPClient_Call_panics {A : Type} url_Parse c ctx method args
    (result : option (out_ptr A)) :
  fst (NewRequestWithContext url_Parse ctx "POST" (URL c)) = None ->
  HTTPClient_Call url_Parse c ctx method args result = Panic nil_deref.
Proof. intros H. unfold HTTPClient_Call. cbn [URL]. by rewrite H. Qed.

Lemma WSClient_Call_exec {A : Type} net n c cn method args (result : option (out_ptr A)) :
  ws_conn c = Some cn ->
  exists evs res,
    exec net n (WSClient_Call c method args result)
      = (evs, Some ({| ws_URL := ws_URL c; ws_conn := Some cn;
                       ws_counter := AddUint64 (ws_counter c) 1 |}, res)) /\
    sent_ids evs = [AddUint64 (ws_counter c) 1].
Proof.
  intros Hc. unfold WSClient_Call. simpl. rewrite Hc. simpl.
  destruct (net n _ _) as [err|]; simpl; eauto.
  destruct (net (S n) _ _) as [err|rpcResp]; simpl; eauto.
Qed.

Lemma http_calls_ids url_Parse net ctx calls :
  ctx <> None ->
  forall (schedule : list nat) (c : HTTPClient) (n : nat),
    url_Parse (URL c) = None ->
    length calls = length schedule ->
    sent_ids (fst (exec net n (http_calls url_Parse c ctx calls)))
      = snd <$> issue_ids (counter c) schedule.
Proof.
  intros Hctx.
  induction calls as [|[method args] calls IH]; intros [|x schedule] c n Hurl Hl;
    try done.
  cbn [http_calls issue_ids fmap list_fmap snd].
  rewrite exec_bind.
  destruct (HTTPClient_Call_exec (A := unit) url_Parse net n c ctx method args
              None Hctx Hurl)
    as (evs & res & -> & Hids).
  cbn [fst].
  specialize (IH schedule {| URL := URL c; counter := AddUint64 (counter c) 1 |}
                (n + length evs)%nat Hurl).
  destruct (exec net (n + length evs) _) as [evs' r]. cbn [fst] in *.
  rewrite sent_ids_app, Hids, IH by (simpl in Hl; lia). done.
Qed.

(** Calls whose request cannot be built put nothing on the wire. *)
Lemma http_calls_panic url_Parse net n c ctx calls :
  fst (NewRequestWithContext url_Parse ctx "POST" (URL c)) = None ->
  fst (exec net n (http_calls url_Parse c ctx calls)) = [].
Proof.
  intros H. destruct calls as [|[method args] calls]; [done|].
  cbn [http_calls]. by rewrite (HTTPClient_Call_panics _ _ _ _ _ _ H).
Qed.

Lemma ws_calls_ids net calls :
  forall (schedule : list nat) (c : WSClient) (cn : conn) (n : nat),
    ws_conn c = Some cn ->
    length calls = length schedule ->
    sent_ids (fst (exec net n (ws_calls c calls)))
      = snd <$> issue_ids (ws_counter c) schedule.
Proof.
  induction calls as [|[method args] calls IH]; intros [|x schedule] c cn n Hc Hl;
    try done.
  cbn [ws_calls issue_ids fmap list_fmap snd].
  rewrite exec_bind.
  destruct (WSClient_Call_exec (A := unit) net n c cn method args None Hc)
    as (evs & res & -> & Hids).
  cbn [fst].
  specialize (IH schedule
                 {| ws_URL := ws_URL c; ws_conn := Some cn;
                    ws_counter := AddUint64 (ws_counter c) 1 |}
                 cn (n + length evs)%nat eq_refl).
  destruct (exec net (n + length evs) _) as [evs' r]. cbn [fst] in *.
  rewrite sent_ids_app, Hids, IH by (simpl in Hl; lia). done.
Qed.

(** C4, as the code has it.  While fewer than 2^64 ids have been drawn
    from one client, the ids are 1, 2, 3, ... in the order in which the
    callers' atomic increments take effect, whichever callers they are:
    the first is 1, they increase strictly and no two are equal.  The
    requests that successive calls of an HTTP client, and of a connected
    WebSocket client, hand to the network carry exactly these ids,
    whatever the network answers.  (An HTTP client whose request cannot
    be built, because the context is nil or the URL does not parse,
    panics in its first call, after drawing the id and before sending
    anything.) *)
Theorem request_ids_increase_until_wrap :
  forall (schedule : list nat),
    Z.of_nat (length schedule) < 2 ^ 64 ->
    let ids := snd <$> issue_ids 0 schedule in
    (forall i, (i < length schedule)%nat -> ids !! i = Some (Z.of_nat i + 1)) /\
    (forall i j a b, (i < j)%nat ->
        ids !! i = Some a -> ids !! j = Some b -> a < b) /\
    NoDup ids /\
    (forall url_Parse ctx url net calls,
        length calls = length schedule ->
        sent_ids (fst (exec net 0
          (http_calls url_Parse (NewHTTPClient url) ctx calls)))
          = match fst (NewRequestWithContext url_Parse ctx "POST" url) with
            | Some _ => ids
            | None => []
            end) /\
    (forall url cn net calls,
        length calls = length schedule ->
        sent_ids (fst (exec net 0
          (ws_calls {| ws_URL := url; ws_conn := Some cn; ws_counter := 0 |} calls)))
          = ids).
Proof.
  intros schedule Hlen. cbv zeta.
  assert (Hlk : forall i a, (snd <$> issue_ids 0 schedule) !! i = Some a ->
                  (i < length schedule)%nat /\ a = Z.of_nat i + 1).
  { intros i a H. apply ids_lookup_inv in H as [Hi ->]. split; [done|].
    rewrite Z.mod_small; lia. }
  split; [|split; [|split; [|split]]].
  - intros i Hi. rewrite ids_lookup by done. f_equal.
    rewrite Z.mod_small; lia.
  - intros i j a b Hij [_ ->]%Hlk [_ ->]%Hlk. lia.
  - apply NoDup_alt. intros i j a [_ Ha]%Hlk [_ Hb]%Hlk. lia.
  - intros url_Parse ctx url net calls Hl.
    destruct (fst (NewRequestWithContext url_Parse ctx "POST" url)) eqn:Hreq.
    + apply request_built_inv in Hreq as [Hctx Hurl].
      exact (http_calls_ids url_Parse net ctx calls Hctx schedule
               (NewHTTPClient url) 0%nat Hurl Hl).
    + rewrite (http_calls_panic url_Parse net 0 (NewHTTPClient url) ctx calls Hreq).
      done.
  - intros url cn net calls Hl.
    exact (ws_calls_ids net calls schedule
             {| ws_URL := url; ws_conn := Some cn; ws_counter := 0 |}
             cn 0%nat eq_refl Hl).
Qed.

(** C4 at work: three calls by two callers of one client. *)
Lemma request_ids_witness :
  Z.of_nat (length [0; 1; 0]%nat) < 2 ^ 64 /\
  (forall i, (i < 3)%nat ->
     (snd <$> issue_ids 0 [0; 1; 0]%nat) !! i = Some (Z.of_nat i + 1)) /\
  NoDup (snd <$> issue_ids 0 [0; 1; 0]%nat).
Proof.
  split; [reflexivity|].
  destruct (request_ids_increase_until_wrap [0; 1; 0]%nat eq_refl)
    as (H1 & _ & H3 & _).
  split; [exact H1 | exact H3].
Defined.

(** C4 as stated fails at the end of the counter's range: of the ids of
    2^64 + 1 calls on a fresh client, the first is 1, number 2^64 - 1 is
    2^64 - 1, the next one is 0, which is smaller, and the one after it is
    1 again. *)
Lemma request_ids_wrap_around :
  let ids := snd <$> issue_ids 0 (replicate (Z.to_nat (2 ^ 64 + 1)) 0%nat) in
  ids !! 0%nat = Some 1 /\
  ids !! Z.to_nat (2 ^ 64 - 2) = Some (2 ^ 64 - 1) /\
  ids !! Z.to_nat (2 ^ 64 - 1) = Some 0 /\
  ids !! Z.to_nat (2 ^ 64) = Some 1.
Proof.
  cbv zeta.
  assert (H : forall k, 0 <= k < 2 ^ 64 + 1 ->
    (snd <$> issue_ids 0 (replicate (Z.to_nat (2 ^ 64 + 1)) 0%nat)) !! Z.to_nat k
      = Some ((k + 1) mod 2 ^ 64)).
  { intros k Hk. rewrite ids_lookup by (rewrite length_replicate; lia).
    rewrite Z2Nat.id by lia. done. }
  split; [rewrite ids_lookup by (rewrite length_replicate; lia); reflexivity|].
  split; [rewrite (H (2 ^ 64 - 2)) by lia; reflexivity|].
  split; [rewrite (H (2 ^ 64 - 1)) by lia; reflexivity|].
  rewrite (H (2 ^ 64)) by lia; reflexivity.
Qed.

(** *** Operations a transport does not support *)

(** C7. On a unified client bound to the SSE transport, [Call],
    [CallTool], [ServerInfo] and [ServerToolsList] return the error
    "SSE client does not support RPC calls" at once; on one bound to
    HTTP or to WebSocket, [WatchEvents] returns the error that the
    transport does not support SSE.  None of them reaches the network:
    run against any network, they produce no event.  The transports
    themselves answer the same way.  (The supported operations do go to
    the network, unless their request cannot be built, because the
    context is nil or the URL does not parse: then they panic before
    any event.) *)
Theorem unsupported_operation_fails_without_io :
  forall (c : UnifiedClient),
    (mode c = "sse" ->
       (forall url_Parse (A : Type) ctx method args (result : option (out_ptr A)),
           Call url_Parse c ctx method args result
             = Ret (c, (None, Some "SSE client does not support RPC calls"))) /\
       (forall url_Parse (A : Type) ctx toolName args (result : option (out_ptr A)),
           CallTool url_Parse c ctx toolName args result
             = Ret (c, (None, Some "SSE client does not support RPC calls"))) /\
       (forall url_Parse dec ctx,
           ServerInfo url_Parse dec c ctx
             = Ret (c, (None, Some "SSE client does not support RPC calls"))) /\
       (forall url_Parse dec ctx,
           ServerToolsList url_Parse dec c ctx
             = Ret (c, (None, Some "SSE client does not support RPC calls"))) /\
       (forall url_Parse (A : Type) net n ctx method args
               (result : option (out_ptr A)),
           fst (exec net n (Call url_Parse c ctx method args result)) = [])) /\
    (mode c = "http" ->
       forall url_Parse,
         WatchEvents url_Parse c
           = Ret ([], Some "HTTP client does not support SSE") /\
         forall net n, fst (exec net n (WatchEvents url_Parse c)) = []) /\
    (mode c = "ws" ->
       forall url_Parse,
         WatchEvents url_Parse c
           = Ret ([], Some "WebSocket client does not support SSE") /\
         forall net n, fst (exec net n (WatchEvents url_Parse c)) = []) /\
    (* the constructors bind the variant *)
    (forall url,
        mode (NewUnifiedClientSSE url) = "sse" /\
        mode (NewUnifiedClientHTTP url) = "http" /\
        forall net n uc,
          snd (exec net n (NewUnifiedClientWS url)) = Some (Some uc, None) ->
          mode uc = "ws") /\
    (* the transports *)
    (forall (A : Type) s method args (result : option (out_ptr A)),
        SSEClient_Call s method args result
          = Ret (None, Some "SSE client does not support RPC calls") /\
        SSEClient_CallTool s method args result
          = Ret (None, Some "SSE client does not support RPC calls")) /\
    (forall h, HTTPClient_ListenSSE h
                 = Ret (Some "HTTP client does not support SSE")) /\
    (forall w, WSClient_ListenSSE w
                 = Ret (Some "WebSocket client does not support SSE")) /\
    (* what is supported does use the network, unless its request
       cannot be built: then it panics before any event *)
    (forall url_Parse url ctx (A : Type) method args (result : option (out_ptr A)),
        (no_io (Call url_Parse (NewUnifiedClientHTTP url) ctx method args result)
           <-> fst (NewRequestWithContext url_Parse ctx "POST" url) = None) /\
        (no_io (WatchEvents url_Parse (NewUnifiedClientSSE url))
           <-> fst (NewRequest url_Parse "GET" url) = None)).
Proof.
  intros c.
  split; [|split; [|split; [|split; [|split; [|split; [|split]]]]]].
  - intros Hm. unfold Call, CallTool, ServerInfo, ServerToolsList.
    rewrite Hm. simpl. repeat split; reflexivity.
  - intros Hm url_Parse. unfold WatchEvents. rewrite Hm. simpl. by split.
  - intros Hm url_Parse. unfold WatchEvents. rewrite Hm. simpl. by split.
  - intros url. split; [done|]. split; [done|].
    intros net n uc. unfold NewUnifiedClientWS, NewWSClient. simpl.
    destruct (net n _ _) as [err|cn]; simpl; [done|].
    by intros [= <-].
  - done.
  - done.
  - done.
  - intros url_Parse url ctx A method args result. split.
    + unfold Call, NewUnifiedClientHTTP, via_http, HTTPClient_Call, NewHTTPClient.
      cbn [mode http URL String.eqb Ascii.eqb Bool.eqb].
      destruct (fst (NewRequestWithContext url_Parse ctx "POST" url));
        simpl; split; (done || tauto).
    + unfold WatchEvents, NewUnifiedClientSSE, SSEClient_ListenSSE, NewSSEClient.
      cbn [mode sse sse_URL String.eqb Ascii.eqb Bool.eqb].
      destruct (fst (NewRequest url_Parse "GET" url));
        simpl; split; (done || tauto).
Qed.

(** *** The event-stream parser *)

Lemma ReadBytes_line (l rest : string) :
  has_newline l = false ->
  ReadBytes (l +:+ String newline rest) = Some (l +:+ String newline "", rest).
Proof.
  induction l as [|c l IH]; intros H.
  - reflexivity.
  - simpl in H. apply orb_false_iff in H as [Hc Hl].
    rewrite !append_String. simpl. rewrite Hc, (IH Hl). done.
Qed.

Lemma ReadBytes_tail (t : string) : has_newline t = false -> ReadBytes t = None.
Proof.
  induction t as [|c t IH]; intros H; [done|].
  simpl in H. apply orb_false_iff in H as [Hc Ht].
  simpl. by rewrite Hc, (IH Ht).
Qed.

Lemma join_lines_cons (l : string) (rest : list string) (tail : string) :
  join_lines (l :: rest) +:+ tail
    = l +:+ String newline (join_lines rest +:+ tail).
Proof. simpl. by rewrite append_assoc, append_String. Qed.

(** The loop takes the stream line by line; what follows the last
    newline is never handed to the loop body. *)
Lemma listen_loop_lines (lines : list string) (tail : string) :
  Forall (fun l => has_newline l = false) lines ->
  has_newline tail = false ->
  forall (eventName : string) (fuel : nat),
    (String.length (join_lines lines +:+ tail) < fuel)%nat ->
    listen_loop fuel (join_lines lines +:+ tail) eventName
      = Some (on_lines eventName ((fun l => l +:+ String newline "") <$> lines)).
Proof.
  intros Hlines Htail. induction Hlines as [|l lines Hl _ IH];
    intros eventName fuel Hfuel.
  - destruct fuel as [|fuel]; [lia|]. simpl.
    change ("" +:+ tail) with tail. by rewrite (ReadBytes_tail _ Htail).
  - destruct fuel as [|fuel]; [lia|].
    rewrite join_lines_cons in *.
    cbn [listen_loop fmap list_fmap on_lines].
    rewrite (ReadBytes_line _ _ Hl).
    destruct (on_line eventName (l +:+ String newline "")) as [ev' calls].
    rewrite IH; [done|].
    rewrite length_append in Hfuel. simpl in Hfuel. lia.
Qed.

Lemma on_line_label (eventName line name : string) :
  TrimSpace line = "event: " +:+ name ->
  on_line eventName line = (name, []).
Proof.
  intros H. unfold on_line, HasPrefix. rewrite H.
  change (String.length ("event: " +:+ name) =? 0)%nat with false.
  cbv iota. rewrite prefix_append. reflexivity.
Qed.

Lemma on_line_payload (eventName line data : string) :
  TrimSpace line = "data: " +:+ data ->
  on_line eventName line = (eventName, [(eventName, data)]).
Proof.
  intros H. unfold on_line, HasPrefix. rewrite H.
  change (String.length ("data: " +:+ data) =? 0)%nat with false.
  change (String.prefix "event: " ("data: " +:+ data)) with false.
  cbv iota. rewrite prefix_append. reflexivity.
Qed.

Lemma on_line_blank (eventName line : string) :
  TrimSpace line = "" -> on_line eventName line = (eventName, []).
Proof. intros H. unfold on_line. rewrite H. reflexivity. Qed.

Lemma on_lines_payloads (name : string) (lines datas : list string) :
  Forall2 (fun l d => TrimSpace l = "data: " +:+ d) lines datas ->
  on_lines name lines = (fun d => (name, d)) <$> datas.
Proof.
  induction 1 as [|l d lines datas H _ IH]; [done|].
  simpl. rewrite (on_line_payload _ _ _ H). simpl. by rewrite IH.
Qed.

Lemma on_lines_skip_blank (eventName blank : string) (before after : list string) :
  TrimSpace blank = "" ->
  on_lines eventName (before ++ blank :: after)
    = on_lines eventName (before ++ after).
Proof.
  intros Hb. revert eventName.
  induction before as [|l before IH]; intros eventName; simpl.
  - by rewrite (on_line_blank _ _ Hb).
  - destruct (on_line eventName l) as [ev' calls]. by rewrite IH.
Qed.

(** The calls made for the first lines of a stream do not depend on the
    lines that follow. *)
Lemma on_lines_prefix (eventName : string) (first later : list string) :
  exists more,
    on_lines eventName (first ++ later) = on_lines eventName first ++ more.
Proof.
  revert eventName. induction first as [|l first IH]; intros eventName; simpl.
  - eauto.
  - destruct (on_line eventName l) as [ev' calls].
    destruct (IH ev') as [more ->]. exists more. by rewrite app_assoc.
Qed.

(** *** Trimming *)

(** No white space of two or three bytes starts, or ends, with an ASCII
    byte. *)
Lemma is_space2_ascii (a b : ascii) :
  (nat_of_ascii a < 128)%nat -> is_space2 a b = false.
Proof.
  intros H. unfold is_space2. apply andb_false_iff. left.
  apply Nat.eqb_neq. lia.
Qed.

Lemma is_space3_ascii (a b c : ascii) :
  (nat_of_ascii a < 128)%nat -> is_space3 a b c = false.
Proof.
  intros H. unfold is_space3. cbv zeta.
  rewrite !orb_false_iff. repeat split; apply andb_false_iff; left;
    apply Nat.eqb_neq; lia.
Qed.

Lemma is_space2_ascii_r (a b : ascii) :
  (nat_of_ascii b < 128)%nat -> is_space2 a b = false.
Proof.
  intros H. unfold is_space2. apply andb_false_iff. right.
  apply orb_false_iff. split; apply Nat.eqb_neq; lia.
Qed.

Lemma is_space3_ascii_r (a b c : ascii) :
  (nat_of_ascii c < 128)%nat -> is_space3 a b c = false.
Proof.
  intros H. unfold is_space3. cbv zeta.
  assert (E : forall k, (128 <= k)%nat -> (nat_of_ascii c =? k)%nat = false)
    by (intros k Hk; apply Nat.eqb_neq; lia).
  rewrite !E by lia.
  assert (L : (128 <=? nat_of_ascii c)%nat = false) by (apply Nat.leb_gt; lia).
  rewrite L. cbn [andb orb]. by rewrite !andb_false_r.
Qed.

Lemma trim_right_cons (a : ascii) (r : string) :
  trim_right (String a r)
    = match trim_right r with
      | EmptyString => if is_space a then EmptyString else String a EmptyString
      | String b EmptyString =>
          if is_space2 a b then EmptyString else String a (String b EmptyString)
      | String b (String c EmptyString) =>
          if is_space3 a b c then EmptyString
          else String a (String b (String c EmptyString))
      | r' => String a r'
      end.
Proof. reflexivity. Qed.

(** A string that ends with an ASCII byte that is not white space is
    left as it is. *)
Lemma trim_right_ends_plain (s : string) :
  ends_plain s = true -> trim_right s = s.
Proof.
  induction s as [|a r IH]; [done|]. intros H.
  destruct r as [|b r2].
  - simpl in H. apply andb_true_iff in H as [H _].
    apply negb_true_iff in H. simpl. by rewrite H.
  - change (ends_plain (String b r2) = true) in H.
    rewrite trim_right_cons, (IH H).
    destruct r2 as [|c [|d r4]]; [| |done].
    + simpl in H. apply andb_true_iff in H as [_ H%Nat.ltb_lt].
      by rewrite is_space2_ascii_r.
    + simpl in H. apply andb_true_iff in H as [_ H%Nat.ltb_lt].
      by rewrite is_space3_ascii_r.
Qed.

Lemma ends_plain_append_r (a b : string) :
  ends_plain b = true -> ends_plain (a +:+ b) = true.
Proof.
  intros H. induction a as [|c a IH]; [done|].
  rewrite append_String. simpl. by destruct (a +:+ b).
Qed.

(** White space at the end goes. *)
Lemma trim_right_spaces (s w : string) :
  trim_right w = "" -> trim_right (s +:+ w) = trim_right s.
Proof.
  intros Hw. induction s as [|c s IH]; [done|].
  by rewrite append_String, !trim_right_cons, IH.
Qed.

(** [bytes.TrimSpace] on what follows a prefix of ASCII bytes: the
    white space at the end of the rest goes; when the rest is blank, so
    does the white space at the end of the prefix. *)
Lemma trim_right_append (a b : string) :
  ascii_only a = true ->
  trim_right (a +:+ b)
    = match trim_right b with
      | EmptyString => trim_right a
      | r => a +:+ r
      end.
Proof.
  induction a as [|c a IH]; intros Ha.
  - change ("" +:+ b) with b. by destruct (trim_right b).
  - simpl in Ha. apply andb_true_iff in Ha as [Hc%Nat.ltb_lt Ha].
    rewrite append_String, trim_right_cons, (IH Ha).
    destruct (trim_right b) as [|x r]; [by rewrite trim_right_cons|].
    rewrite append_String.
    destruct (a +:+ String x r) as [|p [|q [|t u]]] eqn:E;
      rewrite ?is_space2_ascii, ?is_space3_ascii by done; try done.
    destruct a; discriminate E.
Qed.

(** Behind a prefix of ASCII bytes, a text that does not end in white
    space is left as it is. *)
Lemma trim_right_keep (a b : string) :
  ascii_only a = true ->
  trim_right b = b -> b <> "" ->
  trim_right (a +:+ b) = a +:+ b /\ a +:+ b <> "".
Proof.
  intros Ha Hb Hne. rewrite trim_right_append, Hb by done.
  destruct b as [|x r]; [done|]. split; [done|].
  destruct a; discriminate.
Qed.

(** A string that starts with an ASCII byte that is not white space
    is left as it is. *)
Lemma trim_left_plain_start (c : ascii) (r : string) :
  is_space c = false -> (nat_of_ascii c < 128)%nat ->
  trim_left (String c r) = String c r.
Proof.
  intros Hs Hc. cbn [trim_left]. rewrite Hs.
  destruct r as [|b [|d r3]];
    rewrite ?is_space2_ascii, ?is_space3_ascii by done; done.
Qed.

(** White space at the start goes. *)
Lemma trim_left_spaces (lead x : string) :
  trim_left lead = "" -> trim_left (lead +:+ x) = trim_left x.
Proof.
  remember (String.length lead) as n eqn:Hn. revert lead Hn.
  induction n as [n IH] using lt_wf_ind. intros lead Hn H.
  destruct lead as [|a r]; [done|].
  cbn [trim_left] in H. rewrite append_String. cbn [trim_left].
  destruct (is_space a).
  { apply (IH (String.length r)); [simpl in Hn; lia|done|done]. }
  destruct r as [|b r2]; [done|].
  rewrite append_String.
  destruct (is_space2 a b).
  { apply (IH (String.length r2)); [simpl in Hn; lia|done|done]. }
  destruct r2 as [|c r3]; [done|].
  rewrite append_String.
  destruct (is_space3 a b c); [|done].
  apply (IH (String.length r3)); [simpl in Hn; lia|done|done].
Qed.

Lemma on_line_label_rest (eventName rest : string) :
  on_line eventName ("event: " +:+ rest)
    = (match trim_right rest with
       | EmptyString => eventName
       | name => name
       end, []).
Proof.
  assert (H : TrimSpace ("event: " +:+ rest)
              = match trim_right rest with
                | EmptyString => "event:"
                | r => "event: " +:+ r
                end).
  { unfold TrimSpace.
    change (trim_left ("event: " +:+ rest)) with ("event: " +:+ rest).
    rewrite trim_right_append by done. by destruct (trim_right rest). }
  destruct (trim_right rest) as [|x r] eqn:Hr.
  - unfold on_line. rewrite H. reflexivity.
  - by apply on_line_label.
Qed.

Lemma on_line_payload_rest (eventName rest : string) :
  on_line eventName ("data: " +:+ rest)
    = (eventName,
       match trim_right rest with
       | EmptyString => []
       | data => [(eventName, data)]
       end).
Proof.
  assert (H : TrimSpace ("data: " +:+ rest)
              = match trim_right rest with
                | EmptyString => "data:"
                | r => "data: " +:+ r
                end).
  { unfold TrimSpace.
    change (trim_left ("data: " +:+ rest)) with ("data: " +:+ rest).
    rewrite trim_right_append by done. by destruct (trim_right rest). }
  destruct (trim_right rest) as [|x r] eqn:Hr.
  - unfold on_line. rewrite H. reflexivity.
  - by apply on_line_payload.
Qed.

Lemma on_lines_payloads_rest (name : string) (rests : list string) :
  Forall (fun r => trim_right r <> "") rests ->
  on_lines name (String.append "data: " <$> rests)
    = (fun r => (name, trim_right r)) <$> rests.
Proof.
  induction 1 as [|r rests Hr _ IH]; [done|].
  cbn [fmap list_fmap on_lines]. rewrite on_line_payload_rest.
  destruct (trim_right r) as [|x t] eqn:Ht; [done|].
  cbn [app]. f_equal. exact IH.
Qed.

(** C6, as the code has it.  The event-stream parser takes its input
    line by line (each line ends with a newline; what follows the last
    newline is not processed), trims the white space at both ends of the
    line and carries the current event name from line to line.  A line
    that starts with "event: " and whose rest is not blank sets the
    name to the rest (without the white space at its end) and calls
    nothing; a line that starts with "data: " and whose rest is not
    blank calls the handler once, at that line, with the current name
    and the rest, and keeps the name.  A label or payload line whose
    rest is blank is skipped: trimmed, it no longer has the prefix, so
    it calls nothing and keeps the name.  A blank line does nothing and
    keeps the name.  So the payload lines under one label are each passed
    to the handler with that label's name, blank lines anywhere among
    the lines change nothing, and the calls made for the lines read so
    far do not wait for later lines.  The label line for update followed
    by two payload lines calls the handler twice, both times with
    update. *)
Theorem sse_parser_keeps_event_name :
  (forall lines tail,
      Forall (fun l => has_newline l = false) lines ->
      has_newline tail = false ->
      handler_calls (join_lines lines +:+ tail)
        = on_lines "" ((fun l => l +:+ String newline "") <$> lines)) /\
  (* a line with a prefix, whatever follows the prefix *)
  (forall eventName rest,
      on_line eventName ("event: " +:+ rest)
        = (match trim_right rest with
           | EmptyString => eventName
           | name => name
           end, [])) /\
  (forall eventName rest,
      on_line eventName ("data: " +:+ rest)
        = (eventName,
           match trim_right rest with
           | EmptyString => []
           | data => [(eventName, data)]
           end)) /\
  (* a line by what it is once trimmed *)
  (forall eventName line name,
      TrimSpace line = "event: " +:+ name ->
      on_line eventName line = (name, [])) /\
  (forall eventName line data,
      TrimSpace line = "data: " +:+ data ->
      on_line eventName line = (eventName, [(eventName, data)])) /\
  (forall eventName line,
      TrimSpace line = "" -> on_line eventName line = (eventName, [])) /\
  (forall eventName line,
      HasPrefix (TrimSpace line) "event: " = false ->
      HasPrefix (TrimSpace line) "data: " = false ->
      on_line eventName line = (eventName, [])) /\
  (* payload lines under one label *)
  (forall eventName name rests,
      trim_right name <> "" ->
      Forall (fun r => trim_right r <> "") rests ->
      on_lines eventName (("event: " +:+ name) :: (String.append "data: " <$> rests))
        = (fun r => (trim_right name, trim_right r)) <$> rests) /\
  (forall eventName label name lines datas,
      TrimSpace label = "event: " +:+ name ->
      Forall2 (fun l d => TrimSpace l = "data: " +:+ d) lines datas ->
      on_lines eventName (label :: lines) = (fun d => (name, d)) <$> datas) /\
  (forall eventName blank before after,
      TrimSpace blank = "" ->
      on_lines eventName (before ++ blank :: after)
        = on_lines eventName (before ++ after)) /\
  (forall eventName first later,
      exists more,
        on_lines eventName (first ++ later) = on_lines eventName first ++ more) /\
  (handler_calls
     (join_lines ["event: update"; "data: " +:+ payload_a1; "data: " +:+ payload_a2])
     = [("update", payload_a1); ("update", payload_a2)] /\
   handler_calls
     (join_lines ["event: update"; ""; "data: " +:+ payload_a1; "   "; "";
                  "data: " +:+ payload_a2; ""])
     = [("update", payload_a1); ("update", payload_a2)] /\
   forall url_Parse url,
     url_Parse url = None ->
     exec (serving {| body_data :=
                        join_lines ["event: update"; "data: " +:+ payload_a1;
                                    "data: " +:+ payload_a2];
                      body_err := "EOF" |})
          0 (WatchEvents url_Parse (NewUnifiedClientSSE url))
     = ([Ev (HttpGet url)
           (inr {| body_data :=
                     join_lines ["event: update"; "data: " +:+ payload_a1;
                                 "data: " +:+ payload_a2];
                   body_err := "EOF" |})],
        Some ([("update", payload_a1); ("update", payload_a2)], Some "EOF"))).
Proof.
  split.
  { intros lines tail Hl Ht. unfold handler_calls.
    rewrite (listen_loop_lines lines tail Hl Ht); [done|]. lia. }
  split; [exact on_line_label_rest|].
  split; [exact on_line_payload_rest|].
  split; [exact on_line_label|].
  split; [exact on_line_payload|].
  split; [exact on_line_blank|].
  split.
  { intros eventName line He Hd. unfold on_line. rewrite He, Hd.
    by destruct (String.length (TrimSpace line) =? 0)%nat. }
  split.
  { intros eventName name rests Hn Hr. cbn [on_lines].
    rewrite on_line_label_rest.
    destruct (trim_right name) as [|x t] eqn:Ht; [done|].
    cbn [app]. by apply on_lines_payloads_rest. }
  split.
  { intros eventName label name lines datas Hlab Hd. simpl.
    rewrite (on_line_label _ _ _ Hlab). simpl. by apply on_lines_payloads. }
  split; [exact on_lines_skip_blank|].
  split; [exact on_lines_prefix|].
  split; [vm_compute; reflexivity|].
  split; [vm_compute; reflexivity|].
  intros url_Parse url Hu.
  unfold WatchEvents, NewUnifiedClientSSE, NewSSEClient, SSEClient_ListenSSE,
    NewRequest, NewRequestWithContext, Background.
  cbn [mode sse sse_URL String.eqb Ascii.eqb Bool.eqb]. rewrite Hu.
  vm_compute. reflexivity.
Qed.

(** C6 as stated fails on a payload line without a payload: the line
    has the prefix "data: ", yet the handler is not called for it,
    because the line is trimmed before the prefix is looked for and the
    trimmed line ends after the colon.  Of the label line for update and
    two payload lines, the first of them empty, the handler is called
    once.  A label line without a name likewise leaves the name as it
    was. *)
Lemma blank_payload_line_calls_nothing :
  let line := "data: " +:+ String newline "" in
  HasPrefix line "data: " = true /\
  on_line "update" line = ("update", []) /\
  handler_calls (join_lines ["event: update"; "data: "; "data: " +:+ payload_a1])
    = [("update", payload_a1)] /\
  on_line "update" ("event: " +:+ String newline "") = ("update", []).
Proof. cbv zeta. repeat split; vm_compute; reflexivity. Qed.

End ClientProperties.

(* ===================================================================== *)
(** ** Properties of the registries under concurrent goroutines *)
(* ===================================================================== *)

Module LockingProperties.

Import Locking.

Lemma total_insert (f : list action -> nat) (ts : list (list action)) i t t' :
  ts !! i = Some t ->
  (total f (<[i := t']> ts) + f t = total f ts + f t')%nat.
Proof.
  revert i. induction ts as [|x ts IH]; intros i H; [done|].
  destruct i as [|i]; simpl in *.
  - injection H as ->. lia.
  - specialize (IH i H). lia.
Qed.

Lemma total_le (f g : list action -> nat) (ts : list (list action)) :
  Forall (fun t => (f t <= g t)%nat) ts -> (total f ts <= total g ts)%nat.
Proof.
  induction 1 as [|t ts Ht _ IH]; simpl; [done|]. lia.
Qed.

Lemma total_zero (f : list action -> nat) (ts : list (list action)) :
  Forall (fun t => f t = 0%nat) ts -> total f ts = 0%nat.
Proof.
  induction 1 as [|t ts Ht _ IH]; simpl; [done|]. lia.
Qed.

(** Membership in [guarded_suffixes], case by case. *)
Ltac suffix_cases H :=
  unfold guarded_suffixes in H;
  repeat (apply elem_of_cons in H as [H|H]; [try discriminate H|]);
  [..|by apply elem_of_nil in H].

(** A goroutine writes the map only with the lock held, and reads it
    only with the read lock held. *)
Lemma guarded_access t :
  t ∈ guarded_suffixes ->
  (in_write t <= holds_lock t)%nat /\ (in_read t <= holds_rlock t)%nat.
Proof.
  intros H. suffix_cases H; subst t; vm_compute; split; lia.
Qed.

Lemma consistent_start fs :
  Forall (fun f => f ∈ resource_functions \/ f ∈ prompt_functions) fs ->
  consistent (start fs).
Proof.
  intros H.
  assert (Hz : Forall (fun f =>
            f ∈ guarded_suffixes /\ holds_lock f = 0%nat /\ holds_rlock f = 0%nat
            /\ in_write f = 0%nat /\ in_read f = 0%nat) fs).
  { eapply Forall_impl; [exact H|]. intros f [Hf|Hf];
      unfold resource_functions, prompt_functions in Hf;
      repeat (apply elem_of_cons in Hf as [->|Hf]);
      try (by apply elem_of_nil in Hf);
      (split; [unfold guarded_suffixes; set_solver | repeat split; reflexivity]). }
  split; simpl.
  - eapply Forall_impl; [exact Hz|]. by intros f (? & ? & ? & ? & ?).
  - apply total_zero. eapply Forall_impl; [exact Hz|]. by intros f (? & ? & ? & ? & ?).
  - apply total_zero. eapply Forall_impl; [exact Hz|]. by intros f (? & ? & ? & ? & ?).
  - apply total_zero. eapply Forall_impl; [exact Hz|]. by intros f (? & ? & ? & ? & ?).
  - apply total_zero. eapply Forall_impl; [exact Hz|]. by intros f (? & ? & ? & ? & ?).
  - done.
Qed.

(** Evaluate where a given goroutine stands. *)
Ltac eval_phase f H :=
  repeat match type of H with
         | context [f (@cons action ?a ?r)] =>
             let v := eval vm_compute in (f (@cons action a r)) in
             change (f (@cons action a r)) with v in H
         | context [f (@nil action)] =>
             let v := eval vm_compute in (f (@nil action)) in
             change (f (@nil action)) with v in H
         end.

Lemma consistent_step st i st' :
  consistent st -> step st i = Some st' -> consistent st'.
Proof.
  intros [Ht Hw Hr Hwr Hrd Hx] Hs. unfold step in Hs.
  destruct (threads st !! i) as [[|a rest]|] eqn:E; try discriminate.
  assert (Hin : a :: rest ∈ guarded_suffixes)
    by (eapply (Forall_lookup_1 _ _ _ _ Ht); exact E).
  pose proof (total_insert holds_lock _ i _ rest E) as T1.
  pose proof (total_insert holds_rlock _ i _ rest E) as T2.
  pose proof (total_insert in_write _ i _ rest E) as T3.
  pose proof (total_insert in_read _ i _ rest E) as T4.
  assert (Hrest : rest ∈ guarded_suffixes).
  { clear -Hin. suffix_cases Hin; injection Hin as -> ->;
      unfold guarded_suffixes; set_solver. }
  suffix_cases Hin; injection Hin as -> ->;
    eval_phase holds_lock T1; eval_phase holds_rlock T2;
    eval_phase in_write T3; eval_phase in_read T4;
    destruct (writer st) eqn:Ew; simpl in Hs;
    try destruct (readers st) as [|k] eqn:Er; simpl in Hs;
    try discriminate Hs; injection Hs as <-;
    (split; simpl; rewrite ?Ew, ?Er;
     [by apply Forall_insert | try (intros; discriminate); try lia; try tauto ..]).
Qed.

Lemma consistent_exec schedule :
  forall st st', consistent st -> exec st schedule = Some st' -> consistent st'.
Proof.
  induction schedule as [|i schedule IH]; intros st st' Hc He; simpl in He.
  - by injection He as <-.
  - destruct (step st i) as [st1|] eqn:Es; [|discriminate].
    eapply IH; [|exact He]. eapply consistent_step; eauto.
Qed.

Lemma consistent_no_torn_read st :
  consistent st -> torn_read st = false /\ (writing st <= 1)%nat.
Proof.
  intros [Ht Hw Hr Hwr Hrd Hx].
  assert (H1 : (total in_write (threads st) <= total holds_lock (threads st))%nat).
  { apply total_le. eapply Forall_impl; [exact Ht|].
    intros t Hin. by apply guarded_access. }
  assert (H2 : (total in_read (threads st) <= total holds_rlock (threads st))%nat).
  { apply total_le. eapply Forall_impl; [exact Ht|].
    intros t Hin. by apply guarded_access. }
  unfold torn_read. destruct (writer st).
  - specialize (Hx eq_refl). split; [|lia].
    apply andb_false_iff. left. apply Nat.ltb_ge. lia.
  - split; [|lia]. apply andb_false_iff. right. apply Nat.ltb_ge. lia.
Qed.

(** C5 on the code.  The functions of the resource registry, and those
    of the prompt registry, take the registry's lock around every access
    to its map: however many goroutines run them and however they are
    interleaved, no read of the map is under way while a write is, and at
    most one write is under way.  The functions of the tool registry take
    no lock: with [RegisterTool] in one goroutine and [CallToolByName]
    (or [ListTools]) in another, the schedule that starts the write and
    then the read leaves a read under way during the write; the same
    schedule on the resource registry is blocked by the lock. *)
Theorem tool_registry_is_not_locked :
  (forall fs schedule st,
      Forall (fun f => f ∈ resource_functions) fs ->
      exec (start fs) schedule = Some st ->
      torn_read st = false /\ (writing st <= 1)%nat) /\
  (forall fs schedule st,
      Forall (fun f => f ∈ prompt_functions) fs ->
      exec (start fs) schedule = Some st ->
      torn_read st = false /\ (writing st <= 1)%nat) /\
  (torn_read <$> exec (start [RegisterTool; CallToolByName]) [0; 1]%nat = Some true /\
   torn_read <$> exec (start [RegisterTool; ListTools]) [0; 1]%nat = Some true /\
   (writing <$> exec (start [RegisterTool; RegisterTool]) [0; 1]%nat) = Some 2%nat) /\
  (exec (start [RegisterResource; GetResource]) [0; 1]%nat = None /\
   exec (start [RegisterPrompt; GetPrompt]) [0; 1]%nat = None /\
   threads <$> exec (start [RegisterResource; GetResource])
                 [0; 0; 0; 0; 1; 1; 1; 1]%nat = Some [[]; []]).
Proof.
  split; [|split; [|split]].
  - intros fs schedule st Hfs He.
    apply consistent_no_torn_read.
    eapply consistent_exec; [|exact He]. apply consistent_start.
    eapply Forall_impl; [exact Hfs|]. tauto.
  - intros fs schedule st Hfs He.
    apply consistent_no_torn_read.
    eapply consistent_exec; [|exact He]. apply consistent_start.
    eapply Forall_impl; [exact Hfs|]. tauto.
  - repeat split; vm_compute; reflexivity.
  - repeat split; vm_compute; reflexivity.
Qed.

End LockingProperties.

(* ===================================================================== *)
(** ** Further properties of dispatch and of the registries *)
(* ===================================================================== *)

Module DispatchProperties.

Import McpServer ServerRuns StringFacts.

(** *** Envelopes *)

Lemma run_tool_envelope s resp p :
  resp_JsonRPC (run_tool s resp p) = resp_JsonRPC resp /\
  resp_ID (run_tool s resp p) = resp_ID resp.
Proof.
  unfold run_tool.
  by destruct (CallToolByName (toolRegistry s) (Name p) (Arguments p)) as [v [e|]].
Qed.

Lemma dispatch_common_envelope s req resp :
  resp_JsonRPC (dispatch_common s req resp) = resp_JsonRPC resp /\
  resp_ID (dispatch_common s req resp) = resp_ID resp.
Proof.
  unfold dispatch_common, get_resource, get_prompt, GetResource, GetPrompt.
  repeat match goal with
         | |- context [if ?b then _ else _] => destruct b
         end; try done.
  - destruct (unmarshal_name (req_Params req)) as [name [e|]]; [done|].
    by destruct (resourceRegistry s !! name).
  - destruct (unmarshal_name (req_Params req)) as [name [e|]]; [done|].
    by destruct (promptRegistry s !! name).
Qed.

Lemma dispatch_envelope (s : Server) (req : RPCRequest) :
  (resp_JsonRPC (httpDispatch s req) = "2.0" /\
   resp_ID (httpDispatch s req) = req_ID req) /\
  (resp_JsonRPC (wsDispatch s req) = "2.0" /\
   resp_ID (wsDispatch s req) = req_ID req).
Proof.
  split.
  - unfold httpDispatch. destruct (String.eqb _ _).
    + destruct (unmarshal_tool_run (req_Params req)) as [p [e|]]; [done|].
      apply (run_tool_envelope s (new_response req) p).
    + apply (dispatch_common_envelope s req (new_response req)).
  - unfold wsDispatch. destruct (String.eqb _ _).
    + destruct (unmarshal_tool_run (req_Params req)) as [p e].
      apply (run_tool_envelope s (new_response req) p).
    + apply (dispatch_common_envelope s req (new_response req)).
Qed.

(** X1. Every response envelope is stamped with version "2.0" and with
    the id of the request it answers, on both handlers and whatever
    the method, the parameters and the outcome; a body that does not
    decode is refused with status 400 and the decoder's message, without
    any envelope. *)
Theorem response_echoes_request :
  forall (s : Server) (req : RPCRequest),
    (resp_JsonRPC (httpDispatch s req) = "2.0" /\
     resp_ID (httpDispatch s req) = req_ID req) /\
    (resp_JsonRPC (wsDispatch s req) = "2.0" /\
     resp_ID (wsDispatch s req) = req_ID req) /\
    (exists resp, httpHandler s (inr req) = HttpJSON resp /\
                  resp_ID resp = req_ID req) /\
    (forall err, httpHandler s (inl err) = HttpError 400 err).
Proof.
  intros s req. destruct (dispatch_envelope s req) as [H1 H2].
  split; [exact H1|]. split; [exact H2|]. split; [|done].
  exists (httpDispatch s req). split; [done | apply H1].
Qed.

(** *** The WebSocket loop *)

Lemma requests_ok_cons t conn req :
  read_result t = inr req -> requests (t :: conn) = req :: requests conn.
Proof. intros H. unfold requests. simpl. by rewrite H. Qed.

(** X2. The WebSocket loop answers the requests one by one, in the
    order read, each with the response of the dispatcher.  While every
    read and every write succeeds it stays in the loop; at the first read
    error it leaves the loop having answered exactly the requests before
    it; at the first failed write it returns after that attempt; in both
    cases nothing that follows on the connection is served. *)
Theorem ws_loop_serves_in_order :
  forall (s : Server) (pre : list ws_turn),
    Forall (fun t => turn_ok t = true) pre ->
    wsHandler s pre = (wsDispatch s <$> requests pre, Waiting) /\
    (forall t post err,
        read_result t = inl err ->
        wsHandler s (pre ++ t :: post)
          = (wsDispatch s <$> requests pre, ReadFailed)) /\
    (forall t post req,
        read_result t = inr req -> write_ok t = false ->
        wsHandler s (pre ++ t :: post)
          = (wsDispatch s <$> (requests pre ++ [req]), WriteFailed)) /\
    resp_ID <$> fst (wsHandler s pre) = req_ID <$> requests pre.
Proof.
  intros s pre Hok.
  assert (Hstep : forall rest, 
    wsHandler s (pre ++ rest)
      = (let '(out, ex) := wsHandler s rest in
         ((wsDispatch s <$> requests pre) ++ out, ex))).
  { induction Hok as [|t pre Ht _ IH]; intros rest.
    - simpl. by destruct (wsHandler s rest).
    - unfold turn_ok in Ht.
      destruct (read_result t) as [e|req] eqn:Er; [done|].
      rewrite (requests_ok_cons _ _ _ Er). simpl. rewrite Er, Ht, IH.
      by destruct (wsHandler s rest). }
  assert (H1 : wsHandler s pre = (wsDispatch s <$> requests pre, Waiting)).
  { specialize (Hstep []). rewrite app_nil_r in Hstep. rewrite Hstep.
    simpl. by rewrite app_nil_r. }
  split; [exact H1|]. split; [|split].
  - intros t post err Hr. rewrite Hstep. simpl. rewrite Hr.
    by rewrite app_nil_r.
  - intros t post req Hr Hw. rewrite Hstep. simpl. rewrite Hr, Hw.
    by rewrite fmap_app.
  - rewrite H1. simpl. rewrite <- list_fmap_compose.
    apply list_fmap_ext. intros i req _. simpl.
    apply (dispatch_envelope s req).
Qed.

(** X2 at work: two requests, then the peer closes. *)
Lemma ws_loop_witness :
  Forall (fun t => turn_ok t = true)
    [{| read_result := inr (request 1 "system.version" None); write_ok := true |};
     {| read_result := inr (request 2 "foo.bar" None); write_ok := true |}] /\
  resp_ID <$> fst (wsHandler initial
    [{| read_result := inr (request 1 "system.version" None); write_ok := true |};
     {| read_result := inr (request 2 "foo.bar" None); write_ok := true |}])
  = [1; 2].
Proof.
  assert (H : Forall (fun t => turn_ok t = true)
    [{| read_result := inr (request 1 "system.version" None); write_ok := true |};
     {| read_result := inr (request 2 "foo.bar" None); write_ok := true |}])
    by (repeat constructor).
  split; [exact H|].
  destruct (ws_loop_serves_in_order initial _ H) as (_ & _ & _ & ->).
  reflexivity.
Defined.

(** *** Method names *)

Lemma eqb_not_in (m name : string) (names : list string) :
  m ∉ names -> name ∈ names -> String.eqb m name = false.
Proof.
  intros Hn Hin. apply String.eqb_neq. intros ->. by apply Hn.
Qed.

Lemma unknown_method_dispatch (s : Server) (req : RPCRequest) :
  req_Method req ∉ method_names ->
  httpDispatch s req = set_Error (new_response req) method_not_found /\
  wsDispatch s req = set_Error (new_response req) method_not_found.
Proof.
  intros Hn.
  assert (E : forall name, name ∈ method_names ->
                String.eqb (req_Method req) name = false)
    by (intros name; by apply eqb_not_in).
  unfold httpDispatch, wsDispatch, dispatch_common.
  rewrite !E by (unfold method_names; set_solver). done.
Qed.

(** X3. A method name that is not one of the ten of the table (the
    comparison is exact: case and spelling matter) is answered by both
    handlers with the error -32601 "Method not found", whatever the
    parameters and the state of the server. *)
Theorem unknown_method_not_found :
  forall (s : Server) (req : RPCRequest),
    req_Method req ∉ method_names ->
    httpDispatch s req = set_Error (new_response req) method_not_found /\
    wsDispatch s req = set_Error (new_response req) method_not_found.
Proof. exact unknown_method_dispatch. Qed.

Lemma unknown_method_witness :
  ("Tools.List" ∉ method_names) /\
  httpDispatch initial (request 3 "Tools.List" None)
    = {| resp_JsonRPC := "2.0"; resp_ID := 3; Result := None;
         Error := Some {| Code := -32601; Message := "Method not found" |} |}.
Proof.
  assert (H : "Tools.List" ∉ method_names).
  { unfold method_names. intros H.
    repeat (apply elem_of_cons in H as [H|H]; [discriminate H|]).
    by apply elem_of_nil in H. }
  split; [exact H|].
  exact (proj1 (unknown_method_not_found initial (request 3 "Tools.List" None) H)).
Defined.




(** *** The enabled methods *)

Lemma ListEnabledMethods_elem (M : gmap string bool) (m : string) :
  m ∈ ListEnabledMethods M <-> M !! m = Some true.
Proof.
  unfold ListEnabledMethods. rewrite list_elem_of_fmap. split.
  - intros ([k b] & -> & [Hb Hin]%list_elem_of_filter). simpl in *. subst b.
    by apply elem_of_map_to_list.
  - intros H. exists (m, true). split; [done|].
    apply list_elem_of_filter. split; [done|]. by apply elem_of_map_to_list.
Qed.

Lemma ListEnabledMethods_NoDup (M : gmap string bool) :
  NoDup (ListEnabledMethods M).
Proof.
  unfold ListEnabledMethods.
  apply (sublist_NoDup _ ((map_to_list M).*1));
    [apply (NoDup_fst_map_to_list M)|].
  apply fmap_sublist. apply sublist_filter.
Qed.

(** X5. [ListEnabledMethods] lists, each once, exactly the methods whose
    flag is true, that is those for which [IsMethodEnabled] holds.
    [IsMethodEnabled] after [SetMethodEnabled] of the same name is the
    flag just set when the name is in the table and false when it is not,
    and is unchanged for every other name.  [system.listMethods] answers
    with that list. *)
Theorem enabled_methods_follow_flags :
  forall (M : gmap string bool),
    (forall m, m ∈ ListEnabledMethods M <-> IsMethodEnabled M m = true) /\
    NoDup (ListEnabledMethods M) /\
    (forall m b,
        IsMethodEnabled (SetMethodEnabled m b M) m
          = if bool_decide (m ∈ dom M) then b else false) /\
    (forall m b other, other <> m ->
        IsMethodEnabled (SetMethodEnabled m b M) other = IsMethodEnabled M other) /\
    (forall m other,
        other ∈ ListEnabledMethods (SetMethodEnabled m false M) <->
        other <> m /\ other ∈ ListEnabledMethods M) /\
    (forall s req,
        Methods s = M -> req_Method req = "system.listMethods" ->
        Result (httpDispatch s req) = Some (AStrings (ListEnabledMethods M)) /\
        Result (wsDispatch s req) = Some (AStrings (ListEnabledMethods M))).
Proof.
  intros M.
  assert (Hen : forall M' m, IsMethodEnabled M' m = true <-> M' !! m = Some true).
  { intros M' m. unfold IsMethodEnabled.
    destruct (M' !! m) as [[|]|]; split; congruence. }
  assert (Hother : forall m b other, other <> m ->
            SetMethodEnabled m b M !! other = M !! other).
  { intros m b other Hne. unfold SetMethodEnabled.
    destruct (M !! m); [by rewrite lookup_insert_ne|done]. }
  split; [intros m; by rewrite ListEnabledMethods_elem, Hen|].
  split; [apply ListEnabledMethods_NoDup|].
  split.
  { intros m b. unfold IsMethodEnabled, SetMethodEnabled.
    case_bool_decide as Hd.
    - apply elem_of_dom in Hd as [x Hx]. rewrite Hx.
      by rewrite lookup_insert_eq.
    - apply not_elem_of_dom in Hd. by rewrite !Hd. }
  split.
  { intros m b other Hne. unfold IsMethodEnabled. by rewrite Hother. }
  split.
  { intros m other. rewrite !ListEnabledMethods_elem. split.
    - intros H. destruct (decide (other = m)) as [->|Hne].
      + exfalso. unfold SetMethodEnabled in H.
        destruct (M !! m) eqn:E.
        * rewrite lookup_insert_eq in H. congruence.
        * congruence.
      + split; [done|]. by rewrite Hother in H.
    - intros [Hne H]. by rewrite Hother. }
  intros s req <- Hm. unfold httpDispatch, wsDispatch, dispatch_common.
  rewrite Hm. done.
Qed.

(** *** What the registries hold after a run *)

Lemma last_filter_snoc {A : Type} (P : A -> Prop) `{!forall x, Decision (P x)}
    (l : list A) (x : A) :
  last (filter P (l ++ [x])) = if decide (P x) then Some x else last (filter P l).
Proof.
  rewrite filter_app. rewrite filter_cons, filter_nil.
  destruct (decide (P x)); [apply last_snoc | by rewrite app_nil_r].
Qed.

Lemma run_tool_lookup ops name :
  toolRegistry (run ops) !! name
    = last (filter (fun t => tool_Name t = name) (registered_tools ops)).
Proof.
  induction ops as [|o ops IH] using rev_ind; [done|].
  rewrite ServerProperties.run_snoc. unfold registered_tools in *.
  rewrite omap_app.
  destruct o; simpl; rewrite ?app_nil_r; try exact IH.
  rewrite last_filter_snoc. unfold RegisterTool.
  destruct (decide (tool_Name tool = name)) as [<-|Hne].
  - apply lookup_insert_eq.
  - by rewrite lookup_insert_ne.
Qed.

Lemma run_resource_lookup ops name :
  resourceRegistry (run ops) !! name
    = last (filter (fun r => res_Name r = name) (registered_resources ops)).
Proof.
  induction ops as [|o ops IH] using rev_ind; [done|].
  rewrite ServerProperties.run_snoc. unfold registered_resources in *.
  rewrite omap_app.
  destruct o; simpl; rewrite ?app_nil_r; try exact IH.
  rewrite last_filter_snoc. unfold RegisterResource.
  destruct (decide (res_Name r = name)) as [<-|Hne].
  - apply lookup_insert_eq.
  - by rewrite lookup_insert_ne.
Qed.

Lemma run_prompt_lookup ops name :
  promptRegistry (run ops) !! name
    = last (filter (fun p => prompt_Name p = name) (registered_prompts ops)).
Proof.
  induction ops as [|o ops IH] using rev_ind; [done|].
  rewrite ServerProperties.run_snoc. unfold registered_prompts in *.
  rewrite omap_app.
  destruct o; simpl; rewrite ?app_nil_r; try exact IH.
  rewrite last_filter_snoc. unfold RegisterPrompt.
  destruct (decide (prompt_Name p = name)) as [<-|Hne].
  - apply lookup_insert_eq.
  - by rewrite lookup_insert_ne.
Qed.

Lemma last_filter_Some {A : Type} (P : A -> Prop) `{!forall x, Decision (P x)}
    (l : list A) (x : A) :
  last (filter P l) = Some x -> x ∈ l /\ P x.
Proof.
  intros Hl. apply last_Some_elem_of in Hl.
  apply list_elem_of_filter in Hl. tauto.
Qed.

Lemma last_filter_is_Some {A : Type} (P : A -> Prop) `{!forall x, Decision (P x)}
    (l : list A) :
  is_Some (last (filter P l)) <-> exists x, x ∈ l /\ P x.
Proof.
  split.
  - intros [x Hx]. exists x. by apply (last_filter_Some P l x).
  - intros (x & Hin & Hp). apply last_is_Some.
    intros E. assert (Hx : x ∈ filter P l) by (by apply list_elem_of_filter).
    rewrite E in Hx. by apply elem_of_nil in Hx.
Qed.

(** The descriptor found under a name carries that name. *)
Lemma run_names_agree (ops : list op) (name : string) :
  (forall t, toolRegistry (run ops) !! name = Some t -> tool_Name t = name) /\
  (forall r, resourceRegistry (run ops) !! name = Some r -> res_Name r = name) /\
  (forall p, promptRegistry (run ops) !! name = Some p -> prompt_Name p = name).
Proof.
  split; [|split].
  - intros t. rewrite run_tool_lookup. intros H.
    by apply last_filter_Some in H as [_ H].
  - intros r. rewrite run_resource_lookup. intros H.
    by apply last_filter_Some in H as [_ H].
  - intros q. rewrite run_prompt_lookup. intros H.
    by apply last_filter_Some in H as [_ H].
Qed.

(** X6. After any sequence of operations, each registry maps a name to
    the descriptor that was registered last under that name, and has no
    entry for a name that was never registered: registrations are never
    undone, a re-registration replaces the earlier descriptor, and
    registrations under other names, and every other operation, do not
    matter.  In particular the descriptor found under a name carries
    that name. *)
Theorem registry_holds_last_registration :
  forall (ops : list op) (name : string),
    (toolRegistry (run ops) !! name
       = last (filter (fun t => tool_Name t = name) (registered_tools ops)) /\
     resourceRegistry (run ops) !! name
       = last (filter (fun r => res_Name r = name) (registered_resources ops)) /\
     promptRegistry (run ops) !! name
       = last (filter (fun p => prompt_Name p = name) (registered_prompts ops))) /\
    (is_Some (toolRegistry (run ops) !! name) <->
       exists t, OpRegisterTool t ∈ ops /\ tool_Name t = name) /\
    (is_Some (resourceRegistry (run ops) !! name) <->
       exists r, OpRegisterResource r ∈ ops /\ res_Name r = name) /\
    (is_Some (promptRegistry (run ops) !! name) <->
       exists p, OpRegisterPrompt p ∈ ops /\ prompt_Name p = name) /\
    (forall t, toolRegistry (run ops) !! name = Some t -> tool_Name t = name) /\
    (forall r, resourceRegistry (run ops) !! name = Some r -> res_Name r = name) /\
    (forall p, promptRegistry (run ops) !! name = Some p -> prompt_Name p = name).
Proof.
  intros ops name.
  split; [split; [apply run_tool_lookup|split;
                  [apply run_resource_lookup|apply run_prompt_lookup]]|].
  split.
  { rewrite run_tool_lookup, last_filter_is_Some. unfold registered_tools.
    split; intros (t & Hin & Hn); exists t; split; try done.
    - apply list_elem_of_omap in Hin as (o & Ho & Ht).
      destruct o; try discriminate. by injection Ht as ->.
    - apply list_elem_of_omap. by exists (OpRegisterTool t). }
  split.
  { rewrite run_resource_lookup, last_filter_is_Some. unfold registered_resources.
    split; intros (t & Hin & Hn); exists t; split; try done.
    - apply list_elem_of_omap in Hin as (o & Ho & Ht).
      destruct o; try discriminate. by injection Ht as ->.
    - apply list_elem_of_omap. by exists (OpRegisterResource t). }
  split.
  { rewrite run_prompt_lookup, last_filter_is_Some. unfold registered_prompts.
    split; intros (t & Hin & Hn); exists t; split; try done.
    - apply list_elem_of_omap in Hin as (o & Ho & Ht).
      destruct o; try discriminate. by injection Ht as ->.
    - apply list_elem_of_omap. by exists (OpRegisterPrompt t). }
  exact (run_names_agree ops name).
Qed.

(** *** The listings *)

Lemma fmap_named {A : Type} (reg : gmap string A) (name : A -> string) :
  (forall k v, reg !! k = Some v -> name v = k) ->
  (fun kv => name (snd kv)) <$> map_to_list reg = (map_to_list reg).*1.
Proof.
  intros Hn. apply list_fmap_ext. intros i [k v] Hi. simpl.
  apply Hn. apply elem_of_map_to_list. by eapply list_elem_of_lookup_2.
Qed.

Lemma keys_elem {A : Type} (reg : gmap string A) (k : string) :
  k ∈ (map_to_list reg).*1 <-> is_Some (reg !! k).
Proof.
  rewrite list_elem_of_fmap. split.
  - intros ([k' v] & -> & Hin). apply elem_of_map_to_list in Hin. by exists v.
  - intros [v Hv]. exists (k, v). split; [done|]. by apply elem_of_map_to_list.
Qed.

(** X7. After any sequence of operations the three listings show the
    registries as they are: [ListTools] has one summary per registered
    name, with the name and the description of the tool registered last
    under it; [ListResources] has one entry per registered name, holding
    the name and the type of the resource registered last under it;
    [ListPrompts] has each registered name once.  The lengths are the
    sizes of the registries. *)
Theorem listings_show_registries :
  forall (ops : list op),
    let s := run ops in
    (NoDup (ts_Name <$> ListTools (toolRegistry s)) /\
     length (ListTools (toolRegistry s)) = size (toolRegistry s) /\
     forall sm, sm ∈ ListTools (toolRegistry s) <->
       exists t, toolRegistry s !! ts_Name sm = Some t /\
                 sm = {| ts_Name := tool_Name t;
                         ts_Description := tool_Description t |}) /\
    (NoDup (entry_get "name" <$> ListResources (resourceRegistry s)) /\
     length (ListResources (resourceRegistry s)) = size (resourceRegistry s) /\
     forall entry, entry ∈ ListResources (resourceRegistry s) <->
       exists r, resourceRegistry s !! res_Name r = Some r /\
                 entry = [("name", res_Name r); ("type", res_Type r)]) /\
    (NoDup (ListPrompts (promptRegistry s)) /\
     length (ListPrompts (promptRegistry s)) = size (promptRegistry s) /\
     forall name, name ∈ ListPrompts (promptRegistry s) <->
       is_Some (promptRegistry s !! name)).
Proof.
  intros ops s.
  assert (Ht : forall k v, toolRegistry s !! k = Some v -> tool_Name v = k)
    by (intros k v; apply (run_names_agree ops k)).
  assert (Hr : forall k v, resourceRegistry s !! k = Some v -> res_Name v = k)
    by (intros k v; apply (run_names_agree ops k)).
  split; [|split].
  - split; [|split].
    + unfold ListTools. rewrite <- list_fmap_compose.
      change (NoDup ((fun kv : string * Tool => tool_Name (snd kv))
                       <$> map_to_list (toolRegistry s))).
      rewrite (fmap_named (toolRegistry s) tool_Name Ht).
      apply NoDup_fst_map_to_list.
    + unfold ListTools. by rewrite length_fmap, length_map_to_list.
    + intros sm. unfold ListTools. rewrite list_elem_of_fmap. split.
      * intros ([k t] & -> & Hin). apply elem_of_map_to_list in Hin.
        simpl. exists t. split; [|done]. by rewrite (Ht _ _ Hin).
      * intros (t & Hl & ->). simpl in Hl. exists (tool_Name t, t).
        split; [done|]. by apply elem_of_map_to_list.
  - split; [|split].
    + unfold ListResources. rewrite <- list_fmap_compose.
      assert (E : (entry_get "name" ∘
                     (fun kv : string * Resource =>
                        [("name", res_Name kv.2); ("type", res_Type kv.2)]))
                    <$> map_to_list (resourceRegistry s)
                  = Some <$> (map_to_list (resourceRegistry s)).*1).
      { rewrite <- list_fmap_compose. apply list_fmap_ext.
        intros i [k r] Hi. simpl. unfold entry_get. simpl. f_equal.
        apply Hr, elem_of_map_to_list. by eapply list_elem_of_lookup_2. }
      rewrite E. apply NoDup_fmap_2; [apply _|]. apply NoDup_fst_map_to_list.
    + unfold ListResources. by rewrite length_fmap, length_map_to_list.
    + intros entry. unfold ListResources. rewrite list_elem_of_fmap. split.
      * intros ([k r] & -> & Hin). apply elem_of_map_to_list in Hin.
        simpl. exists r. split; [|done]. by rewrite (Hr _ _ Hin).
      * intros (r & Hl & ->). exists (res_Name r, r).
        split; [done|]. by apply elem_of_map_to_list.
  - split; [|split].
    + apply NoDup_fst_map_to_list.
    + unfold ListPrompts. by rewrite length_fmap, length_map_to_list.
    + intros name. apply keys_elem.
Qed.

(** *** Running a tool *)

(** X8. A ["tools.run"] request whose parameters decode and name a
    registered tool gets the outcome of that tool's handler, on both
    handlers: when the handler returns an error, the response is the
    error with code -32601 (the code also used for unknown methods) and
    the handler's message, and any value returned with it is dropped;
    otherwise the response carries the handler's value as its result. *)
Theorem tool_run_mirrors_handler :
  forall (s : Server) (req : RPCRequest) (p : ToolRunParams) (tool : Tool),
    req_Method req = "tools.run" ->
    unmarshal_tool_run (req_Params req) = (p, None) ->
    toolRegistry s !! Name p = Some tool ->
    (forall v msg,
        Handler tool (Arguments p) = (v, Some msg) ->
        httpDispatch s req
          = set_Error (new_response req) {| Code := -32601; Message := msg |} /\
        wsDispatch s req
          = set_Error (new_response req) {| Code := -32601; Message := msg |}) /\
    (forall v,
        Handler tool (Arguments p) = (v, None) ->
        httpDispatch s req = set_Result (new_response req) v /\
        wsDispatch s req = set_Result (new_response req) v).
Proof.
  intros s req p tool Hm Hd Ht.
  unfold httpDispatch, wsDispatch. rewrite Hm, Hd. simpl.
  unfold run_tool, CallToolByName. rewrite Ht.
  split; intros; by rewrite H.
Qed.

(** X8 at work: the geocode tool run without arguments. *)
Lemma tool_run_witness :
  let s := run [OpRegisterTool geocode_tool] in
  let req := request 5 "tools.run" (Some (JObject [("name", JString "geocode")])) in
  req_Method req = "tools.run" /\
  unmarshal_tool_run (req_Params req)
    = ({| Name := "geocode"; Arguments := None |}, None) /\
  toolRegistry s !! "geocode" = Some geocode_tool /\
  httpDispatch s req
    = set_Error (new_response req)
        {| Code := -32601; Message := "unexpected end of JSON input" |}.
Proof.
  cbv zeta.
  assert (Ht : toolRegistry (run [OpRegisterTool geocode_tool]) !! "geocode"
               = Some geocode_tool) by reflexivity.
  split; [reflexivity|]. split; [reflexivity|]. split; [exact Ht|].
  exact (proj1 (proj1 (tool_run_mirrors_handler
           (run [OpRegisterTool geocode_tool])
           (request 5 "tools.run" (Some (JObject [("name", JString "geocode")])))
           {| Name := "geocode"; Arguments := None |} geocode_tool
           eq_refl eq_refl Ht) None "unexpected end of JSON input" eq_refl)).
Defined.

(** *** Getting a resource or a prompt *)

(** X21. A ["resources.get"] request whose parameters decode to a name
    is answered, on both handlers, with the resource registered under
    that name as the result, or, when there is none, with the error
    -32601 and the message "resource not found: " followed by the name;
    ["prompts.get"] does the same with the prompts and the message
    "prompt not found: ".  After any sequence of operations the
    descriptor returned is the one registered last under the name. *)
Theorem get_returns_registered_descriptor :
  forall (s : Server) (req : RPCRequest) (name : string),
    unmarshal_name (req_Params req) = (name, None) ->
    (req_Method req = "resources.get" ->
       httpDispatch s req = wsDispatch s req /\
       httpDispatch s req =
         match resourceRegistry s !! name with
         | Some r => set_Result (new_response req) (Some (AResource r))
         | None => set_Error (new_response req)
                     {| Code := -32601;
                        Message := "resource not found: " +:+ name |}
         end) /\
    (req_Method req = "prompts.get" ->
       httpDispatch s req = wsDispatch s req /\
       httpDispatch s req =
         match promptRegistry s !! name with
         | Some q => set_Result (new_response req) (Some (APrompt q))
         | None => set_Error (new_response req)
                     {| Code := -32601;
                        Message := "prompt not found: " +:+ name |}
         end) /\
    (forall ops, s = run ops ->
       resourceRegistry s !! name
         = last (filter (fun r => res_Name r = name) (registered_resources ops)) /\
       promptRegistry s !! name
         = last (filter (fun q => prompt_Name q = name) (registered_prompts ops))).
Proof.
  intros s req name Hd. split; [|split].
  - intros Hm. unfold httpDispatch, wsDispatch, dispatch_common.
    rewrite Hm, Hd. simpl. split; [done|].
    unfold get_resource, GetResource.
    by destruct (resourceRegistry s !! name).
  - intros Hm. unfold httpDispatch, wsDispatch, dispatch_common.
    rewrite Hm, Hd. simpl. split; [done|].
    unfold get_prompt, GetPrompt.
    by destruct (promptRegistry s !! name).
  - intros ops ->. split; [apply run_resource_lookup|apply run_prompt_lookup].
Qed.

(** X21 at work: a resource registered twice under one name, and a name
    that was never registered. *)
Lemma get_descriptor_witness :
  let r1 := {| res_Name := "test1"; res_Type := "string";
               res_Data := JString "hello world" |} in
  let r2 := {| res_Name := "test1"; res_Type := "int";
               res_Data := JNumber "123" |} in
  let s := run [OpRegisterResource r1; OpRegisterResource r2] in
  let req name := request 9 "resources.get" (Some (JObject [("name", JString name)])) in
  unmarshal_name (req_Params (req "test1")) = ("test1", None) /\
  httpDispatch s (req "test1")
    = set_Result (new_response (req "test1")) (Some (AResource r2)) /\
  httpDispatch s (req "test2")
    = set_Error (new_response (req "test2"))
        {| Code := -32601; Message := "resource not found: test2" |}.
Proof.
  cbv zeta. split; [reflexivity|]. split.
  - exact (proj2 (proj1 (get_returns_registered_descriptor
             (run [OpRegisterResource
                     {| res_Name := "test1"; res_Type := "string";
                        res_Data := JString "hello world" |};
                   OpRegisterResource
                     {| res_Name := "test1"; res_Type := "int";
                        res_Data := JNumber "123" |}])
             (request 9 "resources.get" (Some (JObject [("name", JString "test1")])))
             "test1" eq_refl) eq_refl)).
  - exact (proj2 (proj1 (get_returns_registered_descriptor
             (run [OpRegisterResource
                     {| res_Name := "test1"; res_Type := "string";
                        res_Data := JString "hello world" |};
                   OpRegisterResource
                     {| res_Name := "test1"; res_Type := "int";
                        res_Data := JNumber "123" |}])
             (request 9 "resources.get" (Some (JObject [("name", JString "test2")])))
             "test2" eq_refl) eq_refl)).
Defined.

End DispatchProperties.

(* ===================================================================== *)
(** ** Properties of the event stream, from the server to the handler *)
(* ===================================================================== *)

Module PushProperties.

Import McpClient Push StringFacts.

(** *** White space and newlines *)

Lemma has_newline_append (a b : string) :
  has_newline (a +:+ b) = has_newline a || has_newline b.
Proof.
  induction a as [|c a IH]; [done|].
  rewrite append_String. simpl. rewrite IH. by rewrite orb_assoc.
Qed.

(** A line that begins with ASCII bytes, the first of them not white
    space, and ends, before its newline, with a tidy text is handed to
    the prefix tests as it is, without the newline. *)
Lemma TrimSpace_line (c : ascii) (pre t : string) :
  is_space c = false -> ascii_only (String c pre) = true -> tidy t ->
  TrimSpace (String c pre +:+ t +:+ String newline "") = String c pre +:+ t.
Proof.
  intros Hc Ha (_ & Ht & Hne). unfold TrimSpace.
  assert (Hlt : (nat_of_ascii c < 128)%nat).
  { simpl in Ha. by apply andb_true_iff in Ha as [?%Nat.ltb_lt _]. }
  rewrite append_String, (ClientProperties.trim_left_plain_start _ _ Hc Hlt).
  rewrite <- append_String, <- append_assoc.
  rewrite ClientProperties.trim_right_spaces by done.
  by apply ClientProperties.trim_right_keep.
Qed.

Lemma pretty_N_go_no_newline (x : N) :
  forall s, has_newline s = false -> has_newline (pretty_N_go x s) = false.
Proof.
  induction (N.lt_wf_0 x) as [x _ IH]; intros s Hs.
  assert (x = 0 \/ 0 < x)%N as [->|Hx] by lia.
  - by rewrite pretty_N_go_0.
  - rewrite pretty_N_go_step by done. apply IH.
    + by apply N.div_lt.
    + simpl. rewrite Hs. unfold pretty_N_char. by repeat case_match.
Qed.

Lemma pretty_N_no_newline (x : N) : has_newline (pretty x) = false.
Proof.
  unfold pretty, pretty_N. case_decide; [done|].
  by apply pretty_N_go_no_newline.
Qed.

Lemma pretty_Z_no_newline (n : Z) : has_newline (pretty n) = false.
Proof.
  destruct n as [|q|q]; [done| |].
  - apply pretty_N_no_newline.
  - change (pretty (Z.neg q)) with ("-" +:+ pretty (N.pos q)).
    rewrite has_newline_append. simpl. apply pretty_N_no_newline.
Qed.

Lemma tidy_tick_payload (n : Z) : tidy (tick_payload n).
Proof.
  unfold tidy, tick_payload. split.
  - rewrite !has_newline_append, pretty_Z_no_newline. reflexivity.
  - assert (H : ends_plain
                  ("{" +:+ dquote +:+ "message" +:+ dquote +:+ ":" +:+
                   dquote +:+ "Event #" +:+ pretty n +:+ dquote +:+ "}") = true)
      by (repeat apply ClientProperties.ends_plain_append_r; reflexivity).
    split; [by apply ClientProperties.trim_right_ends_plain|].
    intros E. by rewrite E in H.
Qed.

(** *** From the bytes written to the calls of the handler *)

Lemma on_line_message (eventName e p : string) :
  tidy e -> tidy p ->
  on_line eventName (("event: " +:+ e) +:+ String newline "") = (e, []) /\
  on_line e (("data: " +:+ p) +:+ String newline "") = (e, [(e, p)]) /\
  on_line e ("" +:+ String newline "") = (e, []).
Proof.
  intros He Hp. split; [|split].
  - apply ClientProperties.on_line_label.
    rewrite append_assoc. by apply (TrimSpace_line _ "vent: " e).
  - apply ClientProperties.on_line_payload.
    rewrite append_assoc. by apply (TrimSpace_line _ "ata: " p).
  - by apply ClientProperties.on_line_blank.
Qed.

(** The lines of a sequence of events. *)
Lemma stream_of_lines (events : list (string * string)) :
  stream_of events
    = join_lines (events ≫= fun ep => ["event: " +:+ fst ep; "data: " +:+ snd ep; ""]).
Proof.
  induction events as [|[e p] events IH]; [done|].
  cbn [stream_of mbind list_bind fst snd app join_lines]. rewrite IH.
  unfold sse_message.
  rewrite !append_assoc, !append_String, !append_assoc, !append_String.
  reflexivity.
Qed.

Lemma on_lines_events (events : list (string * string)) :
  Forall (fun ep => tidy (fst ep) /\ tidy (snd ep)) events ->
  forall eventName,
    on_lines eventName
      ((fun l => l +:+ String newline "") <$>
         (events ≫= fun ep => ["event: " +:+ fst ep; "data: " +:+ snd ep; ""]))
    = events.
Proof.
  induction 1 as [|[e p] events [He Hp] _ IH]; intros eventName; [done|].
  cbn [mbind list_bind fst snd app fmap list_fmap on_lines].
  destruct (on_line_message eventName e p He Hp) as (-> & -> & ->).
  simpl. by rewrite IH.
Qed.

Lemma handler_calls_stream (events : list (string * string)) :
  Forall (fun ep => tidy (fst ep) /\ tidy (snd ep)) events ->
  handler_calls (stream_of events) = events.
Proof.
  intros H. rewrite stream_of_lines. unfold handler_calls.
  set (lines := events ≫= _).
  assert (Hl : Forall (fun l => has_newline l = false) lines).
  { subst lines. induction H as [|[e p] events [(He & _) (Hp & _)] _ IH];
      [constructor|].
    cbn [mbind list_bind fst snd app].
    repeat constructor; try done; rewrite ?has_newline_append; simpl;
      by rewrite ?He, ?Hp. }
  pose proof (ClientProperties.listen_loop_lines lines "" Hl eq_refl ""
                (S (String.length (join_lines lines)))) as Hloop.
  rewrite append_empty_r in Hloop. rewrite Hloop by lia. simpl.
  by apply on_lines_events.
Qed.

Lemma written_window :
  forall (mid : list op) (st : state) (c : client),
    (c ∈ sseClients st -> Leave c ∉ mid ->
       written (run_from st mid) c
         = written st c +:+ stream_of (broadcasts (count st) mid) /\
       c ∈ sseClients (run_from st mid)) /\
    (c ∉ sseClients st -> Accept c ∉ mid ->
       written (run_from st mid) c = written st c /\
       c ∉ sseClients (run_from st mid)).
Proof.
  induction mid as [|o mid IH]; intros st c.
  - split; intros; simpl; by rewrite ?append_empty_r.
  - split.
    + intros Hin Hleave.
      assert (Hl : Leave c ∉ mid) by set_solver.
      assert (Hne : o <> Leave c) by set_solver.
      change (run_from st (o :: mid)) with (run_from (step st o) mid).
      destruct o as [c'|c'|e p|]; cbn [step broadcasts].
      * destruct (proj1 (IH (sse_accept c' st) c)) as [-> ?];
          [simpl; set_solver|done|]. done.
      * destruct (proj1 (IH (sse_leave c' st) c)) as [-> ?];
          [simpl; set_solver|done|]. done.
      * destruct (proj1 (IH (broadcastSSE e p st) c)) as [-> ?]; [done..|].
        split; [|done]. simpl. rewrite decide_True by done.
        by rewrite append_assoc.
      * destruct (proj1 (IH (tick st) c)) as [-> ?]; [done..|].
        split; [|done]. simpl. rewrite decide_True by done.
        by rewrite append_assoc.
    + intros Hout Hacc.
      assert (Hl : Accept c ∉ mid) by set_solver.
      assert (Hne : o <> Accept c) by set_solver.
      change (run_from st (o :: mid)) with (run_from (step st o) mid).
      destruct o as [c'|c'|e p|]; cbn [step].
      * destruct (proj2 (IH (sse_accept c' st) c)) as [-> ?];
          [simpl; set_solver|done|]. done.
      * destruct (proj2 (IH (sse_leave c' st) c)) as [-> ?];
          [simpl; set_solver|done|]. done.
      * destruct (proj2 (IH (broadcastSSE e p st) c)) as [-> ?]; [done..|].
        split; [|done]. simpl. by rewrite decide_False.
      * destruct (proj2 (IH (tick st) c)) as [-> ?]; [done..|].
        split; [|done]. simpl. by rewrite decide_False.
Qed.

(** X9. What a connection receives.  A client that is registered, and
    does not leave, is written every event that is broadcast from then
    on (by [broadcastSSE] or by the ticker), in order and in the format
    of [broadcastSSE], and stays registered; a client that is not
    registered, and is not accepted, is written nothing. *)
Theorem subscriber_receives_broadcasts :
  forall (mid : list op) (st : state) (c : client),
    (c ∈ sseClients st -> Leave c ∉ mid ->
       written (run_from st mid) c
         = written st c +:+ stream_of (broadcasts (count st) mid) /\
       c ∈ sseClients (run_from st mid)) /\
    (c ∉ sseClients st -> Accept c ∉ mid ->
       written (run_from st mid) c = written st c /\
       c ∉ sseClients (run_from st mid)).
Proof. exact written_window. Qed.

(** X10. The format of [broadcastSSE] and the parser of [ListenSSE]
    fit: a stream made of any events whose names and payloads are tidy
    (no newline, not empty, no white space at the end) is turned by the
    parser into one call of the handler per event, in order, with that
    event's name and payload. *)
Theorem broadcast_format_round_trip :
  forall (events : list (string * string)),
    Forall (fun ep => tidy (fst ep) /\ tidy (snd ep)) events ->
    handler_calls (stream_of events) = events.
Proof. exact handler_calls_stream. Qed.

Lemma broadcast_format_witness :
  Forall (fun ep => tidy (fst ep) /\ tidy (snd ep))
    [("update", payload_a1); ("tools changed", "[1, 2]")] /\
  handler_calls (stream_of [("update", payload_a1); ("tools changed", "[1, 2]")])
    = [("update", payload_a1); ("tools changed", "[1, 2]")].
Proof.
  assert (H : Forall (fun ep => tidy (fst ep) /\ tidy (snd ep))
                [("update", payload_a1); ("tools changed", "[1, 2]")])
    by (repeat constructor; done).
  split; [exact H|]. exact (broadcast_format_round_trip _ H).
Defined.

Lemma append_cancel_r (a b c : string) : a +:+ c = b +:+ c -> a = b.
Proof.
  revert b. induction a as [|x a IH]; intros b E.
  - apply (f_equal String.length) in E. rewrite !length_append in E.
    destruct b; [done|]. simpl in E. lia.
  - destruct b as [|y b].
    + apply (f_equal String.length) in E. rewrite !length_append in E.
      simpl in E. lia.
    + rewrite !append_String in E. injection E as -> E. f_equal. by apply IH.
Qed.

Lemma tidy_update : tidy "update".
Proof. by repeat split. Qed.

Lemma broadcasts_tidy (mid : list op) :
  (forall e p, Broadcast e p ∈ mid -> tidy e /\ tidy p) ->
  forall n, Forall (fun ep => tidy (fst ep) /\ tidy (snd ep)) (broadcasts n mid).
Proof.
  induction mid as [|o mid IH]; intros H n; [constructor|].
  assert (H' : forall e p, Broadcast e p ∈ mid -> tidy e /\ tidy p)
    by (intros e p Hin; apply H; set_solver).
  destruct o as [c|c|e p|]; simpl; auto.
  - constructor; [|auto]. apply H. set_solver.
  - constructor; [|auto]. split; [apply tidy_update|apply tidy_tick_payload].
Qed.

(** X11. From the server to the handler.  A client accepted on a fresh
    connection that reads the stream with [ListenSSE] has its handler
    called once for every event broadcast while it stays registered, in
    order, with the event's name and payload, provided the names and
    payloads passed to [broadcastSSE] are tidy; the events of the ticker
    always are. *)
Theorem subscriber_handler_sees_broadcasts :
  forall (st : state) (c : client) (mid : list op),
    c ∈ sseClients st ->
    written st c = "" ->
    Leave c ∉ mid ->
    (forall e p, Broadcast e p ∈ mid -> tidy e /\ tidy p) ->
    handler_calls (written (run_from st mid) c) = broadcasts (count st) mid.
Proof.
  intros st c mid Hin Hw Hleave Htidy.
  destruct (proj1 (written_window mid st c) Hin Hleave) as [-> _].
  rewrite Hw. change ("" +:+ ?x) with x.
  apply handler_calls_stream. by apply broadcasts_tidy.
Qed.

Lemma subscriber_handler_witness :
  (7%nat ∈ sseClients (sse_accept 7%nat start)) /\
  written (sse_accept 7%nat start) 7%nat = "" /\
  (Leave 7%nat ∉ [Tick; Broadcast "update" payload_a1; Accept 8%nat; Tick]) /\
  handler_calls
    (written (run_from (sse_accept 7%nat start)
                [Tick; Broadcast "update" payload_a1; Accept 8%nat; Tick]) 7%nat)
  = [("update", tick_payload 1); ("update", payload_a1);
     ("update", tick_payload 2)].
Proof.
  assert (H1 : 7%nat ∈ sseClients (sse_accept 7%nat start)) by (simpl; set_solver).
  assert (H3 : Leave 7%nat ∉ [Tick; Broadcast "update" payload_a1; Accept 8%nat; Tick]).
  { intros H. repeat (apply elem_of_cons in H as [H|H]; [discriminate H|]).
    by apply elem_of_nil in H. }
  assert (H4 : forall e p,
             Broadcast e p ∈ [Tick; Broadcast "update" payload_a1; Accept 8%nat; Tick] ->
             tidy e /\ tidy p).
  { intros e p H.
    repeat (apply elem_of_cons in H as [H|H];
            [try discriminate H; injection H as -> ->; by repeat split|]).
    by apply elem_of_nil in H. }
  split; [exact H1|]. split; [reflexivity|]. split; [exact H3|].
  exact (subscriber_handler_sees_broadcasts _ _ _ H1 eq_refl H3 H4).
Defined.

(** X12. The ticker numbers its events from the counter on: started
    with the counter at [n], its [k] first rounds broadcast the events
    "update" with the messages "Event #n+1" up to "Event #n+k", as long
    as the counter stays below 2^63; the payloads of different rounds
    differ.  At 2^63 - 1 the counter wraps to -2^63. *)
Theorem ticker_numbers_events :
  forall (n : Z) (k : nat),
    - 2 ^ 63 <= n -> n + Z.of_nat k < 2 ^ 63 ->
    broadcasts n (replicate k Tick)
      = (fun i => ("update", tick_payload (n + Z.of_nat i))) <$> seq 1 k /\
    count (run_from {| sseClients := ∅; written := fun _ => ""; count := n |}
             (replicate k Tick)) = n + Z.of_nat k /\
    (forall i j, tick_payload i = tick_payload j -> i = j) /\
    next_count (2 ^ 63 - 1) = - 2 ^ 63.
Proof.
  intros n k Hlo Hhi.
  assert (Hnext : forall m, m < 2 ^ 63 - 1 -> next_count m = m + 1).
  { intros m Hm. unfold next_count.
    destruct (Z.eqb_spec m (2 ^ 63 - 1)); [lia|done]. }
  split; [|split; [|split]].
  - revert n Hlo Hhi. induction k as [|k IH]; intros n Hlo Hhi; [done|].
    cbn [replicate broadcasts seq fmap list_fmap].
    rewrite Hnext by lia. replace (n + Z.of_nat 1) with (n + 1) by lia.
    f_equal. rewrite IH by lia. rewrite <- (fmap_S_seq 1 k), <- list_fmap_compose.
    apply list_fmap_ext. intros i x _. simpl. do 2 f_equal. lia.
  - generalize (∅ : gset client) (fun _ : client => "").
    revert n Hlo Hhi. induction k as [|k IH]; intros n Hlo Hhi cl w.
    + simpl. lia.
    + cbn [replicate]. change (run_from ?s (Tick :: ?r)) with (run_from (tick s) r).
      unfold tick, broadcastSSE. cbn [count sseClients written].
      rewrite IH; rewrite Hnext; lia.
  - intros i j H. unfold tick_payload in H.
    repeat (apply (inj (String.app _)) in H).
    apply append_cancel_r in H. by apply (inj pretty) in H.
  - reflexivity.
Qed.

Lemma ticker_numbers_witness :
  - 2 ^ 63 <= 0 /\ 0 + Z.of_nat 3 < 2 ^ 63 /\
  broadcasts 0 (replicate 3 Tick)
    = [("update", tick_payload 1); ("update", tick_payload 2);
       ("update", tick_payload 3)].
Proof.
  split; [discriminate|]. split; [reflexivity|].
  exact (proj1 (ticker_numbers_events 0 3 ltac:(discriminate) eq_refl)).
Defined.

(** *** White space around a line *)

Lemma TrimSpace_padded (c : ascii) (pre t lead trail : string) :
  is_space c = false -> ascii_only (String c pre) = true -> tidy t ->
  trim_left lead = "" -> trim_right trail = "" ->
  TrimSpace (lead +:+ (String c pre +:+ t) +:+ trail) = String c pre +:+ t.
Proof.
  intros Hc Ha (_ & Ht & Hne) Hlead Htrail. unfold TrimSpace.
  assert (Hlt : (nat_of_ascii c < 128)%nat).
  { simpl in Ha. by apply andb_true_iff in Ha as [?%Nat.ltb_lt _]. }
  rewrite ClientProperties.trim_left_spaces by done.
  rewrite append_assoc, append_String.
  rewrite (ClientProperties.trim_left_plain_start _ _ Hc Hlt).
  rewrite <- append_String, <- append_assoc.
  rewrite ClientProperties.trim_right_spaces by done.
  by apply ClientProperties.trim_right_keep.
Qed.

(** X22. The parser takes a line with any white space before and after
    it (spaces, tabs, a carriage return before the newline) like the
    line itself: a padded label line with a tidy name sets that name, a
    padded payload line with a tidy payload calls the handler with that
    payload, without the padding. *)
Theorem parser_ignores_padding :
  forall (eventName text lead trail : string),
    tidy text ->
    trim_left lead = "" ->
    trim_right trail = "" ->
    on_line eventName (lead +:+ ("event: " +:+ text) +:+ trail) = (text, []) /\
    on_line eventName (lead +:+ ("data: " +:+ text) +:+ trail)
      = (eventName, [(eventName, text)]).
Proof.
  intros eventName text lead trail Ht Hlead Htrail. split.
  - apply ClientProperties.on_line_label.
    by apply (TrimSpace_padded _ "vent: " text).
  - apply ClientProperties.on_line_payload.
    by apply (TrimSpace_padded _ "ata: " text).
Qed.

Lemma parser_padding_witness :
  let crlf := String (ascii_of_nat 13) (String newline "") in
  (tidy payload_a1 /\ trim_left "  " = "" /\ trim_right crlf = "") /\
  on_line "update" ("  " +:+ ("data: " +:+ payload_a1) +:+ crlf)
    = ("update", [("update", payload_a1)]).
Proof.
  cbv zeta.
  assert (Ht : tidy payload_a1) by (by repeat split).
  split; [by repeat split|].
  exact (proj2 (parser_ignores_padding "update" payload_a1 "  "
                  (String (ascii_of_nat 13) (String newline ""))
                  Ht eq_refl eq_refl)).
Defined.

End PushProperties.

(* ===================================================================== *)
(** ** Properties of a client talking to the server *)
(* ===================================================================== *)

Module WireProperties.

Import McpClient Wire StringFacts.

Section Served.

Variable marshal : McpServer.any -> json.
Variable s : McpServer.Server.
Variable url_Parse : string -> error.

Notation run := (exec_served marshal s).
Notation reply_http req :=
  (to_client marshal (McpServer.httpDispatch s (to_server req))).
Notation reply_ws req :=
  (to_client marshal (McpServer.wsDispatch s (to_server req))).

Lemma exec_served_bind {R T : Type} (p : prog R) (f : R -> prog T) :
  forall queue,
    run queue (bind p f) =
      match run queue p with
      | (evs, Returned x, q) =>
          let '(evs', r, q') := run q (f x) in (evs ++ evs', r, q')
      | (evs, Panicked, q) => (evs, Panicked, q)
      | (evs, Stopped, q) => (evs, Stopped, q)
      end.
Proof.
  induction p as [r|m|X e k IH]; intros queue; simpl.
  - by destruct (run queue (f r)) as [[evs r'] q].
  - done.
  - destruct (served marshal s queue e) as [[a q]|]; [|done].
    rewrite IH. destruct (run q (k a)) as [[evs [x| |]] q']; try done.
    by destruct (run q' (f x)) as [[evs' r'] q''].
Qed.

Lemma http_call_served {A : Type} (c : HTTPClient) (ctx : Context) method args
    (result : option (out_ptr A)) queue :
  ctx <> None -> url_Parse (URL c) = None ->
  run queue (HTTPClient_Call url_Parse c ctx method args result)
    = ([Ev (HttpPost (URL c) (request_of (counter c) method args))
          (inr (inr (reply_http (request_of (counter c) method args))))],
       Returned ({| URL := URL c; counter := AddUint64 (counter c) 1 |},
                 finish (reply_http (request_of (counter c) method args)) result),
       queue).
Proof.
  intros Hctx Hurl. unfold HTTPClient_Call. cbn [URL].
  rewrite (ClientProperties.request_built _ _ _ _ Hctx Hurl). reflexivity.
Qed.

Lemma ws_call_served {A : Type} (c : WSClient) (cn : conn) method args
    (result : option (out_ptr A)) :
  ws_conn c = Some cn ->
  run [] (WSClient_Call c method args result)
    = ([Ev (WsWriteJSON cn (request_of (ws_counter c) method args)) None;
        Ev (WsReadJSON cn)
          (inr (reply_ws (request_of (ws_counter c) method args)))],
       Returned ({| ws_URL := ws_URL c; ws_conn := Some cn;
                    ws_counter := AddUint64 (ws_counter c) 1 |},
                 finish (reply_ws (request_of (ws_counter c) method args)) result),
       []).
Proof. intros Hc. unfold WSClient_Call. simpl. rewrite Hc. reflexivity. Qed.

Lemma mcp_error_text (msg : string) :
  mcp_error {| Code := -32601; Message := msg |}
    = "MCP Error -32601: " +:+ msg.
Proof. reflexivity. Qed.

(** X13. An HTTP call against the server, made with a context that is
    not nil on a client whose URL parses, returns what [httpHandler]
    answers to the envelope the call built, and leaves the counter one
    higher.  A method that is not in the server's table makes the call
    fail with "MCP Error -32601: Method not found"; [CallTool] of a tool
    that is not registered fails with "MCP Error -32601: tool not found: "
    followed by the tool's name; in both cases the caller's result is
    left untouched.  With a nil context, or a URL that does not parse,
    the call panics and the server sees nothing. *)
Theorem http_call_reports_server_error :
  forall (A : Type) (c : HTTPClient) (ctx : Context)
         (result : option (out_ptr A)) (queue : list rpcResponse),
    let c' := {| URL := URL c; counter := AddUint64 (counter c) 1 |} in
    (ctx <> None -> url_Parse (URL c) = None ->
     (forall method args,
         snd (fst (run queue (HTTPClient_Call url_Parse c ctx method args result)))
           = Returned (c', finish (reply_http (request_of (counter c) method args))
                             result)) /\
     (forall method args,
         method ∉ McpServer.method_names ->
         snd (fst (run queue (HTTPClient_Call url_Parse c ctx method args result)))
           = Returned (c', (None, Some "MCP Error -32601: Method not found"))) /\
     (forall toolName args,
         McpServer.toolRegistry s !! toolName = None ->
         snd (fst (run queue
                     (HTTPClient_CallTool url_Parse c ctx toolName args result)))
           = Returned (c', (None, Some ("MCP Error -32601: tool not found: "
                                        +:+ toolName))))) /\
    (ctx = None \/ url_Parse (URL c) <> None ->
     forall method args,
       run queue (HTTPClient_Call url_Parse c ctx method args result)
         = ([], Panicked, queue)).
Proof.
  intros A c ctx result queue c'. split.
  - intros Hctx Hurl. split; [|split].
    + intros method args. by rewrite http_call_served.
    + intros method args Hn. rewrite http_call_served by done. cbn [fst snd].
      destruct (DispatchProperties.unknown_method_dispatch s
                  (to_server (request_of (counter c) method args)) Hn) as [-> _].
      reflexivity.
    + intros toolName args Hnone. unfold HTTPClient_CallTool.
      rewrite http_call_served by done. cbn [fst snd].
      unfold McpServer.httpDispatch, McpServer.run_tool, McpServer.CallToolByName.
      simpl. rewrite Hnone. reflexivity.
  - intros Hbad method args.
    apply (ClientProperties.request_not_built url_Parse ctx "POST") in Hbad.
    by rewrite (ClientProperties.HTTPClient_Call_panics _ _ _ _ _ _ Hbad).
Qed.

(** X14. A tool call over HTTP (with a context that is not nil, on a
    client whose URL parses) or over the WebSocket hands the handler
    of the registered tool the caller's arguments as they were passed,
    and hands the caller's decoder the JSON of the value the handler
    returned; a handler error comes back as
    "MCP Error -32601: " followed by the handler's message. *)
Theorem tool_call_end_to_end :
  forall (A : Type) (toolName : string) (args : json) (tool : McpServer.Tool)
         (unmarshal : out_ptr A),
    McpServer.toolRegistry s !! toolName = Some tool ->
    (forall (c : HTTPClient) (ctx : Context) queue,
        ctx <> None -> url_Parse (URL c) = None ->
        snd (fst (run queue
                    (HTTPClient_CallTool url_Parse c ctx toolName args
                       (Some unmarshal))))
          = Returned
              ({| URL := URL c; counter := AddUint64 (counter c) 1 |},
               match McpServer.Handler tool (Some args) with
               | (_, Some msg) => (None, Some ("MCP Error -32601: " +:+ msg))
               | (v, None) =>
                   (Some (fst (unmarshal (marshal <$> v))),
                    snd (unmarshal (marshal <$> v)))
               end)) /\
    (forall (c : WSClient) cn,
        ws_conn c = Some cn ->
        snd (fst (run [] (WSClient_CallTool c toolName args (Some unmarshal))))
          = Returned
              ({| ws_URL := ws_URL c; ws_conn := Some cn;
                  ws_counter := AddUint64 (ws_counter c) 1 |},
               match McpServer.Handler tool (Some args) with
               | (_, Some msg) => (None, Some ("MCP Error -32601: " +:+ msg))
               | (v, None) =>
                   (Some (fst (unmarshal (marshal <$> v))),
                    snd (unmarshal (marshal <$> v)))
               end)).
Proof.
  intros A toolName args tool unmarshal Ht. split.
  - intros c ctx queue Hctx Hurl. unfold HTTPClient_CallTool.
    rewrite http_call_served by done. cbn [fst snd]. do 2 f_equal.
    unfold McpServer.httpDispatch, McpServer.run_tool, McpServer.CallToolByName.
    simpl. rewrite Ht.
    destruct (McpServer.Handler tool (Some args)) as [v [msg|]]; [done|].
    unfold finish. simpl. by destruct (unmarshal (marshal <$> v)).
  - intros c cn Hc. unfold WSClient_CallTool.
    rewrite (ws_call_served c cn) by done. cbn [fst snd]. do 2 f_equal.
    unfold McpServer.wsDispatch, McpServer.run_tool, McpServer.CallToolByName.
    simpl. rewrite Ht.
    destruct (McpServer.Handler tool (Some args)) as [v [msg|]]; [done|].
    unfold finish. simpl. by destruct (unmarshal (marshal <$> v)).
Qed.

(** *** Sessions *)


Lemma ws_session_served (calls : list (string * json)) :
  forall (c : WSClient) (cn : conn),
    ws_conn c = Some cn ->
    exists evs c',
      run [] (ws_session c calls)
        = (evs,
           Returned (c', answers marshal s McpServer.wsDispatch
                           (ws_counter c) calls), []) /\
      ws_conn c' = Some cn /\
      read_ids evs = sent_ids evs /\
      length (sent_ids evs) = length calls.
Proof.
  induction calls as [|[method args] calls IH]; intros c cn Hc.
  - exists [], c. by repeat split.
  - cbn [ws_session answers]. rewrite exec_served_bind.
    rewrite (ws_call_served c cn) by done.
    cbn [fst snd]. rewrite exec_served_bind.
    destruct (IH {| ws_URL := ws_URL c; ws_conn := Some cn;
                    ws_counter := AddUint64 (ws_counter c) 1 |} cn eq_refl)
      as (evs & c' & -> & Hc' & Hids & Hlen).
    eexists _, c'. split; [reflexivity|]. split; [done|].
    rewrite app_nil_r.
    assert (Hr : forall a b, read_ids (a ++ b) = read_ids a ++ read_ids b)
      by (intros a b; unfold read_ids; by rewrite map_app, concat_app).
    rewrite Hr, ClientProperties.sent_ids_app, Hids.
    assert (E : read_ids
              [Ev (WsWriteJSON cn (request_of (ws_counter c) method args)) None;
               Ev (WsReadJSON cn)
                 (inr (reply_ws (request_of (ws_counter c) method args)))]
            = [AddUint64 (ws_counter c) 1]).
    { unfold read_ids. simpl. f_equal.
      apply (DispatchProperties.dispatch_envelope s
               (to_server (request_of (ws_counter c) method args))). }
    rewrite E. split; [done|]. simpl. by rewrite Hlen.
Qed.

(** X15. Calls made one after the other on a connected WebSocket client
    against the server each return, and each returns the server's answer
    to its own request: the response that the call reads is the one the
    server wrote for the request the call sent, so the ids read are the
    ids sent, in order, although the client never compares them; nothing
    is left unread on the connection. *)
Theorem ws_calls_get_their_own_answers :
  forall (calls : list (string * json)) (c : WSClient) (cn : conn),
    ws_conn c = Some cn ->
    exists evs c',
      run [] (ws_session c calls)
        = (evs,
           Returned (c', answers marshal s McpServer.wsDispatch
                           (ws_counter c) calls), []) /\
      read_ids evs = sent_ids evs /\
      length (read_ids evs) = length calls.
Proof.
  intros calls c cn Hc.
  destruct (ws_session_served calls c cn Hc) as (evs & c' & H & _ & Hids & Hlen).
  exists evs, c'. split; [exact H|]. split; [exact Hids|]. by rewrite Hids.
Qed.



End Served.

(** X15 at work: two calls on one connection to a server without tools. *)
Lemma ws_calls_witness :
  ws_conn {| ws_URL := "ws://localhost:8074/ws"; ws_conn := Some 0%nat;
             ws_counter := 0 |} = Some 0%nat /\
  exists evs c',
    exec_served marshal_any McpServer.initial []
      (ws_session {| ws_URL := "ws://localhost:8074/ws"; ws_conn := Some 0%nat;
                     ws_counter := 0 |}
         [("system.version", JObject []); ("foo.bar", JNull)])
    = (evs,
       Returned (c', [(Some (Some (JString "2.0")), None);
                      (None, Some "MCP Error -32601: Method not found")]),
       []) /\
    read_ids evs = [1; 2].
Proof.
  split; [reflexivity|].
  destruct (ws_calls_get_their_own_answers marshal_any McpServer.initial
              [("system.version", JObject []); ("foo.bar", JNull)]
              {| ws_URL := "ws://localhost:8074/ws"; ws_conn := Some 0%nat;
                 ws_counter := 0 |} 0%nat eq_refl)
    as (evs & c' & H & Hids & _).
  exists evs, c'. split; [exact H|].
  vm_compute in H. injection H as <- _. reflexivity.
Defined.


(** X14 at work: the tool that returns its arguments, called with the
    object whose member x is 1. *)
Lemma tool_call_witness :
  McpServer.toolRegistry (McpServer.run [McpServer.OpRegisterTool McpServer.echo_tool])
    !! "echo" = Some McpServer.echo_tool /\
  snd (fst (exec_served marshal_any
              (McpServer.run [McpServer.OpRegisterTool McpServer.echo_tool]) []
              (HTTPClient_CallTool parse_no_ctl
                 (NewHTTPClient "http://localhost:8074/mcp") Background
                 "echo" (JObject [("x", JNumber "1")]) (Some raw_out))))
  = Returned ({| URL := "http://localhost:8074/mcp"; counter := 1 |},
              (Some (Some (JObject [("x", JNumber "1")])), None)).
Proof.
  assert (Ht : McpServer.toolRegistry
                 (McpServer.run [McpServer.OpRegisterTool McpServer.echo_tool])
                 !! "echo" = Some McpServer.echo_tool) by reflexivity.
  assert (Hctx : Background <> None) by discriminate.
  split; [exact Ht|].
  exact (proj1 (tool_call_end_to_end marshal_any _ parse_no_ctl _ "echo"
                  (JObject [("x", JNumber "1")]) McpServer.echo_tool raw_out Ht)
           (NewHTTPClient "http://localhost:8074/mcp") Background [] Hctx eq_refl).
Defined.

End WireProperties.

(* ===================================================================== *)
(** ** Further properties of the clients *)
(* ===================================================================== *)

Module ClientMoreProperties.

Import McpClient StringFacts.

(** X17. Closing a connected WebSocket client does two things on the
    network, in this order and whatever the network answers: it writes a
    close message with the code 1000 and the text "bye", then it closes
    the connection (also when the write failed).  A client without a
    connection, and the HTTP and SSE clients, do nothing on the network
    when closed.  The unified client closes the transport it is bound
    to. *)
Theorem ws_close_sends_close_then_closes :
  forall (net : network) (n : nat),
    (forall w cn,
        ws_conn w = Some cn ->
        exists a1 a2,
          exec net n (WSClient_Close w)
            = ([Ev (WsWriteMessage cn CloseMessage CloseNormalClosure "bye") a1;
                Ev (WsClose cn) a2], Some tt)) /\
    (forall w, ws_conn w = None -> exec net n (WSClient_Close w) = ([], Some tt)) /\
    (forall h, exec net n (HTTPClient_Close h) = ([], Some tt)) /\
    (forall c, exec net n (SSEClient_Close c) = ([], Some tt)) /\
    (forall url, exec net n (Close (NewUnifiedClientHTTP url)) = ([], Some tt)) /\
    (forall url, exec net n (Close (NewUnifiedClientSSE url)) = ([], Some tt)) /\
    (forall c w, mode c = "ws" -> ws c = Some w ->
        Close c = WSClient_Close w).
Proof.
  intros net n. repeat split.
  - intros w cn Hc. unfold WSClient_Close. rewrite Hc. simpl. eauto.
  - intros w Hc. unfold WSClient_Close. by rewrite Hc.
  - intros c w Hm Hw. unfold Close. by rewrite Hm, Hw.
Qed.

(** X18. A unified client whose mode is none of "http", "ws" and "sse"
    (the zero value of the type is one) fails every operation with the
    error "unknown client mode", without touching the network and
    without changing, and its [Close] does nothing. *)
Theorem unknown_mode_fails :
  forall (c : UnifiedClient),
    mode c <> "http" -> mode c <> "ws" -> mode c <> "sse" ->
    (forall url_Parse (A : Type) ctx method args (result : option (out_ptr A)),
        Call url_Parse c ctx method args result
          = Ret (c, (None, Some "unknown client mode")) /\
        CallTool url_Parse c ctx method args result
          = Ret (c, (None, Some "unknown client mode"))) /\
    (forall url_Parse dec ctx,
        ServerInfo url_Parse dec c ctx
          = Ret (c, (None, Some "unknown client mode"))) /\
    (forall url_Parse dec ctx,
        ServerToolsList url_Parse dec c ctx
          = Ret (c, (None, Some "unknown client mode"))) /\
    (forall url_Parse,
        WatchEvents url_Parse c = Ret ([], Some "unknown client mode")) /\
    Close c = Ret tt.
Proof.
  intros c H1 H2 H3.
  apply String.eqb_neq in H1, H2, H3.
  unfold Call, CallTool, ServerInfo, ServerToolsList, WatchEvents, Close.
  rewrite H1, H2, H3. by repeat split.
Qed.

Lemma unknown_mode_witness :
  let c := {| mode := ""; http := None; ws := None; sse := None |} in
  (mode c <> "http" /\ mode c <> "ws" /\ mode c <> "sse") /\
  WatchEvents parse_no_ctl c = Ret ([], Some "unknown client mode") /\
  Close c = Ret tt.
Proof.
  cbv zeta. split; [by repeat split|].
  destruct (unknown_mode_fails
              {| mode := ""; http := None; ws := None; sse := None |}
              ltac:(discriminate) ltac:(discriminate) ltac:(discriminate))
    as (_ & _ & _ & Hw & Hc).
  split; [exact (Hw parse_no_ctl) | exact Hc].
Defined.

(** X20. [ServerInfo] and [ServerToolsList] on a client bound to HTTP,
    called with a context that is not nil when the client's URL parses,
    send the methods ["server.info"] and ["tools.list"] with an empty
    object as parameters and return a response that is never nil: when
    the request fails, or the server answers with an error, they return
    the zero-valued response together with the error.  Called with a nil
    context, or on a client whose URL does not parse, they panic: they
    send nothing and return nothing. *)
Theorem server_info_never_nil :
  forall (url_Parse : string -> error)
         (decInfo : out_ptr ServerInfoResp) (decList : out_ptr ServerListResp)
         (net : network) (n : nat) (c : UnifiedClient) (h : HTTPClient)
         (ctx : Context),
    mode c = "http" -> http c = Some h ->
    let c' := set_http c {| URL := URL h; counter := AddUint64 (counter h) 1 |} in
    let post method :=
      HttpPost (URL h) {| JsonRPC := "2.0"; ID := AddUint64 (counter h) 1;
                          Method := method; Params := JObject [] |} in
    (ctx <> None -> url_Parse (URL h) = None ->
     (exists v err,
         exec net n (ServerInfo url_Parse decInfo c ctx)
           = ([Ev (post "server.info") (net n _ (post "server.info"))],
              Some (c', (Some v, err))) /\
         ((forall r, net n _ (post "server.info") = inr (inr r) -> Error r <> None) ->
          v = zero_ServerInfoResp /\ is_Some err) /\
         (forall r, net n _ (post "server.info") = inr (inr r) -> Error r = None ->
          (v, err) = decInfo (Result r))) /\
     (exists v err,
         exec net n (ServerToolsList url_Parse decList c ctx)
           = ([Ev (post "tools.list") (net n _ (post "tools.list"))],
              Some (c', (Some v, err))) /\
         ((forall r, net n _ (post "tools.list") = inr (inr r) -> Error r <> None) ->
          v = zero_ServerListResp /\ is_Some err) /\
         (forall r, net n _ (post "tools.list") = inr (inr r) -> Error r = None ->
          (v, err) = decList (Result r)))) /\
    (ctx = None \/ url_Parse (URL h) <> None ->
     exec net n (ServerInfo url_Parse decInfo c ctx) = ([], None) /\
     exec net n (ServerToolsList url_Parse decList c ctx) = ([], None)).
Proof.
  intros url_Parse decInfo decList net n c h ctx Hm Hh. cbv zeta. split.
  - intros Hctx Hurl.
    pose proof (ClientProperties.request_built url_Parse ctx "POST" (URL h)
                  Hctx Hurl) as Hreq.
    split.
    + unfold ServerInfo, via_http, HTTPClient_Call. rewrite Hm, Hh.
      cbn [URL]. rewrite Hreq. simpl.
      destruct (net n _ _) as [e|[e|r]] eqn:E; simpl.
      * eexists _, _. split; [reflexivity|]. split; [eauto|]. by intros r [=].
      * eexists _, _. split; [reflexivity|]. split; [eauto|]. by intros r [=].
      * unfold finish. destruct (Error r) as [e|] eqn:Er; simpl.
        -- eexists _, _. split; [reflexivity|]. split; [eauto|].
           intros r' [= <-]. congruence.
        -- destruct (decInfo (Result r)) as [v err] eqn:Ed. simpl.
           eexists _, _. split; [reflexivity|]. split.
           ++ intros H. by destruct (H r eq_refl).
           ++ intros r' [= <-] _. by rewrite Ed.
    + unfold ServerToolsList, via_http, HTTPClient_Call. rewrite Hm, Hh.
      cbn [URL]. rewrite Hreq. simpl.
      destruct (net n _ _) as [e|[e|r]] eqn:E; simpl.
      * eexists _, _. split; [reflexivity|]. split; [eauto|]. by intros r [=].
      * eexists _, _. split; [reflexivity|]. split; [eauto|]. by intros r [=].
      * unfold finish. destruct (Error r) as [e|] eqn:Er; simpl.
        -- eexists _, _. split; [reflexivity|]. split; [eauto|].
           intros r' [= <-]. congruence.
        -- destruct (decList (Result r)) as [v err] eqn:Ed. simpl.
           eexists _, _. split; [reflexivity|]. split.
           ++ intros H. by destruct (H r eq_refl).
           ++ intros r' [= <-] _. by rewrite Ed.
  - intros Hbad.
    apply (ClientProperties.request_not_built url_Parse ctx "POST") in Hbad.
    unfold ServerInfo, ServerToolsList, via_http. rewrite Hm, Hh.
    rewrite !(ClientProperties.HTTPClient_Call_panics _ _ _ _ _ _ Hbad).
    by split.
Qed.

(** X20 at work: the server cannot be reached; and a URL that holds a
    newline. *)
Lemma server_info_witness :
  let c := NewUnifiedClientHTTP "http://localhost:8074/mcp" in
  let bad := "http://localhost:8074/" +:+ String newline "" in
  let net := serving {| body_data := ""; body_err := "EOF" |} in
  (mode c = "http" /\ http c = Some (NewHTTPClient "http://localhost:8074/mcp")) /\
  (exists c' err,
     snd (exec net 0 (ServerInfo parse_no_ctl
                        (fun _ => (zero_ServerInfoResp, None)) c Background))
       = Some (c', (Some zero_ServerInfoResp, Some err))) /\
  exec net 0 (ServerInfo parse_no_ctl (fun _ => (zero_ServerInfoResp, None))
                (NewUnifiedClientHTTP bad) Background)
    = ([], None).
Proof.
  cbv zeta. split; [by split|]. split.
  - destruct (server_info_never_nil parse_no_ctl
                (fun _ => (zero_ServerInfoResp, None))
                (fun _ => (zero_ServerListResp, None))
                (serving {| body_data := ""; body_err := "EOF" |}) 0
                (NewUnifiedClientHTTP "http://localhost:8074/mcp")
                (NewHTTPClient "http://localhost:8074/mcp") Background
                eq_refl eq_refl)
      as [Hgood _].
    destruct Hgood as [(v & err & H & Hz & _) _]; [discriminate|reflexivity|].
    destruct Hz as [-> [e ->]]; [intros r [=]|].
    eexists _, e. by rewrite H.
  - destruct (server_info_never_nil parse_no_ctl
                (fun _ => (zero_ServerInfoResp, None))
                (fun _ => (zero_ServerListResp, None))
                (serving {| body_data := ""; body_err := "EOF" |}) 0
                (NewUnifiedClientHTTP ("http://localhost:8074/" +:+ String newline ""))
                (NewHTTPClient ("http://localhost:8074/" +:+ String newline ""))
                Background eq_refl eq_refl)
      as [_ Hbad].
    apply Hbad. right. discriminate.
Defined.

End ClientMoreProperties.
